(** * A shallow embedding of the [m] micro-framework (src/m/__init__.py)

    The development follows the source top to bottom: the type registry
    ([PATTERNS], [CASTS]), the route-rule compiler ([Router._rule_parse],
    [Router._spec_parse]), the fragment of Python's [re] module the compiled
    rules live in, the router, the filter chain and the application.

    Text is modelled by Rocq strings of 8-bit characters; the character
    classes [\w] and [\d] are the ASCII ones, so the model is that of ASCII
    rules, paths and hosts.  A pattern that uses syntax of [re] beyond the
    fragment modelled here is reported as such and never given a meaning. *)

From Stdlib Require Import String Ascii List ZArith Lia Bool Arith.
Import ListNotations.

Open Scope list_scope.
Open Scope string_scope.

Set Implicit Arguments.

(** ** Outcomes of fallible code *)

(** The exceptions the program can raise, by Python class.  [PatternOutsideModel]
    is not a Python exception: it marks a regular expression that uses syntax
    outside the modelled fragment of [re]. *)
Inductive exn : Type :=
| Exception (msg : string)
| KeyError (key : string)
| ValueError (msg : string)
| TypeError (msg : string)
| AttributeError (attr : string)
| re_error (msg : string)
| HTTPNotFound (detail : string)
| UserError (tag : string)
| PatternOutsideModel.

Inductive outcome (A : Type) : Type :=
| Return (a : A)
| Raise (e : exn).

Arguments Return {A} a.
Arguments Raise {A} e.

Definition obind {A B : Type} (o : outcome A) (f : A -> outcome B) : outcome B :=
  match o with
  | Return a => f a
  | Raise e => Raise e
  end.

Declare Scope outcome_scope.
Delimit Scope outcome_scope with outcome.
Notation "'try' x <- c1 ; c2" := (obind c1 (fun x => c2))
  (at level 61, x name, c1 at next level, right associativity) : outcome_scope.
Notation "'try' ' pat <- c1 ; c2" :=
  (obind c1 (fun x => match x with pat => c2 end))
  (at level 61, pat pattern, c1 at next level, right associativity) : outcome_scope.

(** HTTP status the hosting boundary ([wsgify]) answers with when the
    wrapped callable raises an HTTP exception. *)
Definition http_status (e : exn) : option nat :=
  match e with
  | HTTPNotFound _ => Some 404
  | _ => None
  end.

(** ** Python text and dict primitives *)

Module Py.

(** A dict with text keys, in insertion order; assignment to a present key
    keeps the key's position. *)
Definition dict (V : Type) : Type := list (string * V).

Fixpoint get {V : Type} (k : string) (d : dict V) : option V :=
  match d with
  | [] => None
  | (k', v) :: d' => if String.eqb k k' then Some v else get k d'
  end.

Fixpoint set {V : Type} (k : string) (v : V) (d : dict V) : dict V :=
  match d with
  | [] => [(k, v)]
  | (k', v') :: d' =>
      if String.eqb k k' then (k, v) :: d' else (k', v') :: set k v d'
  end.

Definition keys {V : Type} (d : dict V) : list string := map fst d.

(** [''.join(parts)] *)
Fixpoint join (parts : list string) : string :=
  match parts with
  | [] => EmptyString
  | x :: rest => x ++ join rest
  end.

(** [s.split(sep)] for a one-character separator. *)
Fixpoint split (sep : ascii) (s : string) : list string :=
  match s with
  | EmptyString => [EmptyString]
  | String c s' =>
      if Ascii.eqb c sep then EmptyString :: split sep s'
      else match split sep s' with
           | [] => [String c EmptyString]
           | h :: t => String c h :: t
           end
  end.

(** [s.startswith(p)] *)
Definition startswith (s p : string) : bool := String.prefix p s.

Fixpoint drop (n : nat) (s : string) : string :=
  match n, s with
  | O, _ => s
  | S n', String _ s' => drop n' s'
  | S _, EmptyString => EmptyString
  end.

(** [s.replace(old, '', 1)]: the first occurrence of [old], searched from
    the left, is removed. *)
Fixpoint replace_first (old s : string) : string :=
  if String.prefix old s then drop (String.length old) s
  else match s with
       | EmptyString => EmptyString
       | String c s' => String c (replace_first old s')
       end.

(** [x in xs] for a tuple or list of texts. *)
Definition contains (x : string) (xs : list string) : bool :=
  existsb (String.eqb x) xs.

Definition is_digit (c : ascii) : bool :=
  let n := nat_of_ascii c in ((48 <=? n) && (n <=? 57))%nat.

Definition is_alpha (c : ascii) : bool :=
  let n := nat_of_ascii c in
  (((65 <=? n) && (n <=? 90)) || ((97 <=? n) && (n <=? 122)))%nat.

(** [\w] on ASCII text. *)
Definition is_word (c : ascii) : bool :=
  is_alpha c || is_digit c || Ascii.eqb c "_"%char.

Fixpoint all_chars (p : ascii -> bool) (s : string) : bool :=
  match s with
  | EmptyString => true
  | String c s' => p c && all_chars p s'
  end.

(** [str.isidentifier] on ASCII text. *)
Definition isidentifier (s : string) : bool :=
  match s with
  | EmptyString => false
  | String c s' => (is_alpha c || Ascii.eqb c "_"%char) && all_chars is_word s'
  end.

End Py.

(** ** Values of path parameters *)

(** A [float] is kept as the exact decimal it was written as,
    [mantissa / 10 ^ scale]; Python rounds that number to binary64. *)
Inductive value : Type :=
| VStr (s : string)
| VInt (z : Z)
| VFloat (mantissa : Z) (scale : nat).

(** ** Type registry: [PATTERNS] and [CASTS] *)

Inductive cast_fn : Type := py_str | py_int | py_float.

Definition PATTERNS : Py.dict string :=
  [ ("str", "[^/].+");
    ("word", "\w+");
    ("any", ".+");
    ("int", "[+-]?\d+");
    ("float", "[+-]?\d+\.\d+") ].

Definition CASTS : Py.dict cast_fn :=
  [ ("str", py_str);
    ("word", py_str);
    ("any", py_str);
    ("int", py_int);
    ("float", py_float) ].

(** [d[k]] *)
Definition subscript {V : Type} (d : Py.dict V) (k : string) : outcome V :=
  match Py.get k d with
  | Some v => Return v
  | None => Raise (KeyError k)
  end.

(** *** The cast rules, as builtins *)

Fixpoint digits_value (acc : Z) (s : string) : option Z :=
  match s with
  | EmptyString => Some acc
  | String c s' =>
      if Py.is_digit c
      then digits_value (10 * acc + (Z.of_nat (nat_of_ascii c) - 48))%Z s'
      else None
  end.

(** An optional sign in front of the rest of the text. *)
Definition split_sign (s : string) : bool * string :=
  match s with
  | String "-"%char s' => (true, s')
  | String "+"%char s' => (false, s')
  | _ => (false, s)
  end.

Definition signed (neg : bool) (z : Z) : Z := if neg then (- z)%Z else z.

(** The digits a text starts with. *)
Fixpoint digit_run (s : string) : nat :=
  match s with
  | EmptyString => 0
  | String c s' => if Py.is_digit c then S (digit_run s') else 0
  end.

(** [sys.get_int_max_str_digits()] as the interpreter starts with it
    (CPython 3.11 and later): [int] refuses a text with more digits. *)
Definition int_max_str_digits : nat := 4300.

Definition int_limit_message : string :=
  "Exceeds the limit (4300 digits) for integer string conversion".

(** [int(text)] on a signed run of decimal digits; other text is refused
    (surrounding blanks and digit-grouping underscores, which [int] also
    accepts, are left out).  The digits are counted before they are
    converted, and a run past the limit is refused. *)
Definition int_of_text (s : string) : outcome value :=
  let (neg, ds) := split_sign s in
  match ds with
  | EmptyString => Raise (ValueError "invalid literal for int()")
  | _ =>
      if (digit_run ds <=? int_max_str_digits)%nat then
        match digits_value 0 ds with
        | Some z => Return (VInt (signed neg z))
        | None => Raise (ValueError "invalid literal for int()")
        end
      else Raise (ValueError int_limit_message)
  end.

(** [float(text)] on [digits.digits] with an optional sign. *)
Definition float_of_text (s : string) : outcome value :=
  let (neg, ds) := split_sign s in
  match Py.split "." ds with
  | [ip; fp] =>
      match ip, fp with
      | EmptyString, _ | _, EmptyString =>
          Raise (ValueError "could not convert string to float")
      | _, _ =>
          match digits_value 0 (ip ++ fp) with
          | Some z => Return (VFloat (signed neg z) (String.length fp))
          | None => Raise (ValueError "could not convert string to float")
          end
      end
  | _ => Raise (ValueError "could not convert string to float")
  end.

(** A cast applied to one entry of [groupdict()]: the captured text, or
    [None] for a group that took no part in the match. *)
Definition apply_cast (c : cast_fn) (v : option string) : outcome value :=
  match c, v with
  | py_str, Some s => Return (VStr s)
  | py_str, None => Return (VStr "None")
  | py_int, Some s => int_of_text s
  | py_int, None => Raise (TypeError "int() argument must be a string")
  | py_float, Some s => float_of_text s
  | py_float, None => Raise (TypeError "float() argument must be a string")
  end.

(** ** The fragment of Python's [re] the compiled rules live in *)

Module Re.

(** One-character matchers. *)
Inductive charset : Type :=
| Lit (c : ascii)
| Dot
| Word
| Digit
| Class (negated : bool) (members : list ascii).

Definition newline : ascii := "010"%char.

Definition accepts (cs : charset) (c : ascii) : bool :=
  match cs with
  | Lit a => Ascii.eqb c a
  | Dot => negb (Ascii.eqb c newline)
  | Word => Py.is_word c
  | Digit => Py.is_digit c
  | Class neg ms => xorb neg (existsb (Ascii.eqb c) ms)
  end.

Inductive quant : Type := One | Plus | Star | Opt.

#[warnings="-register-all"]
Inductive node : Type :=
| Chars (cs : charset) (q : quant)
| Bol
| Eol
| Group (name : string) (body : list node).

Definition regex : Type := list node.

(** *** [re.compile] *)

Inductive compiled : Type :=
| Compiled (r : regex)
| Invalid (msg : string)
| Unsupported.

(** Where the scanner is: in plain text, after a backslash, inside the
    opening [(?P<name>] of a group, or inside a [[...]] set. *)
Inductive mode : Type :=
| Normal
| Escape
| Open1
| Open2
| Open3
| Name (acc : string)
| SetStart
| SetFirst (neg : bool)
| SetBody (neg : bool) (members : list ascii).

(** Applying a repetition to the item just read (items are kept most
    recent first). *)
Definition quantify (q : quant) (cur : list node) : compiled :=
  match cur with
  | Chars cs One :: cur' => Compiled (Chars cs q :: cur')
  | Chars _ _ :: _ => Unsupported
  | Group _ _ :: _ => Unsupported
  | Bol :: _ | Eol :: _ | [] => Invalid "nothing to repeat"
  end.

Definition is_alnum (c : ascii) : bool := Py.is_alpha c || Py.is_digit c.

Definition is_ascii_text (s : string) : bool :=
  Py.all_chars (fun c => (nat_of_ascii c <? 128)%nat) s.

(** [stack]: for every group still open, its name and the items read
    before it in the sequence around it; [cur]: the items of the innermost
    open sequence; [names]: the group names seen so far. *)
Fixpoint parse (s : string) (md : mode) (stack : list (string * list node))
         (cur : list node) (names : list string) {struct s} : compiled :=
  match s with
  | EmptyString =>
      match md with
      | Normal =>
          match stack with
          | [] => Compiled (rev cur)
          | _ :: _ => Invalid "missing ), unterminated subpattern"
          end
      | Escape => Invalid "bad escape (end of pattern)"
      | Open1 => Invalid "missing ), unterminated subpattern"
      | Open2 | Open3 => Invalid "unexpected end of pattern"
      | Name _ => Invalid "missing >, unterminated name"
      | SetStart | SetFirst _ | SetBody _ _ => Invalid "unterminated character set"
      end
  | String c rest =>
      match md with
      | Normal =>
          match c with
          | "\"%char => parse rest Escape stack cur names
          | "["%char => parse rest SetStart stack cur names
          | "("%char => parse rest Open1 stack cur names
          | ")"%char =>
              match stack with
              | [] => Invalid "unbalanced parenthesis"
              | (name, outer) :: stack' =>
                  parse rest Normal stack' (Group name (rev cur) :: outer) names
              end
          | "."%char => parse rest Normal stack (Chars Dot One :: cur) names
          | "^"%char => parse rest Normal stack (Bol :: cur) names
          | "$"%char => parse rest Normal stack (Eol :: cur) names
          | "+"%char =>
              match quantify Plus cur with
              | Compiled cur' => parse rest Normal stack cur' names
              | other => other
              end
          | "*"%char =>
              match quantify Star cur with
              | Compiled cur' => parse rest Normal stack cur' names
              | other => other
              end
          | "?"%char =>
              match quantify Opt cur with
              | Compiled cur' => parse rest Normal stack cur' names
              | other => other
              end
          | "|"%char | "{"%char => Unsupported
          | _ => parse rest Normal stack (Chars (Lit c) One :: cur) names
          end
      | Escape =>
          match c with
          | "w"%char => parse rest Normal stack (Chars Word One :: cur) names
          | "d"%char => parse rest Normal stack (Chars Digit One :: cur) names
          | _ =>
              if is_alnum c || negb (nat_of_ascii c <? 128)%nat then Unsupported
              else parse rest Normal stack (Chars (Lit c) One :: cur) names
          end
      | Open1 =>
          match c with
          | "?"%char => parse rest Open2 stack cur names
          | _ => Unsupported
          end
      | Open2 =>
          match c with
          | "P"%char => parse rest Open3 stack cur names
          | _ => Unsupported
          end
      | Open3 =>
          match c with
          | "<"%char => parse rest (Name EmptyString) stack cur names
          | _ => Unsupported
          end
      | Name acc =>
          match c with
          | ">"%char =>
              if negb (is_ascii_text acc) then Unsupported
              else match acc with
                   | EmptyString => Invalid "missing group name"
                   | _ =>
                       if negb (Py.isidentifier acc)
                       then Invalid "bad character in group name"
                       else if Py.contains acc names
                       then Invalid "redefinition of group name"
                       else parse rest Normal ((acc, cur) :: stack) []
                                  (names ++ [acc])%list
                   end
          | _ => parse rest (Name (acc ++ String c EmptyString)) stack cur names
          end
      | SetStart =>
          match c with
          | "^"%char => parse rest (SetFirst true) stack cur names
          | "]"%char | "\"%char | "["%char => Unsupported
          | _ => parse rest (SetBody false [c]) stack cur names
          end
      | SetFirst neg =>
          match c with
          | "]"%char | "\"%char | "["%char => Unsupported
          | _ => parse rest (SetBody neg [c]) stack cur names
          end
      | SetBody neg ms =>
          match c with
          | "]"%char =>
              parse rest Normal stack (Chars (Class neg ms) One :: cur) names
          | "\"%char | "["%char => Unsupported
          | "-"%char =>
              match rest with
              | String "]"%char _ =>
                  parse rest (SetBody neg (ms ++ [c])%list) stack cur names
              | EmptyString => Invalid "unterminated character set"
              | _ => Unsupported
              end
          | _ => parse rest (SetBody neg (ms ++ [c])%list) stack cur names
          end
      end
  end.

Definition compile (pattern : string) : compiled :=
  parse pattern Normal [] [] [].

(** *** Matching *)

(** The text captured by each named group that has closed. *)
Definition captures : Type := Py.dict string.

(** A continuation gets the position reached, the text left and the
    captures made so far. *)
Definition cont : Type := nat -> string -> captures -> option captures.

(** Greedy repetition of a one-character matcher: the longest run first,
    then shorter ones. *)
Fixpoint star (cs : charset) (pos : nat) (s : string) (g : captures) (k : cont)
         {struct s} : option captures :=
  match s with
  | String c s' =>
      if accepts cs c then
        match star cs (S pos) s' g k with
        | Some r => Some r
        | None => k pos s g
        end
      else k pos s g
  | EmptyString => k pos s g
  end.

Definition m_chars (cs : charset) (q : quant) (pos : nat) (s : string)
           (g : captures) (k : cont) : option captures :=
  match q with
  | One =>
      match s with
      | String c s' => if accepts cs c then k (S pos) s' g else None
      | EmptyString => None
      end
  | Plus =>
      match s with
      | String c s' => if accepts cs c then star cs (S pos) s' g k else None
      | EmptyString => None
      end
  | Star => star cs pos s g k
  | Opt =>
      match s with
      | String c s' =>
          if accepts cs c then
            match k (S pos) s' g with
            | Some r => Some r
            | None => k pos s g
            end
          else k pos s g
      | EmptyString => k pos s g
      end
  end.

(** [$] holds at the end of the text and just before a final newline. *)
Definition at_end (s : string) : bool :=
  match s with
  | EmptyString => true
  | String c EmptyString => Ascii.eqb c newline
  | _ => false
  end.

Section Sequence.
Variable m_one : node -> nat -> string -> captures -> cont -> option captures.

Fixpoint seq_with (ns : list node) (pos : nat) (s : string) (g : captures)
         (k : cont) {struct ns} : option captures :=
  match ns with
  | [] => k pos s g
  | n :: ns' => m_one n pos s g (fun p t h => seq_with ns' p t h k)
  end.
End Sequence.

Fixpoint m_node (n : node) (pos : nat) (s : string) (g : captures) (k : cont)
         {struct n} : option captures :=
  match n with
  | Chars cs q => m_chars cs q pos s g k
  | Bol => if (pos =? 0)%nat then k pos s g else None
  | Eol => if at_end s then k pos s g else None
  | Group name body =>
      seq_with m_node body pos s g
        (fun p t h => k p t (Py.set name (String.substring 0 (p - pos) s) h))
  end.

Definition m_seq : regex -> nat -> string -> captures -> cont -> option captures :=
  seq_with m_node.

(** The names of the groups, in the order the groups open. *)
Fixpoint names_of (n : node) : list string :=
  match n with
  | Group name body => name :: flat_map names_of body
  | _ => []
  end.

Definition group_names (r : regex) : list string := flat_map names_of r.

(** [pattern.match(text)]: a match object is kept as its captures. *)
Definition match_ (r : regex) (text : string) : option captures :=
  m_seq r 0 text [] (fun _ _ g => Some g).

(** [m.groupdict()] *)
Definition groupdict (r : regex) (g : captures) : Py.dict (option string) :=
  map (fun name => (name, Py.get name g)) (group_names r).

End Re.

(** ** Requests and user code *)

(** [Request]: the fields of the inbound request the program reads, and the
    parameters map [args], absent until a router sets it. *)
Record Request : Type := mkRequest {
  method : string;
  path : string;
  host : string;
  body : string;
  args : option (Py.dict value)
}.

Definition with_args (request : Request) (a : Py.dict value) : Request :=
  {| method := method request; path := path request; host := host request;
     body := body request; args := Some a |}.

(** Handlers, hooks and extensions are code of the application author: they
    run in a world of their own, which they may change, and they return or
    raise. *)
Definition M (World A : Type) : Type := World -> outcome A * World.

Definition ret {World A : Type} (a : A) : M World A := fun w => (Return a, w).

Definition raise {World A : Type} (e : exn) : M World A := fun w => (Raise e, w).

Definition bind {World A B : Type} (c : M World A) (f : A -> M World B) : M World B :=
  fun w =>
    match c w with
    | (Return a, w') => f a w'
    | (Raise e, w') => (Raise e, w')
    end.

Declare Scope m_scope.
Delimit Scope m_scope with m.
Notation "x <- c1 ;; c2" := (bind c1 (fun x => c2))
  (at level 61, c1 at next level, right associativity) : m_scope.

(** ** [class Filter] and the objects handed over as filters *)

Module Filter.
Section Def.
Context {World Response Ctx : Type}.

Definition before_hook : Type := Ctx -> Request -> M World Request.
Definition after_hook : Type := Ctx -> Request -> Response -> M World Response.

(** A Python object, as far as the filter chain looks at it: whether it
    is an instance of [Filter], its two hook attributes if it has them,
    and its text form. *)
Record object : Type := mkObject {
  isinstance_Filter : bool;
  attr_before_request : option before_hook;
  attr_after_request : option after_hook;
  str_of : string
}.

(** [Filter.before_request] *)
Definition before_request : before_hook := fun ctx request => ret request.

(** [Filter.after_request] *)
Definition after_request : after_hook := fun ctx request response => ret response.

(** [Filter()] *)
Definition new : object :=
  {| isinstance_Filter := true;
     attr_before_request := Some before_request;
     attr_after_request := Some after_request;
     str_of := "<m.Filter object>" |}.

(** An instance of a subclass of [Filter] overriding both hooks. *)
Definition subclass (b : before_hook) (a : after_hook) : object :=
  {| isinstance_Filter := true;
     attr_before_request := Some b;
     attr_after_request := Some a;
     str_of := "<Filter subclass object>" |}.

(** [fl.before_request = fn] *)
Definition set_before_request (fl : object) (fn : before_hook) : object :=
  {| isinstance_Filter := isinstance_Filter fl;
     attr_before_request := Some fn;
     attr_after_request := attr_after_request fl;
     str_of := str_of fl |}.

(** [fl.after_request = fn] *)
Definition set_after_request (fl : object) (fn : after_hook) : object :=
  {| isinstance_Filter := isinstance_Filter fl;
     attr_before_request := attr_before_request fl;
     attr_after_request := Some fn;
     str_of := str_of fl |}.

(** [fl.before_request(ctx, request)] *)
Definition call_before (fl : object) (ctx : Ctx) (request : Request)
  : M World Request :=
  match attr_before_request fl with
  | Some hook => hook ctx request
  | None => raise (AttributeError "before_request")
  end.

(** [fl.after_request(ctx, request, response)] *)
Definition call_after (fl : object) (ctx : Ctx) (request : Request)
           (response : Response) : M World Response :=
  match attr_after_request fl with
  | Some hook => hook ctx request response
  | None => raise (AttributeError "after_request")
  end.

Local Open Scope m_scope.

(** [for fl in filters: request = fl.before_request(ctx, request)] *)
Fixpoint before_loop (fls : list object) (ctx : Ctx) (request : Request)
  : M World Request :=
  match fls with
  | [] => ret request
  | fl :: rest =>
      request' <- call_before fl ctx request ;;
      before_loop rest ctx request'
  end.

(** [for fl in fls: response = fl.after_request(ctx, request, response)];
    the callers pass the reversed filter list. *)
Fixpoint after_loop (fls : list object) (ctx : Ctx) (request : Request)
         (response : Response) : M World Response :=
  match fls with
  | [] => ret response
  | fl :: rest =>
      response' <- call_after fl ctx request response ;;
      after_loop rest ctx request response'
  end.
End Def.

Arguments object : clear implicits.
Arguments before_hook : clear implicits.
Arguments after_hook : clear implicits.
End Filter.

(** ** [class Router] *)

Module Router.

(** *** The route-rule compiler *)

Section RuleCompiler.
Local Open Scope outcome_scope.

(** [Router._spec_parse] *)
Definition _spec_parse (src : string) : outcome (string * string * cast_fn) :=
  let tmp := Py.split ":" src in
  if (2 <? List.length tmp)%nat then Raise (Exception "error pattern")
  else
    let name := hd EmptyString tmp in
    let type := if (List.length tmp =? 2)%nat then nth 1 tmp EmptyString else "str" in
    try frag <- subscript PATTERNS type;
    let pattern := "(?P<" ++ name ++ ">" ++ frag ++ ")" in
    try c <- subscript CASTS type;
    Return (name, pattern, c).

(** The loop of [Router._rule_parse]: [pattern] and [spec] are the lists
    under construction, [casts] the dict, [is_spec] the flag. *)
Fixpoint _rule_parse_loop (rule : string) (pattern spec : list string)
         (casts : Py.dict cast_fn) (is_spec : bool)
  : outcome (string * Py.dict cast_fn) :=
  match rule with
  | EmptyString => Return (Py.join pattern ++ "$", casts)
  | String c rest =>
      if Ascii.eqb c "{"%char && negb is_spec then
        _rule_parse_loop rest pattern spec casts true
      else if Ascii.eqb c "}"%char && is_spec then
        try '(name, p, cst) <- _spec_parse (Py.join spec);
        _rule_parse_loop rest (pattern ++ [p])%list [] (Py.set name cst casts) false
      else if is_spec then
        _rule_parse_loop rest pattern (spec ++ [String c EmptyString])%list casts is_spec
      else
        _rule_parse_loop rest (pattern ++ [String c EmptyString])%list spec casts is_spec
  end.

(** [Router._rule_parse] *)
Definition _rule_parse (rule : string) : outcome (string * Py.dict cast_fn) :=
  _rule_parse_loop rule [] [] [] false.

End RuleCompiler.

(** *** Routes and routers *)

Section Def.
Context {World Response Ctx : Type}.

Definition Handler : Type := Ctx -> Request -> M World Response.

(** [Route = namedtuple('Route', ['pattern', 'methods', 'casts', 'handler'])];
    [methods] is a tuple or list of method names, [casts] maps a parameter
    name to its cast. *)
Record Route : Type := mkRoute {
  pattern : Re.regex;
  methods : list string;
  casts : Py.dict cast_fn;
  handler : Handler
}.

Record t : Type := mkRouter {
  routes : list Route;
  domain : option string;
  prefix : string;
  filters : list (Filter.object World Response Ctx)
}.

Definition with_routes (self : t) (rs : list Route) : t :=
  {| routes := rs; domain := domain self; prefix := prefix self;
     filters := filters self |}.

Definition with_filters (self : t) (fls : list (Filter.object World Response Ctx)) : t :=
  {| routes := routes self; domain := domain self; prefix := prefix self;
     filters := fls |}.

(** The loop of [Router.__init__] over the [filters] argument. *)
Fixpoint check_filters (fls acc : list (Filter.object World Response Ctx))
  : outcome (list (Filter.object World Response Ctx)) :=
  match fls with
  | [] => Return acc
  | fl :: rest =>
      if Filter.isinstance_Filter fl then check_filters rest (acc ++ [fl])%list
      else Raise (Exception (Filter.str_of fl ++ " is not a Filter"))
  end.

(** [Router.__init__(prefix='', domain=None, filters=None)] *)
Definition __init__ (prefix : string) (domain : option string)
           (filters : option (list (Filter.object World Response Ctx)))
  : outcome t :=
  let filters := match filters with None => [] | Some fls => fls end in
  match check_filters filters [] with
  | Return fls =>
      Return {| routes := []; domain := domain; prefix := prefix; filters := fls |}
  | Raise e => Raise e
  end.

(** [Router._route] *)
Definition _route (self : t) (rule : string) (methods : list string)
           (handler : Handler) : outcome t :=
  match _rule_parse rule with
  | Raise e => Raise e
  | Return (pattern, casts) =>
      match Re.compile pattern with
      | Re.Compiled r =>
          Return (with_routes self
                    (routes self ++ [mkRoute r methods casts handler])%list)
      | Re.Invalid msg => Raise (re_error msg)
      | Re.Unsupported => Raise PatternOutsideModel
      end
  end.

Definition default_methods : list string :=
  ["GET"; "POST"; "PUT"; "PATCH"; "DELETE"; "OPTION"].

(** [Router.route(rule, methods)(fn)]: the router after the registration,
    and the handler handed back. *)
Definition route (self : t) (rule : string) (methods : option (list string))
           (fn : Handler) : outcome (t * Handler) :=
  let methods := match methods with None => default_methods | Some ms => ms end in
  match _route self rule methods fn with
  | Return self' => Return (self', fn)
  | Raise e => Raise e
  end.

(** [Router._domain_match], as a truth value. *)
Definition _domain_match (self : t) (request : Request) : outcome bool :=
  match domain self with
  | None => Return true
  | Some d =>
      match Re.compile d with
      | Re.Compiled r =>
          Return (match Re.match_ r (host request) with
                  | Some _ => true
                  | None => false
                  end)
      | Re.Invalid msg => Raise (re_error msg)
      | Re.Unsupported => Raise PatternOutsideModel
      end
  end.

(** [Router._prefix_match] *)
Definition _prefix_match (self : t) (request : Request) : bool :=
  Py.startswith (path request) (prefix self).

Local Open Scope m_scope.

(** [Router._apply_filter]: the closure [apply].  It reads the filter list
    when it is called; the router is the same then as when it matched. *)
Definition _apply_filter (self : t) (handler : Handler) : Handler :=
  fun ctx request =>
    request <- Filter.before_loop (filters self) ctx request ;;
    response <- handler ctx request ;;
    Filter.after_loop (rev (filters self)) ctx request response.

(** [for k, v in m.groupdict().items(): request.args[k] = route.casts[k](v)] *)
Fixpoint cast_loop (casts : Py.dict cast_fn) (items : Py.dict (option string))
         (request : Request) (a : Py.dict value) : outcome unit * Request :=
  match items with
  | [] => (Return tt, request)
  | (k, v) :: rest =>
      match subscript casts k with
      | Raise e => (Raise e, request)
      | Return c =>
          match apply_cast c v with
          | Raise e => (Raise e, request)
          | Return x =>
              cast_loop casts rest (with_args request (Py.set k x a)) (Py.set k x a)
          end
      end
  end.

(** The loop of [Router.match] over the routes; the request comes back
    as the loop left it. *)
Fixpoint match_loop (self : t) (rs : list Route) (request : Request)
  : outcome (option Handler) * Request :=
  match rs with
  | [] => (Return None, request)
  | route :: rest =>
      if Py.contains (method request) (methods route) then
        match Re.match_ (pattern route)
                        (Py.replace_first (prefix self) (path request)) with
        | Some m =>
            match cast_loop (casts route) (Re.groupdict (pattern route) m)
                            (with_args request []) [] with
            | (Return _, request') =>
                (Return (Some (_apply_filter self (handler route))), request')
            | (Raise e, request') => (Raise e, request')
            end
        | None => match_loop self rest request
        end
      else match_loop self rest request
  end.

(** [Router.match] *)
Definition match_ (self : t) (request : Request)
  : outcome (option Handler) * Request :=
  match _domain_match self request with
  | Raise e => (Raise e, request)
  | Return false => (Return None, request)
  | Return true =>
      if _prefix_match self request
      then match_loop self (routes self) request
      else (Return None, request)
  end.

(** [Router.add_filter] *)
Definition add_filter (self : t) (filter : Filter.object World Response Ctx) : t :=
  with_filters self (filters self ++ [filter])%list.

(** [Router.before_request] *)
Definition before_request (self : t) (fn : Filter.before_hook World Ctx)
  : t * Filter.before_hook World Ctx :=
  let fl := Filter.set_before_request Filter.new fn in
  (add_filter self fl, fn).

(** [Router.after_request] *)
Definition after_request (self : t) (fn : Filter.after_hook World Response Ctx)
  : t * Filter.after_hook World Response Ctx :=
  let fl := Filter.set_after_request Filter.new fn in
  (add_filter self fl, fn).
End Def.

Arguments t : clear implicits.
Arguments Route : clear implicits.
Arguments Handler : clear implicits.
End Router.

(** ** The extension protocol *)

Module Extension.

(** An object handed to [Application.register_extension]: the name of its
    class, whether it has an [initialize] attribute, and a mark telling
    instances apart.  What [initialize] does is code of the extension's
    author and is kept apart from the object, see [Application.initializer]. *)
Record instance : Type := mkInstance {
  class_name : string;
  has_initialize : bool;
  ident : nat
}.

(** Modelled from the spec: module [m.ext], which defines the class
    [Extension] that [register_extension] tests against, is not among the
    sources.  Section 4.6 of the specification: a component is a valid
    extension exactly when it exposes the operation
    [initialize(application)]. *)
Definition isinstance_Extension (i : instance) : bool := has_initialize i.

End Extension.

(** ** [class Application] *)

Module Application.
Section Def.
Context {World Response Ctx : Type}.

(** [self_] is the handle on the application that handlers and hooks
    receive as their context.  The configuration tree and the
    residual options, which no operation below reads, are left out. *)
Record t : Type := mkApplication {
  self_ : Ctx;
  extensions : Py.dict Extension.instance;
  routers : list (Router.t World Response Ctx);
  filters : list (Filter.object World Response Ctx)
}.

(** [Application.__init__(routers=None)] *)
Definition __init__ (self : Ctx) (routers : option (list (Router.t World Response Ctx)))
  : t :=
  {| self_ := self;
     extensions := [];
     routers := match routers with None => [] | Some rs => rs end;
     filters := [] |}.

(** [Application.add_router] *)
Definition add_router (self : t) (router : Router.t World Response Ctx) : t :=
  {| self_ := self_ self; extensions := extensions self;
     routers := (routers self ++ [router])%list; filters := filters self |}.

Definition with_extensions (self : t) (e : Py.dict Extension.instance) : t :=
  {| self_ := self_ self; extensions := e;
     routers := routers self; filters := filters self |}.

Local Open Scope m_scope.

(** The application object is mutable and [register_extension] hands it to
    [initialize]: the state the registration runs in is the application
    together with the world of the user code. *)
Definition state : Type := (t * World)%type.

(** [instance.initialize(application)], for every instance: it receives the
    live application and may change it (mount routers, add filters,
    register further extensions) as well as the world, and it returns or
    raises. *)
Definition initializer : Type := Extension.instance -> M state unit.

(** [self.extensions[instance.__class__.__name__] = instance] *)
Definition store_extension (instance : Extension.instance) : M state unit :=
  fun st =>
    (Return tt,
     (with_extensions (fst st)
        (Py.set (Extension.class_name instance) instance (extensions (fst st))),
      snd st)).

(** [Application.register_extension], on the application in the state. *)
Definition register_extension (initialize : initializer)
           (instance : Extension.instance) : M state unit :=
  if Extension.isinstance_Extension instance then
    _ <- initialize instance ;;
    store_extension instance
  else ret tt.

(** [Application.add_filter] *)
Definition add_filter (self : t) (filter : Filter.object World Response Ctx) : t :=
  {| self_ := self_ self; extensions := extensions self;
     routers := routers self; filters := (filters self ++ [filter])%list |}.

(** The loop of [Application.__call__] over the routers. *)
Fixpoint call_loop (self : t) (rs : list (Router.t World Response Ctx))
         (request : Request) : M World Response :=
  match rs with
  | [] => raise (HTTPNotFound "no handler match")
  | router :: rest =>
      match Router.match_ router request with
      | (Raise e, _) => raise e
      | (Return (Some handler), request) =>
          request <- Filter.before_loop (filters self) (self_ self) request ;;
          res <- handler (self_ self) request ;;
          Filter.after_loop (rev (filters self)) (self_ self) request res
      | (Return None, request) => call_loop self rest request
      end
  end.

(** [Application.__call__], the function under the [wsgify] decorator. *)
Definition __call__ (self : t) (request : Request) : M World Response :=
  call_loop self (routers self) request.

(** The [wsgify] boundary around [__call__]: an HTTP exception raised by
    the function becomes the response; [as_response] is the toolkit's
    rendering of such an exception. *)
Definition wsgify (as_response : exn -> Response)
           (fn : Request -> M World Response) : Request -> M World Response :=
  fun request w =>
    match fn request w with
    | (Raise e, w') =>
        match http_status e with
        | Some _ => (Return (as_response e), w')
        | None => (Raise e, w')
        end
    | (Return r, w') => (Return r, w')
    end.
End Def.

Arguments t : clear implicits.
Arguments state : clear implicits.
Arguments initializer : clear implicits.
End Application.

(** * Properties *)

(** ** Vocabulary of the statements *)

(** The router holding one route of [self] only: what [self] would answer if
    that route were the only one registered. *)
Definition alone {World Response Ctx : Type} (self : Router.t World Response Ctx)
           (route : Router.Route World Response Ctx) : Router.t World Response Ctx :=
  Router.with_routes self [route].

(** Running a handler inside the application-level filter chain, as
    [Application.__call__] does once a router has matched. *)
Definition served {World Response Ctx : Type} (app : Application.t World Response Ctx)
           (handler : Router.Handler World Response Ctx) (request : Request)
  : M World Response :=
  (request <- Filter.before_loop (Application.filters app) (Application.self_ app) request ;;
   res <- handler (Application.self_ app) request ;;
   Filter.after_loop (rev (Application.filters app)) (Application.self_ app) request res)%m.

(** Route rules by their parts: literal text, and brace-delimited
    parameter specifications. *)
Inductive segment : Type :=
| Text (s : string)
| Param (spec : string).

Definition render_segment (seg : segment) : string :=
  match seg with
  | Text s => s
  | Param spec => "{" ++ spec ++ "}"
  end.

Fixpoint render (segs : list segment) : string :=
  match segs with
  | [] => EmptyString
  | seg :: rest => render_segment seg ++ render rest
  end.

Fixpoint count_char (c : ascii) (s : string) : nat :=
  match s with
  | EmptyString => 0
  | String c' s' => (if Ascii.eqb c' c then 1 else 0) + count_char c s'
  end.

(** Text holds no opening brace; a specification ends at the first closing
    brace. *)
Definition well_delimited (seg : segment) : bool :=
  match seg with
  | Text s => (count_char "{" s =? 0)%nat
  | Param spec => (count_char "}" spec =? 0)%nat
  end.

(** The text in front of the first type separator, and the text behind it. *)
Fixpoint before_sep (s : string) : string :=
  match s with
  | EmptyString => EmptyString
  | String c s' => if Ascii.eqb c ":" then EmptyString else String c (before_sep s')
  end.

Fixpoint after_sep (s : string) : option string :=
  match s with
  | EmptyString => None
  | String c s' => if Ascii.eqb c ":" then Some s' else after_sep s'
  end.

Definition name_of (spec : string) : string := before_sep spec.

Definition tag_of (spec : string) : string :=
  match after_sep spec with
  | Some t => t
  | None => "str"
  end.

Definition type_tags : list string := ["str"; "word"; "any"; "int"; "float"].

Definition known_tag (t : string) : bool := Py.contains t type_tags.

(** A specification with at most one separator and a tag of the registry. *)
Definition spec_ok (spec : string) : bool :=
  (count_char ":" spec <=? 1)%nat && known_tag (tag_of spec).

Definition segment_ok (seg : segment) : bool :=
  well_delimited seg &&
  match seg with
  | Text _ => true
  | Param spec => spec_ok spec
  end.

(** What a rule of well-formed parts compiles to: the pattern text, piece
    by piece, and the cast table. *)
Definition fragment_of (seg : segment) : string :=
  match seg with
  | Text s => s
  | Param spec =>
      match Py.get (tag_of spec) PATTERNS with
      | Some frag => "(?P<" ++ name_of spec ++ ">" ++ frag ++ ")"
      | None => EmptyString
      end
  end.

Fixpoint pattern_of (segs : list segment) : string :=
  match segs with
  | [] => EmptyString
  | seg :: rest => fragment_of seg ++ pattern_of rest
  end.

Fixpoint casts_onto (casts : Py.dict cast_fn) (segs : list segment) : Py.dict cast_fn :=
  match segs with
  | [] => casts
  | Text _ :: rest => casts_onto casts rest
  | Param spec :: rest =>
      casts_onto (match Py.get (tag_of spec) CASTS with
                  | Some c => Py.set (name_of spec) c casts
                  | None => casts
                  end) rest
  end.

(** A text as the list of its characters. *)
Fixpoint chars (s : string) : list string :=
  match s with
  | EmptyString => []
  | String c s' => String c EmptyString :: chars s'
  end.

(** Text that [re] reads as itself: no character with a meaning of its own
    in a pattern or in a rule. *)
Definition meta_chars : list ascii :=
  ["\"; "["; "("; ")"; "."; "^"; "$"; "+"; "*"; "?"; "|"; "{"; "}"]%char.

Definition plain_char (c : ascii) : bool := negb (existsb (Ascii.eqb c) meta_chars).

Definition plain (s : string) : bool := Py.all_chars plain_char s.

(** A rule part the model follows through [re.compile]: plain text, or a
    specification with an identifier for a name and a tag of the registry. *)
Definition clean (seg : segment) : bool :=
  match seg with
  | Text s => plain s
  | Param spec =>
      spec_ok spec && Py.isidentifier (name_of spec) && (count_char "}" spec =? 0)%nat
  end.

Definition param_names (segs : list segment) : list string :=
  flat_map (fun seg => match seg with Param spec => [name_of spec] | Text _ => [] end) segs.

(** The compiled form of the parts. *)
Fixpoint literals (s : string) : list Re.node :=
  match s with
  | EmptyString => []
  | String c s' => Re.Chars (Re.Lit c) Re.One :: literals s'
  end.

Definition body_of (frag : string) : Re.regex :=
  match Re.compile frag with
  | Re.Compiled r => r
  | _ => []
  end.

Definition nodes_of_segment (seg : segment) : list Re.node :=
  match seg with
  | Text s => literals s
  | Param spec =>
      match Py.get (tag_of spec) PATTERNS with
      | Some frag => [Re.Group (name_of spec) (body_of frag)]
      | None => []
      end
  end.

Definition nodes_of (segs : list segment) : list Re.node :=
  flat_map nodes_of_segment segs.

(** What a pattern matches, said without the matcher: [node_matches n t g g']
    holds when the node [n] can match the text [t], turning the captures [g]
    into [g']. *)
Module Lang.

Definition chars_match (cs : Re.charset) (q : Re.quant) (t : string) : Prop :=
  match q with
  | Re.One => exists c, t = String c EmptyString /\ Re.accepts cs c = true
  | Re.Plus => t <> EmptyString /\ Py.all_chars (Re.accepts cs) t = true
  | Re.Star => Py.all_chars (Re.accepts cs) t = true
  | Re.Opt => t = EmptyString \/ exists c, t = String c EmptyString /\ Re.accepts cs c = true
  end.

Section Sequence.
Variable one : Re.node -> string -> Re.captures -> Re.captures -> Prop.

Fixpoint seq_with (ns : list Re.node) (t : string) (g g' : Re.captures) : Prop :=
  match ns with
  | [] => t = EmptyString /\ g' = g
  | n :: ns' =>
      exists t1 t2 g1,
        t = t1 ++ t2 /\ one n t1 g g1 /\ seq_with ns' t2 g1 g'
  end.
End Sequence.

Fixpoint node_matches (n : Re.node) (t : string) (g g' : Re.captures) : Prop :=
  match n with
  | Re.Chars cs q => chars_match cs q t /\ g' = g
  | Re.Bol | Re.Eol => t = EmptyString /\ g' = g
  | Re.Group name body =>
      exists g1, seq_with node_matches body t g g1 /\ g' = Py.set name t g1
  end.

Definition seq_matches : Re.regex -> string -> Re.captures -> Re.captures -> Prop :=
  seq_with node_matches.

End Lang.

(** The matcher is sound on a node when every match it finds is one the
    node describes. *)
Definition sound (n : Re.node) : Prop :=
  forall pos s g k res,
    Re.m_node n pos s g k = Some res ->
    exists t s' g',
      s = t ++ s' /\ Lang.node_matches n t g g' /\
      k (pos + String.length t) s' g' = Some res.

(** The filter chain in the words of the specification.  [hooks] are the
    two operations of a filter; [befores] runs the [before_request] hooks
    first registered first, [afters] runs the [after_request] hooks last
    registered first, and [chain] puts the handler between them. *)
Section ChainVocabulary.
Context {World Response Ctx : Type}.
Local Open Scope m_scope.

Definition hooks : Type :=
  (Filter.before_hook World Ctx * Filter.after_hook World Response Ctx)%type.

Definition as_filter (f : hooks) : Filter.object World Response Ctx :=
  Filter.subclass (fst f) (snd f).

Fixpoint befores (fs : list hooks) (ctx : Ctx) (request : Request) : M World Request :=
  match fs with
  | [] => ret request
  | f :: later =>
      request' <- fst f ctx request ;;
      befores later ctx request'
  end.

Fixpoint afters (fs : list hooks) (ctx : Ctx) (request : Request)
         (response : Response) : M World Response :=
  match fs with
  | [] => ret response
  | f :: later =>
      response' <- afters later ctx request response ;;
      snd f ctx request response'
  end.

Definition chain (fs : list hooks) (H : Router.Handler World Response Ctx)
  : Router.Handler World Response Ctx :=
  fun ctx request =>
    request' <- befores fs ctx request ;;
    response <- H ctx request' ;;
    afters fs ctx request' response.

(** The router after [add_filter] has been called with each object in turn. *)
Definition add_filters (self : Router.t World Response Ctx)
           (objs : list (Filter.object World Response Ctx)) : Router.t World Response Ctx :=
  fold_left Router.add_filter objs self.
End ChainVocabulary.

Arguments hooks : clear implicits.

(** Two filters and a handler that write their names into the world, a log. *)
Definition logging (name : string) : hooks (list string) string unit :=
  (fun _ request w => (Return request, (w ++ [(name ++ ".before")%string])%list),
   fun _ _ response w => (Return response, (w ++ [(name ++ ".after")%string])%list)).

Definition logging_handler : Router.Handler (list string) string unit :=
  fun _ request w => (Return (path request), (w ++ ["H"])%list).

Definition empty_router {World Response Ctx : Type} : Router.t World Response Ctx :=
  Router.mkRouter [] None "" [].

(** Concrete routers, requests and extensions for the examples: handlers
    answer with a text, the world is a log or a counter. *)
Definition register {World Response Ctx : Type} (self : Router.t World Response Ctx)
           (rule : string) (h : Router.Handler World Response Ctx)
  : Router.t World Response Ctx :=
  match Router.route self rule None h with
  | Return (self', _) => self'
  | Raise _ => self
  end.

Definition answering (text : string) : Router.Handler (list string) string unit :=
  fun _ _ w => (Return text, (w ++ [text])%list).

Definition get_request (p : string) : Request :=
  mkRequest "GET" p "example.com" EmptyString None.

Definition items_router : Router.t (list string) string unit :=
  register (register (register empty_router "/about" (answering "about"))
                     "/items/{name}" (answering "first"))
           "/items/{rest:any}" (answering "second").

Definition about_router : Router.t (list string) string unit :=
  register empty_router "/about" (answering "about").

Definition not_a_filter : Filter.object (list string) string unit :=
  Filter.mkObject false None None "<object>".

Definition counting_extension : Extension.instance :=
  Extension.mkInstance "Counter" true 1.

Definition bare_object : Extension.instance :=
  Extension.mkInstance "object" false 2.

(** An [initialize] that counts its runs in the world and mounts a router on
    the application it is given. *)
Definition mounting_initialize : Application.initializer nat string unit :=
  fun _ st => (Return tt, (Application.add_router (fst st) empty_router, S (snd st))).

(** ** Further vocabulary: rules, routes and requests *)

(** A router mounted under [/api], answering for hosts that start with
    [example]. *)
Definition api_router : Router.t (list string) string unit :=
  register (Router.mkRouter [] (Some "example") "/api" []) "/users" (answering "users").

Definition request_for (hostname p : string) : Request :=
  mkRequest "GET" p hostname EmptyString None.

(** A rule part whose captured value stays text: literal text, or a
    parameter whose cast is [str]. *)
Definition textual (seg : segment) : bool :=
  match seg with
  | Text _ => true
  | Param spec =>
      match Py.get (tag_of spec) CASTS with
      | Some py_str => true
      | _ => false
      end
  end.

Definition text_of (v : option value) : string :=
  match v with
  | Some (VStr s) => s
  | _ => EmptyString
  end.

(** The rule with every parameter replaced by its value in a parameters
    map, and by its capture. *)
Fixpoint fill (a : Py.dict value) (segs : list segment) : string :=
  match segs with
  | [] => EmptyString
  | Text s :: rest => s ++ fill a rest
  | Param spec :: rest => text_of (Py.get (name_of spec) a) ++ fill a rest
  end.

Definition capture_of (v : option string) : string :=
  match v with
  | Some s => s
  | None => EmptyString
  end.

Fixpoint fill_captures (g : Re.captures) (segs : list segment) : string :=
  match segs with
  | [] => EmptyString
  | Text s :: rest => s ++ fill_captures g rest
  | Param spec :: rest => capture_of (Py.get (name_of spec) g) ++ fill_captures g rest
  end.

(** The text of one newline. *)
Definition newline_text : string := String Re.newline EmptyString.

(** A route as registration makes it from a rule of clean parts with
    distinct parameter names. *)
Definition from_clean_rule {World Response Ctx : Type}
           (route : Router.Route World Response Ctx) : Prop :=
  exists segs,
    Forall (fun seg => clean seg = true) segs /\
    NoDup (param_names segs) /\
    Router.pattern route = (nodes_of segs ++ [Re.Eol])%list /\
    Router.casts route = casts_onto [] segs.

(** Handlers and hooks for the examples on a counter: a hook adds to the
    counter, a handler answers or fails. *)
Definition failing_handler : Router.Handler (list string) string unit :=
  fun _ _ w => (Raise (UserError "boom"), (w ++ ["H"])%list).

Definition no_hooks : Filter.object (list string) string unit :=
  Filter.mkObject false None None "<object>".

Definition named_extension (class : string) (mark : nat) : Extension.instance :=
  Extension.mkInstance class true mark.

(** ** Text *)

Lemma append_assoc (a b c : string) : (a ++ b) ++ c = a ++ (b ++ c).
Proof. induction a as [|x a IH]; simpl; auto. now rewrite IH. Qed.

Lemma append_nil_r (a : string) : a ++ "" = a.
Proof. induction a as [|x a IH]; simpl; auto. now rewrite IH. Qed.

Lemma length_append (a b : string) :
  String.length (a ++ b) = String.length a + String.length b.
Proof. induction a as [|x a IH]; simpl; auto. Qed.

Lemma join_app (l1 l2 : list string) :
  Py.join (l1 ++ l2)%list = Py.join l1 ++ Py.join l2.
Proof.
  induction l1 as [|x l1 IH]; simpl; auto.
  now rewrite IH, append_assoc.
Qed.

Lemma join_chars (s : string) : Py.join (chars s) = s.
Proof. induction s as [|c s IH]; simpl; auto. now rewrite IH. Qed.

(** ** Dicts *)

Lemma get_set_same {V : Type} k (v : V) d : Py.get k (Py.set k v d) = Some v.
Proof.
  induction d as [|[k' v'] d IH]; simpl.
  - now rewrite String.eqb_refl.
  - destruct (String.eqb k k') eqn:E; simpl; rewrite ?String.eqb_refl, ?E; auto.
Qed.

Lemma get_set_other {V : Type} k k' (v : V) d :
  k' <> k -> Py.get k' (Py.set k v d) = Py.get k' d.
Proof.
  intros Hne. induction d as [|[k0 v0] d IH]; simpl.
  - destruct (String.eqb_spec k' k); congruence.
  - destruct (String.eqb_spec k k0); simpl.
    + subst. destruct (String.eqb_spec k' k0); congruence.
    + now rewrite IH.
Qed.

Lemma keys_set_present {V : Type} k (v v0 : V) d :
  Py.get k d = Some v0 -> Py.keys (Py.set k v d) = Py.keys d.
Proof.
  induction d as [|[k' v'] d IH]; simpl; try discriminate.
  destruct (String.eqb_spec k k'); simpl.
  - now subst.
  - intros H. now rewrite IH.
Qed.

Lemma keys_set_absent {V : Type} k (v : V) d :
  Py.get k d = None -> Py.keys (Py.set k v d) = (Py.keys d ++ [k])%list.
Proof.
  induction d as [|[k' v'] d IH]; simpl; auto.
  destruct (String.eqb_spec k k'); simpl; try discriminate.
  intros H. now rewrite IH.
Qed.

(** ** [Router.match] leaves the request alone unless a route matches *)

Section MatchFrame.
Context {World Response Ctx : Type}.
Implicit Types (self : Router.t World Response Ctx) (request : Request).

Lemma match_loop_absent self rs request request' :
  Router.match_loop self rs request = (Return None, request') ->
  request' = request.
Proof.
  induction rs as [|route rest IH]; simpl; intros H.
  - now inversion H.
  - destruct (Py.contains (method request) (Router.methods route)); auto.
    destruct (Re.match_ _ _); auto.
    destruct (Router.cast_loop _ _ _ _) as [[u|e] rq]; discriminate.
Qed.

Lemma match_absent self request request' :
  Router.match_ self request = (Return None, request') -> request' = request.
Proof.
  unfold Router.match_.
  destruct (Router._domain_match self request) as [[|]|e]; intros H.
  - destruct (Router._prefix_match self request).
    + eapply match_loop_absent; eassumption.
    + now inversion H.
  - now inversion H.
  - discriminate.
Qed.

Lemma match_fst_absent self request :
  fst (Router.match_ self request) = Return None ->
  Router.match_ self request = (Return None, request).
Proof.
  destruct (Router.match_ self request) as [o rq] eqn:E; simpl; intros ->.
  now rewrite (match_absent _ _ E).
Qed.

Lemma match_loop_changed self rs request o request' :
  Router.match_loop self rs request = (o, request') ->
  request' <> request ->
  exists route,
    In route rs /\
    Py.contains (method request) (Router.methods route) = true /\
    Re.match_ (Router.pattern route)
              (Py.replace_first (Router.prefix self) (path request)) <> None.
Proof.
  induction rs as [|route rest IH]; simpl; intros H Hne.
  - inversion H; subst; contradiction.
  - destruct (Py.contains (method request) (Router.methods route)) eqn:Hm.
    + destruct (Re.match_ _ _) eqn:Hp.
      * exists route; repeat split; auto. now rewrite Hp.
      * destruct (IH H Hne) as (r & Hin & ?); exists r; auto.
    + destruct (IH H Hne) as (r & Hin & ?); exists r; auto.
Qed.

(** C9: when [Router.match] returns the absent result the request is the one
    it was given; and whenever the request comes back changed, the domain
    and prefix tests passed and some route's method set and compiled
    pattern both matched. *)
Theorem match_absent_leaves_request self request o request' :
  Router.match_ self request = (o, request') ->
  (o = Return None -> request' = request) /\
  (request' <> request ->
   Router._domain_match self request = Return true /\
   Router._prefix_match self request = true /\
   exists route,
     In route (Router.routes self) /\
     Py.contains (method request) (Router.methods route) = true /\
     Re.match_ (Router.pattern route)
               (Py.replace_first (Router.prefix self) (path request)) <> None).
Proof.
  intros H; split.
  - intros ->. eapply match_absent; eassumption.
  - revert H. unfold Router.match_.
    destruct (Router._domain_match self request) as [[|]|e]; intros H Hne;
      try (inversion H; subst; contradiction).
    destruct (Router._prefix_match self request);
      try (inversion H; subst; contradiction).
    repeat split; auto. eapply match_loop_changed; eassumption.
Qed.
End MatchFrame.

(** ** First match wins *)

Section FirstMatch.
Context {World Response Ctx : Type}.
Implicit Types (self : Router.t World Response Ctx) (request : Request).
Implicit Types (app : Application.t World Response Ctx).

Lemma match_loop_skip self rs1 rs2 request :
  Forall (fun r => Router.match_loop self [r] request = (Return None, request)) rs1 ->
  Router.match_loop self (rs1 ++ rs2)%list request =
  Router.match_loop self rs2 request.
Proof.
  induction 1 as [|r rs1 Hr _ IH]; simpl; auto.
  simpl in Hr.
  destruct (Py.contains (method request) (Router.methods r)); auto.
  destruct (Re.match_ _ _); auto.
  destruct (Router.cast_loop _ _ _ _) as [[u|e] rq]; discriminate.
Qed.

Lemma match_loop_first self route rs2 request h request' :
  Router.match_loop self [route] request = (Return (Some h), request') ->
  Router.match_loop self (route :: rs2) request = (Return (Some h), request') /\
  h = Router._apply_filter self (Router.handler route).
Proof.
  simpl.
  destruct (Py.contains (method request) (Router.methods route)); try discriminate.
  destruct (Re.match_ _ _); try discriminate.
  destruct (Router.cast_loop _ _ _ _) as [[u|e] rq]; try discriminate.
  intros H; inversion H; subst; auto.
Qed.

Lemma match_loop_with_routes self rs0 rs request :
  Router.match_loop (Router.with_routes self rs0) rs request =
  Router.match_loop self rs request.
Proof.
  induction rs as [|route rest IH]; simpl; auto.
  now rewrite IH.
Qed.

Lemma match_with_routes self rs request :
  Router._domain_match self request = Return true ->
  Router._prefix_match self request = true ->
  Router.match_ (Router.with_routes self rs) request =
  Router.match_loop self rs request.
Proof.
  intros Hd Hp. unfold Router.match_.
  change (Router._domain_match (Router.with_routes self rs) request)
    with (Router._domain_match self request).
  change (Router._prefix_match (Router.with_routes self rs) request)
    with (Router._prefix_match self request).
  rewrite Hd, Hp. simpl. apply match_loop_with_routes.
Qed.

Lemma alone_tests self route request h request' :
  Router.match_ (alone self route) request = (Return (Some h), request') ->
  Router._domain_match self request = Return true /\
  Router._prefix_match self request = true.
Proof.
  unfold alone, Router.match_.
  change (Router._domain_match (Router.with_routes self [route]) request)
    with (Router._domain_match self request).
  change (Router._prefix_match (Router.with_routes self [route]) request)
    with (Router._prefix_match self request).
  destruct (Router._domain_match self request) as [[|]|e]; try discriminate.
  destruct (Router._prefix_match self request); try discriminate.
  auto.
Qed.

Lemma alone_absent self route request :
  Router._domain_match self request = Return true ->
  Router._prefix_match self request = true ->
  fst (Router.match_ (alone self route) request) = Return None ->
  Router.match_loop self [route] request = (Return None, request).
Proof.
  intros Hd Hp H. apply match_fst_absent in H.
  unfold alone in H. now rewrite (match_with_routes _ _ _ Hd Hp) in H.
Qed.

Lemma call_loop_skip app rs1 rs2 request :
  Forall (fun r => fst (Router.match_ r request) = Return None) rs1 ->
  Application.call_loop app (rs1 ++ rs2)%list request =
  Application.call_loop app rs2 request.
Proof.
  induction 1 as [|r rs1 Hr _ IH]; simpl; auto.
  now rewrite (match_fst_absent _ _ Hr).
Qed.

(** C5: a router answers with the handler of the earliest registered route
    that matches, whatever is registered after it; and the application
    passes over the routers that yield no handler and dispatches to the
    first one that yields one. *)
Theorem first_match_wins :
  (forall self rs1 route rs2 request h request',
      Forall (fun r => fst (Router.match_ (alone self r) request) = Return None) rs1 ->
      Router.match_ (alone self route) request = (Return (Some h), request') ->
      Router.match_ (Router.with_routes self (rs1 ++ route :: rs2)%list) request
      = (Return (Some h), request') /\
      h = Router._apply_filter self (Router.handler route)) /\
  (forall app A B C request h request',
      Application.routers app = (A ++ B :: C)%list ->
      Forall (fun r => fst (Router.match_ r request) = Return None) A ->
      Router.match_ B request = (Return (Some h), request') ->
      Application.__call__ app request = served app h request').
Proof.
  split.
  - intros self rs1 route rs2 request h request' Hrs1 Hroute.
    destruct (alone_tests _ _ _ Hroute) as [Hd Hp].
    unfold alone in Hroute. rewrite (match_with_routes _ _ _ Hd Hp) in Hroute.
    rewrite (match_with_routes _ _ _ Hd Hp).
    rewrite match_loop_skip.
    + now apply match_loop_first.
    + eapply Forall_impl; [|exact Hrs1].
      intros r Hr. now apply alone_absent.
  - intros app A B C request h request' Happ HA HB.
    unfold Application.__call__. rewrite Happ, call_loop_skip by assumption.
    simpl. now rewrite HB.
Qed.

(** C8: when no router yields a handler the invocation raises
    [HTTPNotFound] with the detail [no handler match], in the world it was
    started in; the [wsgify] boundary answers with that exception, whose
    status is 404. *)
Theorem unmatched_request_not_found app request (w : World)
        (as_response : exn -> Response) :
  Forall (fun r => fst (Router.match_ r request) = Return None)
         (Application.routers app) ->
  Application.__call__ app request w = (Raise (HTTPNotFound "no handler match"), w) /\
  http_status (HTTPNotFound "no handler match") = Some 404 /\
  Application.wsgify as_response (Application.__call__ app) request w
  = (Return (as_response (HTTPNotFound "no handler match")), w).
Proof.
  intros H.
  assert (E : Application.__call__ app request w
              = (Raise (HTTPNotFound "no handler match"), w)).
  { unfold Application.__call__.
    rewrite <- (app_nil_r (Application.routers app)).
    now rewrite call_loop_skip. }
  repeat split; auto.
  unfold Application.wsgify. now rewrite E.
Qed.
End FirstMatch.

(** ** The filter chain *)

Section FilterChain.
Context {World Response Ctx : Type}.
Implicit Types (self : Router.t World Response Ctx).
Implicit Types (fs : list (hooks World Response Ctx)).
Local Open Scope m_scope.

Lemma bind_ext {A B : Type} (c : M World A) (f g : A -> M World B) w :
  (forall a w', f a w' = g a w') -> bind c f w = bind c g w.
Proof.
  intros H. unfold bind. destruct (c w) as [[a|e] w']; auto.
Qed.

Lemma bind_assoc {A B C : Type} (c : M World A) (f : A -> M World B)
      (g : B -> M World C) w :
  bind (bind c f) g w = bind c (fun a => bind (f a) g) w.
Proof.
  unfold bind. destruct (c w) as [[a|e] w']; auto.
Qed.

Lemma bind_ret_r {A : Type} (c : M World A) w :
  bind c (fun a => ret a) w = c w.
Proof.
  unfold bind, ret. destruct (c w) as [[a|e] w']; auto.
Qed.

Lemma filters_add_filters self objs :
  Router.filters (add_filters self objs) = (Router.filters self ++ objs)%list.
Proof.
  unfold add_filters. revert self.
  induction objs as [|o objs IH]; intros self; simpl.
  - now rewrite app_nil_r.
  - rewrite IH. simpl. now rewrite <- app_assoc.
Qed.

Lemma before_loop_befores fs ctx request w :
  Filter.before_loop (map as_filter fs) ctx request w = befores fs ctx request w.
Proof.
  revert request w. induction fs as [|f fs IH]; intros request w; simpl; auto.
  apply bind_ext. intros; apply IH.
Qed.

Lemma after_loop_app (l1 l2 : list (Filter.object World Response Ctx))
      ctx request response w :
  Filter.after_loop (l1 ++ l2)%list ctx request response w
  = bind (Filter.after_loop l1 ctx request response)
         (fun r => Filter.after_loop l2 ctx request r) w.
Proof.
  revert response w. induction l1 as [|fl l1 IH]; intros response w; simpl.
  - reflexivity.
  - rewrite bind_assoc. apply bind_ext. intros; apply IH.
Qed.

Lemma after_loop_afters fs ctx request response w :
  Filter.after_loop (rev (map as_filter fs)) ctx request response w
  = afters fs ctx request response w.
Proof.
  revert response w. induction fs as [|f fs IH]; intros response w; simpl; auto.
  rewrite after_loop_app. unfold bind at 1. rewrite IH.
  unfold bind at 1.
  destruct (afters fs ctx request response w) as [[r|e] w']; auto.
  simpl. unfold Filter.call_after; simpl. apply bind_ret_r.
Qed.

(** C4: with the filters F1..Fn registered in that order around a handler
    H, the wrapped handler is [chain]: the [before_request] hooks run from
    F1 to Fn, each on the request the one before it returned, H runs on the
    last of these requests, and the [after_request] hooks run from Fn back
    to F1, each on the response of the one before it; the last response is
    the result. *)
Theorem apply_filter_is_chain self fs H ctx request w :
  Router._apply_filter
    (add_filters (Router.with_filters self []) (map as_filter fs)) H ctx request w
  = chain fs H ctx request w.
Proof.
  unfold Router._apply_filter, chain.
  rewrite filters_add_filters. simpl.
  unfold bind at 1. rewrite before_loop_befores.
  unfold bind at 2.
  destruct (befores fs ctx request w) as [[rq|e] w1]; auto.
  apply bind_ext. intros; apply after_loop_afters.
Qed.

(** C10: [add_filter] takes any object, instance of [Filter] or not, and
    puts it at the end of the filter list; the two convenience
    registrations append a [Filter()] carrying the function and hand the
    function back; the constructor is the operation that refuses an object
    that is not a [Filter]. *)
Theorem add_filter_unchecked self (obj : Filter.object World Response Ctx)
        (fb : Filter.before_hook World Ctx) (fa : Filter.after_hook World Response Ctx)
        prefix domain :
  Router.filters (Router.add_filter self obj) = (Router.filters self ++ [obj])%list /\
  (exists fl,
      Router.before_request self fb = (Router.add_filter self fl, fb) /\
      Filter.call_before fl = fb /\
      Filter.call_after fl = Filter.after_request) /\
  (exists fl,
      Router.after_request self fa = (Router.add_filter self fl, fa) /\
      Filter.call_before fl = Filter.before_request /\
      Filter.call_after fl = fa) /\
  (Filter.isinstance_Filter obj = false ->
   Router.__init__ prefix domain (Some [obj])
   = Raise (Exception (Filter.str_of obj ++ " is not a Filter"))).
Proof.
  split; [reflexivity|]. split; [|split].
  - eexists; repeat split.
  - eexists; repeat split.
  - intros H. unfold Router.__init__; simpl. now rewrite H.
Qed.
End FilterChain.

(** The order of the hooks with two logging filters: F1.before, F2.before,
    H, F2.after, F1.after. *)
Lemma two_filters_order :
  snd (Router._apply_filter
         (add_filters empty_router [as_filter (logging "F1"); as_filter (logging "F2")])
         logging_handler tt (mkRequest "GET" "/" "h" "" None) [])
  = ["F1.before"; "F2.before"; "H"; "F2.after"; "F1.after"].
Proof. reflexivity. Qed.

(** ** Extension registration *)

Section Extensions.
Context {World Response Ctx : Type}.
Implicit Types (app : Application.t World Response Ctx).
Implicit Types (inst : Extension.instance).
Implicit Types (initialize : Application.initializer World Response Ctx).

(** C2: an instance that exposes [initialize] has it run once, on the live
    application, and, when that returns, is stored in the registry of the
    application as [initialize] left it, under the name of its class: the
    registry then holds the instance under that name, in the place of any
    instance it held there, and holds under every other name what
    [initialize] left there; routers and filters stay as [initialize] left
    them.  When [initialize] raises, the error comes out and nothing is
    stored.  An instance that does not expose [initialize] is passed over:
    no error, [initialize] is not run, and neither the application nor the
    world changes. *)
Theorem register_extension_protocol initialize inst app (w : World) :
  if Extension.isinstance_Extension inst then
    match initialize inst (app, w) with
    | (Return _, (app1, w1)) =>
        exists app2,
          Application.register_extension initialize inst (app, w)
          = (Return tt, (app2, w1)) /\
          Application.extensions app2
          = Py.set (Extension.class_name inst) inst (Application.extensions app1) /\
          Py.get (Extension.class_name inst) (Application.extensions app2) = Some inst /\
          (forall k, k <> Extension.class_name inst ->
                     Py.get k (Application.extensions app2)
                     = Py.get k (Application.extensions app1)) /\
          (forall old,
              Py.get (Extension.class_name inst) (Application.extensions app1) = Some old ->
              Py.keys (Application.extensions app2)
              = Py.keys (Application.extensions app1)) /\
          (Py.get (Extension.class_name inst) (Application.extensions app1) = None ->
           Py.keys (Application.extensions app2)
           = (Py.keys (Application.extensions app1) ++ [Extension.class_name inst])%list) /\
          Application.routers app2 = Application.routers app1 /\
          Application.filters app2 = Application.filters app1 /\
          Application.self_ app2 = Application.self_ app1
    | (Raise e, (app1, w1)) =>
        Application.register_extension initialize inst (app, w) = (Raise e, (app1, w1))
    end
  else
    Application.register_extension initialize inst (app, w) = (Return tt, (app, w)).
Proof.
  unfold Application.register_extension.
  destruct (Extension.isinstance_Extension inst); [|reflexivity].
  unfold bind.
  destruct (initialize inst (app, w)) as [[[]|e] [app1 w1]]; [|reflexivity].
  eexists. split; [reflexivity|].
  cbn [Application.store_extension Application.extensions Application.routers
       Application.filters Application.self_ Application.with_extensions fst snd].
  repeat split.
  - apply get_set_same.
  - intros k Hk. now apply get_set_other.
  - intros old Hold. eapply keys_set_present; eassumption.
  - apply keys_set_absent.
Qed.
End Extensions.

(** ** Route rules: what registration refuses *)

Section RuleErrors.

Lemma get_none_keys {V : Type} k (d : Py.dict V) :
  Py.contains k (Py.keys d) = false -> Py.get k d = None.
Proof.
  induction d as [|[k' v] d IH]; simpl; auto.
  destruct (String.eqb k k'); simpl; auto; discriminate.
Qed.

Lemma get_some_keys {V : Type} k (d : Py.dict V) :
  Py.contains k (Py.keys d) = true -> exists v, Py.get k d = Some v.
Proof.
  induction d as [|[k' v] d IH]; simpl; try discriminate.
  destruct (String.eqb k k'); simpl; eauto.
Qed.

Lemma split_length sep s : List.length (Py.split sep s) = S (count_char sep s).
Proof.
  induction s as [|c s IH]; simpl; auto.
  destruct (Ascii.eqb c sep); simpl; [now rewrite IH|].
  destruct (Py.split sep s); simpl in *; auto; discriminate.
Qed.

Lemma split_before_after s :
  Py.split ":" s
  = before_sep s :: match after_sep s with
                    | Some r => Py.split ":" r
                    | None => []
                    end.
Proof.
  induction s as [|c s IH]; simpl; auto.
  destruct (Ascii.eqb c ":"); auto.
  now rewrite IH.
Qed.

Lemma count_after_sep s r :
  after_sep s = Some r -> count_char ":" s = S (count_char ":" r).
Proof.
  induction s as [|c s IH]; simpl; try discriminate.
  destruct (Ascii.eqb c ":"); simpl; auto.
  intros H; now inversion H.
Qed.

Lemma before_sep_none s : count_char ":" s = 0 -> before_sep s = s.
Proof.
  induction s as [|c s IH]; simpl; auto.
  destruct (Ascii.eqb c ":"); simpl; try discriminate.
  intros H; now rewrite IH.
Qed.

Lemma after_sep_none s : count_char ":" s = 0 -> after_sep s = None.
Proof.
  induction s as [|c s IH]; simpl; auto.
  destruct (Ascii.eqb c ":"); simpl; auto; discriminate.
Qed.

(** The two parts of a specification with at most one separator. *)
Lemma split_at_most_one s :
  count_char ":" s <= 1 ->
  (List.length (Py.split ":" s) =? 2)%nat
  = match after_sep s with Some _ => true | None => false end /\
  hd EmptyString (Py.split ":" s) = name_of s /\
  (if (List.length (Py.split ":" s) =? 2)%nat
   then nth 1 (Py.split ":" s) EmptyString else "str") = tag_of s.
Proof.
  intros Hc. unfold tag_of, name_of.
  rewrite split_before_after.
  destruct (after_sep s) as [r|] eqn:E; simpl; auto.
  pose proof (count_after_sep _ E) as Hr.
  assert (H0 : count_char ":" r = 0) by lia.
  rewrite split_before_after, (after_sep_none _ H0), (before_sep_none _ H0).
  simpl; auto.
Qed.

Lemma spec_parse_many src :
  2 <= count_char ":" src ->
  Router._spec_parse src = Raise (Exception "error pattern").
Proof.
  intros H. unfold Router._spec_parse.
  rewrite split_length.
  destruct (Nat.ltb_spec 2 (S (count_char ":" src))); auto; lia.
Qed.

Lemma spec_parse_at_most_one src :
  count_char ":" src <= 1 ->
  Router._spec_parse src
  = obind (subscript PATTERNS (tag_of src))
          (fun frag =>
             obind (subscript CASTS (tag_of src))
                   (fun c => Return (name_of src,
                                     "(?P<" ++ name_of src ++ ">" ++ frag ++ ")", c))).
Proof.
  intros H. unfold Router._spec_parse. cbv zeta.
  destruct (split_at_most_one _ H) as (_ & -> & ->).
  rewrite split_length.
  destruct (Nat.ltb_spec 2 (S (count_char ":" src))); [lia|].
  reflexivity.
Qed.

Lemma spec_parse_unknown src :
  count_char ":" src <= 1 ->
  known_tag (tag_of src) = false ->
  Router._spec_parse src = Raise (KeyError (tag_of src)).
Proof.
  intros H Hk. rewrite spec_parse_at_most_one by assumption.
  unfold subscript at 1. now rewrite (get_none_keys _ PATTERNS Hk).
Qed.

Lemma spec_parse_ok src :
  spec_ok src = true ->
  exists frag c,
    Py.get (tag_of src) PATTERNS = Some frag /\
    Py.get (tag_of src) CASTS = Some c /\
    Router._spec_parse src
    = Return (name_of src, "(?P<" ++ name_of src ++ ">" ++ frag ++ ")", c).
Proof.
  unfold spec_ok. intros H. apply andb_prop in H as [Hc Hk].
  apply Nat.leb_le in Hc.
  destruct (get_some_keys _ PATTERNS Hk) as [frag Hf].
  destruct (get_some_keys _ CASTS Hk) as [c Hcast].
  exists frag, c. repeat split; auto.
  rewrite spec_parse_at_most_one by assumption.
  unfold subscript. now rewrite Hf, Hcast.
Qed.

(** The scan outside a specification copies text that holds no opening
    brace. *)
Lemma loop_text s rest pattern casts :
  count_char "{" s = 0 ->
  Router._rule_parse_loop (s ++ rest) pattern [] casts false
  = Router._rule_parse_loop rest (pattern ++ chars s)%list [] casts false.
Proof.
  revert pattern. induction s as [|c s IH]; intros pattern; simpl.
  - now rewrite app_nil_r.
  - destruct (Ascii.eqb c "{"); simpl; try discriminate.
    intros H. rewrite andb_false_r, IH by assumption.
    now rewrite <- app_assoc.
Qed.

(** The scan inside a specification gathers it up to the closing brace. *)
Lemma loop_spec spec rest pattern acc casts :
  count_char "}" spec = 0 ->
  Router._rule_parse_loop (spec ++ String "}" rest) pattern acc casts true
  = obind (Router._spec_parse (Py.join acc ++ spec))
          (fun '(name, p, cst) =>
             Router._rule_parse_loop rest (pattern ++ [p])%list []
                                     (Py.set name cst casts) false).
Proof.
  revert acc. induction spec as [|c spec IH]; intros acc; simpl.
  - now rewrite append_nil_r.
  - rewrite andb_false_r.
    destruct (Ascii.eqb c "}"); simpl; try discriminate.
    intros H. rewrite IH by assumption.
    now rewrite join_app, append_assoc.
Qed.

Lemma loop_param spec rest pattern casts :
  count_char "}" spec = 0 ->
  Router._rule_parse_loop (render_segment (Param spec) ++ rest) pattern [] casts false
  = obind (Router._spec_parse spec)
          (fun '(name, p, cst) =>
             Router._rule_parse_loop rest (pattern ++ [p])%list []
                                     (Py.set name cst casts) false).
Proof.
  intros H. simpl. rewrite append_assoc. simpl.
  now rewrite loop_spec.
Qed.

(** A rule of well-formed parts, followed by anything: the scan gets
    through the parts. *)
Lemma loop_segments_ok segs rest pattern casts :
  Forall (fun seg => segment_ok seg = true) segs ->
  exists pattern',
    Py.join pattern' = Py.join pattern ++ pattern_of segs /\
    Router._rule_parse_loop (render segs ++ rest) pattern [] casts false
    = Router._rule_parse_loop rest pattern' [] (casts_onto casts segs) false.
Proof.
  intros H. revert pattern casts.
  induction H as [|seg segs Hseg _ IH]; intros pattern casts.
  - exists pattern. simpl. now rewrite append_nil_r.
  - cbn [render pattern_of casts_onto]. rewrite append_assoc.
    unfold segment_ok in Hseg. apply andb_prop in Hseg as [Hd Hok].
    destruct seg as [s|spec]; simpl in Hd; apply Nat.eqb_eq in Hd.
    + cbn [render_segment fragment_of]. rewrite loop_text by assumption.
      destruct (IH (pattern ++ chars s)%list casts) as (p' & Hj & Hl).
      exists p'. split; auto.
      now rewrite Hj, join_app, join_chars, append_assoc.
    + rewrite loop_param by assumption.
      destruct (spec_parse_ok _ Hok) as (frag & c & Hf & Hc & ->).
      cbn [fragment_of obind]. rewrite Hf, Hc.
      destruct (IH (pattern ++ [("(?P<" ++ name_of spec ++ ">" ++ frag ++ ")")%string])%list
                   (Py.set (name_of spec) c casts)) as (p' & Hj & Hl).
      exists p'. split; auto.
      rewrite Hj, join_app. cbn [Py.join]. now rewrite append_nil_r, append_assoc.
Qed.

Lemma rule_parse_ok segs :
  Forall (fun seg => segment_ok seg = true) segs ->
  Router._rule_parse (render segs)
  = Return (pattern_of segs ++ "$", casts_onto [] segs).
Proof.
  intros H. unfold Router._rule_parse.
  destruct (loop_segments_ok "" [] [] H) as (p' & Hj & Hl).
  rewrite append_nil_r in Hl. rewrite Hl. simpl. now rewrite Hj.
Qed.

Lemma rule_parse_first_bad good bad rest e :
  Forall (fun seg => segment_ok seg = true) good ->
  count_char "}" bad = 0 ->
  Router._spec_parse bad = Raise e ->
  Router._rule_parse (render (good ++ Param bad :: rest)%list) = Raise e.
Proof.
  intros Hgood Hd Hbad. unfold Router._rule_parse.
  assert (E : render (good ++ Param bad :: rest)%list
              = render good ++ (render_segment (Param bad) ++ render rest)).
  { clear. induction good as [|g good IH]; simpl; auto.
    now rewrite IH, append_assoc. }
  rewrite E.
  destruct (loop_segments_ok (render_segment (Param bad) ++ render rest) [] [] Hgood)
    as (p' & _ & ->).
  rewrite loop_param by assumption. now rewrite Hbad.
Qed.
End RuleErrors.

Section Registration.
Context {World Response Ctx : Type}.
Implicit Types (self : Router.t World Response Ctx).

(** C3, as the code has it: the scan stops at the first specification it
    cannot accept, at registration.  After well-formed parts, a
    specification with more than one separator makes [_route] raise
    [Exception('error pattern')], and one with at most one separator and a
    tag outside the registry makes it raise [KeyError] on that tag; a rule
    of well-formed parts only gets through the rule compiler, so that
    [_route] raises neither of the two. *)
Theorem registration_errors self good bad rest methods h :
  Forall (fun seg => segment_ok seg = true) good ->
  count_char "}" bad = 0 ->
  (2 <= count_char ":" bad ->
   Router._route self (render (good ++ Param bad :: rest)%list) methods h
   = Raise (Exception "error pattern")) /\
  (count_char ":" bad <= 1 -> known_tag (tag_of bad) = false ->
   Router._route self (render (good ++ Param bad :: rest)%list) methods h
   = Raise (KeyError (tag_of bad))) /\
  (Router._rule_parse (render good) = Return (pattern_of good ++ "$", casts_onto [] good) /\
   match Router._route self (render good) methods h with
   | Raise (Exception _) | Raise (KeyError _) => False
   | _ => True
   end).
Proof.
  intros Hgood Hd. split; [|split].
  - intros H. unfold Router._route.
    now rewrite (rule_parse_first_bad _ _ Hgood Hd (spec_parse_many _ H)).
  - intros H Hk. unfold Router._route.
    now rewrite (rule_parse_first_bad _ _ Hgood Hd (spec_parse_unknown _ H Hk)).
  - split; [now apply rule_parse_ok|].
    unfold Router._route. rewrite (rule_parse_ok Hgood).
    destruct (Re.compile _); exact I.
Qed.
End Registration.

(** A rule with an unknown tag in front of a specification with two
    separators: registration raises [KeyError], not
    [Exception('error pattern')]. *)
Lemma registration_first_error_only :
  let segs := [Param "x:zzz"; Param "a:b:c"] in
  In (Param "a:b:c") segs /\
  2 <= count_char ":" "a:b:c" /\
  render segs = "{x:zzz}{a:b:c}" /\
  Router._route (@empty_router (list string) string unit) (render segs)
                Router.default_methods logging_handler
  = Raise (KeyError "zzz") /\
  Router._route (@empty_router (list string) string unit) (render segs)
                Router.default_methods logging_handler
  <> Raise (Exception "error pattern").
Proof.
  cbv zeta. split; [right; left; reflexivity|].
  split; [simpl; lia|]. split; [reflexivity|].
  split; [reflexivity|discriminate].
Qed.

Lemma registration_errors_witness :
  Router._route (@empty_router (list string) string unit)
                (render ([Text "/items/"; Param "id:int"] ++ Param "a:b:c" :: [Text "/x"])%list)
                Router.default_methods logging_handler
  = Raise (Exception "error pattern").
Proof.
  refine (proj1 (@registration_errors _ _ _ empty_router [Text "/items/"; Param "id:int"]
                   "a:b:c" [Text "/x"] Router.default_methods logging_handler _ _) _).
  - repeat constructor.
  - reflexivity.
  - simpl; lia.
Defined.

(** ** Parameters of a matched route *)

Section MatchedParameters.
Context {World Response Ctx : Type}.
Implicit Types (self : Router.t World Response Ctx) (request : Request).

(** The cast loop over the entries of [groupdict()]: every name gets the
    cast of its capture, and no other key is touched. *)
Lemma cast_loop_groupdict casts (g : Re.captures) names request a request' :
  Router.cast_loop casts (map (fun name => (name, Py.get name g)) names)
                   (with_args request a) a = (Return tt, request') ->
  exists a',
    request' = with_args request a' /\
    (forall k, In k names ->
               exists c x, Py.get k casts = Some c /\
                           apply_cast c (Py.get k g) = Return x /\
                           Py.get k a' = Some x) /\
    (forall k, ~ In k names -> Py.get k a' = Py.get k a).
Proof.
  revert a. induction names as [|n names IH]; intros a; simpl.
  - intros H; inversion H; subst. exists a. repeat split; auto. intros k [].
  - unfold subscript.
    destruct (Py.get n casts) as [c|] eqn:Hc; try discriminate.
    destruct (apply_cast c (Py.get n g)) as [x|e] eqn:Hx; try discriminate.
    intros H.
    change (with_args (with_args request a) (Py.set n x a))
      with (with_args request (Py.set n x a)) in H.
    destruct (IH _ H) as (a' & -> & Hin & Hout).
    exists a'. split; [reflexivity|]. split.
    + intros k [<-|Hk]; auto.
      destruct (in_dec string_dec n names) as [Hn|Hn]; auto.
      exists c, x. repeat split; auto.
      rewrite (Hout _ Hn). apply get_set_same.
    + intros k Hk. rewrite Hout by tauto.
      apply get_set_other. intros ->. apply Hk. now left.
Qed.

Lemma match_loop_parameters self rs request h request' :
  Router.match_loop self rs request = (Return (Some h), request') ->
  exists route m a,
    In route rs /\
    Py.contains (method request) (Router.methods route) = true /\
    Re.match_ (Router.pattern route)
              (Py.replace_first (Router.prefix self) (path request)) = Some m /\
    h = Router._apply_filter self (Router.handler route) /\
    request' = with_args request a /\
    (forall k, In k (Re.group_names (Router.pattern route)) ->
               exists c x, Py.get k (Router.casts route) = Some c /\
                           apply_cast c (Py.get k m) = Return x /\
                           Py.get k a = Some x) /\
    (forall k, ~ In k (Re.group_names (Router.pattern route)) -> Py.get k a = None).
Proof.
  induction rs as [|route rest IH]; simpl; try discriminate.
  destruct (Py.contains (method request) (Router.methods route)) eqn:Hm.
  - destruct (Re.match_ _ _) as [m|] eqn:Hp.
    + destruct (Router.cast_loop _ _ _ _) as [[[]|e] rq] eqn:Hc; try discriminate.
      intros H; inversion H; subst.
      apply cast_loop_groupdict in Hc as (a & -> & Hin & Hout).
      exists route, m, a. repeat split; auto.
    + intros H. destruct (IH H) as (r & m & a & Hin & ?).
      exists r, m, a. split; auto.
  - intros H. destruct (IH H) as (r & m & a & Hin & ?).
    exists r, m, a. split; auto.
Qed.

Lemma match_parameters self request h request' :
  Router.match_ self request = (Return (Some h), request') ->
  exists route m a,
    In route (Router.routes self) /\
    Py.contains (method request) (Router.methods route) = true /\
    Re.match_ (Router.pattern route)
              (Py.replace_first (Router.prefix self) (path request)) = Some m /\
    h = Router._apply_filter self (Router.handler route) /\
    request' = with_args request a /\
    (forall k, In k (Re.group_names (Router.pattern route)) ->
               exists c x, Py.get k (Router.casts route) = Some c /\
                           apply_cast c (Py.get k m) = Return x /\
                           Py.get k a = Some x) /\
    (forall k, ~ In k (Re.group_names (Router.pattern route)) -> Py.get k a = None).
Proof.
  unfold Router.match_.
  destruct (Router._domain_match self request) as [[|]|e]; try discriminate.
  destruct (Router._prefix_match self request); try discriminate.
  apply match_loop_parameters.
Qed.

(** C7: the rule [/items/{id:int}] on a GET of [/items/42] gives a handler
    and leaves the request with the parameters map [{id: 42}], [42] an
    integer, whatever map the request carried before; and in general the
    request a match leaves behind differs from the one given in its
    parameters map only, which holds, for every named group of the matched
    route, the capture cast by the route's cast for that name, and nothing
    else. *)
Theorem match_casts_parameters :
  (forall (h : Router.Handler World Response Ctx) hostname payload prior,
      exists rt,
        Router.route empty_router "/items/{id:int}" None h = Return (rt, h) /\
        Router.match_ rt (mkRequest "GET" "/items/42" hostname payload prior)
        = (Return (Some (Router._apply_filter rt h)),
           mkRequest "GET" "/items/42" hostname payload (Some [("id", VInt 42)]))) /\
  (forall self request h request',
      Router.match_ self request = (Return (Some h), request') ->
      exists route m a,
        In route (Router.routes self) /\
        Py.contains (method request) (Router.methods route) = true /\
        Re.match_ (Router.pattern route)
                  (Py.replace_first (Router.prefix self) (path request)) = Some m /\
        h = Router._apply_filter self (Router.handler route) /\
        request' = with_args request a /\
        (forall k, In k (Re.group_names (Router.pattern route)) ->
                   exists c x, Py.get k (Router.casts route) = Some c /\
                               apply_cast c (Py.get k m) = Return x /\
                               Py.get k a = Some x) /\
        (forall k, ~ In k (Re.group_names (Router.pattern route)) -> Py.get k a = None)).
Proof.
  split.
  - intros h hostname payload prior. eexists. split; reflexivity.
  - intros self request h request'. apply match_parameters.
Qed.
End MatchedParameters.

(** ** Compiling the pattern of a rule *)

Section CompileRule.

Lemma parse_plain_char c rest stack cur names :
  plain_char c = true ->
  Re.parse (String c rest) Re.Normal stack cur names
  = Re.parse rest Re.Normal stack (Re.Chars (Re.Lit c) Re.One :: cur) names.
Proof.
  destruct c as [[] [] [] [] [] [] [] []]; intros H;
    solve [discriminate H | reflexivity].
Qed.

Lemma parse_plain s rest stack cur names :
  plain s = true ->
  Re.parse (s ++ rest) Re.Normal stack cur names
  = Re.parse rest Re.Normal stack (rev (literals s) ++ cur)%list names.
Proof.
  revert cur. induction s as [|c s IH]; intros cur; auto.
  cbn [plain Py.all_chars append literals]. intros H.
  apply andb_prop in H as [Hc Hs].
  rewrite parse_plain_char, IH by assumption.
  cbn [rev]. now rewrite <- app_assoc.
Qed.

Lemma parse_name_char c rest acc stack cur names :
  Py.is_word c = true ->
  Re.parse (String c rest) (Re.Name acc) stack cur names
  = Re.parse rest (Re.Name (acc ++ String c EmptyString)) stack cur names.
Proof.
  destruct c as [[] [] [] [] [] [] [] []]; intros H;
    solve [discriminate H | reflexivity].
Qed.

Lemma parse_name_chars s rest acc stack cur names :
  Py.all_chars Py.is_word s = true ->
  Re.parse (s ++ rest) (Re.Name acc) stack cur names
  = Re.parse rest (Re.Name (acc ++ s)) stack cur names.
Proof.
  revert acc. induction s as [|c s IH]; intros acc; cbn [append Py.all_chars].
  - now rewrite append_nil_r.
  - intros H. apply andb_prop in H as [Hc Hs].
    rewrite parse_name_char, IH by assumption.
    now rewrite append_assoc.
Qed.

Lemma word_is_ascii c : Py.is_word c = true -> (nat_of_ascii c <? 128)%nat = true.
Proof.
  destruct c as [[] [] [] [] [] [] [] []]; intros H;
    solve [discriminate H | reflexivity].
Qed.

Lemma identifier_words name :
  Py.isidentifier name = true -> Py.all_chars Py.is_word name = true.
Proof.
  destruct name as [|c s]; simpl; try discriminate.
  intros H. apply andb_prop in H as [Hc Hs]. rewrite Hs, andb_true_r.
  unfold Py.is_word. apply orb_prop in Hc as [->| ->]; auto.
  now rewrite orb_true_r.
Qed.

Lemma words_ascii s : Py.all_chars Py.is_word s = true -> Re.is_ascii_text s = true.
Proof.
  unfold Re.is_ascii_text. induction s as [|c s IH]; simpl; auto.
  intros H. apply andb_prop in H as [Hc Hs].
  now rewrite (word_is_ascii _ Hc), IH.
Qed.

(** The opening of a named group. *)
Lemma parse_group_open name rest stack cur names :
  Py.isidentifier name = true ->
  Py.contains name names = false ->
  Re.parse ("(?P<" ++ name ++ ">" ++ rest) Re.Normal stack cur names
  = Re.parse rest Re.Normal ((name, cur) :: stack) [] (names ++ [name])%list.
Proof.
  intros Hid Hnew.
  pose proof (identifier_words _ Hid) as Hw.
  change (Re.parse ("(?P<" ++ name ++ ">" ++ rest) Re.Normal stack cur names)
    with (Re.parse (name ++ ">" ++ rest) (Re.Name EmptyString) stack cur names).
  rewrite parse_name_chars by assumption.
  cbn [append Re.parse].
  rewrite (words_ascii _ Hw). cbn [negb].
  destruct name as [|c s]; [discriminate|].
  now rewrite Hid, Hnew.
Qed.

Lemma known_tag_cases t :
  known_tag t = true ->
  t = "str" \/ t = "word" \/ t = "any" \/ t = "int" \/ t = "float".
Proof.
  unfold known_tag, type_tags, Py.contains. cbn [existsb].
  destruct (String.eqb_spec t "str"); [tauto|].
  destruct (String.eqb_spec t "word"); [tauto|].
  destruct (String.eqb_spec t "any"); [tauto|].
  destruct (String.eqb_spec t "int"); [tauto|].
  destruct (String.eqb_spec t "float"); [tauto|].
  discriminate.
Qed.

(** The fragment of a known tag and the closing of its group. *)
Lemma parse_fragment t frag name rest stack cur names :
  Py.get t PATTERNS = Some frag ->
  Re.parse (frag ++ ")" ++ rest) Re.Normal ((name, cur) :: stack) [] names
  = Re.parse rest Re.Normal stack (Re.Group name (body_of frag) :: cur) names.
Proof.
  intros H.
  assert (Hk : known_tag t = true).
  { destruct (known_tag t) eqn:E; auto.
    rewrite (get_none_keys t PATTERNS E) in H. discriminate. }
  destruct (known_tag_cases _ Hk) as [->|[->|[->|[->| ->]]]];
    inversion H; subst; reflexivity.
Qed.

Lemma parse_group t frag name rest cur names :
  Py.isidentifier name = true ->
  Py.contains name names = false ->
  Py.get t PATTERNS = Some frag ->
  Re.parse (("(?P<" ++ name ++ ">" ++ frag ++ ")") ++ rest) Re.Normal [] cur names
  = Re.parse rest Re.Normal [] (Re.Group name (body_of frag) :: cur)
             (names ++ [name])%list.
Proof.
  intros Hid Hnew Hf.
  assert (E : ("(?P<" ++ name ++ ">" ++ frag ++ ")") ++ rest
              = "(?P<" ++ name ++ ">" ++ (frag ++ ")" ++ rest)).
  { cbn [append]. do 4 f_equal.
    rewrite append_assoc. f_equal. cbn [append]. f_equal.
    now rewrite append_assoc. }
  rewrite E, parse_group_open by assumption.
  now apply parse_fragment with (t := t).
Qed.

Lemma contains_false x l : ~ In x l -> Py.contains x l = false.
Proof.
  unfold Py.contains. induction l as [|y l IH]; simpl; auto.
  intros H. destruct (String.eqb_spec x y); simpl; [subst; tauto|].
  apply IH. tauto.
Qed.

Lemma plain_no_open_brace s : plain s = true -> count_char "{" s = 0.
Proof.
  induction s as [|c s IH]; simpl; auto.
  intros H. apply andb_prop in H as [Hc Hs]. rewrite (IH Hs).
  destruct (Ascii.eqb_spec c "{"); auto. subst; discriminate.
Qed.

Lemma clean_ok seg : clean seg = true -> segment_ok seg = true.
Proof.
  unfold segment_ok. destruct seg as [s|spec]; simpl; intros H.
  - now rewrite (plain_no_open_brace _ H).
  - apply andb_prop in H as [H Hb]. apply andb_prop in H as [Hok _].
    now rewrite Hb, Hok.
Qed.

Lemma parse_segments segs rest cur names :
  Forall (fun seg => clean seg = true) segs ->
  NoDup (names ++ param_names segs)%list ->
  Re.parse (pattern_of segs ++ rest) Re.Normal [] cur names
  = Re.parse rest Re.Normal [] (rev (nodes_of segs) ++ cur)%list
             (names ++ param_names segs)%list.
Proof.
  intros H. revert cur names.
  induction H as [|seg segs Hseg _ IH]; intros cur names Hnd.
  - simpl. now rewrite app_nil_r.
  - cbn [pattern_of]. rewrite append_assoc.
    destruct seg as [s|spec]; cbn [clean] in Hseg.
    + cbn [fragment_of]. rewrite parse_plain by assumption.
      rewrite IH by exact Hnd.
      unfold nodes_of. cbn [flat_map nodes_of_segment].
      now rewrite rev_app_distr, <- app_assoc.
    + apply andb_prop in Hseg as [Hseg _]. apply andb_prop in Hseg as [Hok Hid].
      destruct (spec_parse_ok _ Hok) as (frag & c & Hf & _ & _).
      cbn [fragment_of param_names flat_map] in *. rewrite Hf.
      rewrite parse_group with (t := tag_of spec); auto.
      * rewrite IH.
        -- unfold nodes_of. cbn [flat_map nodes_of_segment]. rewrite Hf.
           cbn [app rev]. now rewrite <- !app_assoc.
        -- now rewrite <- app_assoc.
      * apply contains_false. intros Hin.
        apply NoDup_remove_2 in Hnd. apply Hnd.
        apply in_or_app. now left.
Qed.

Lemma compile_rule segs :
  Forall (fun seg => clean seg = true) segs ->
  NoDup (param_names segs) ->
  Re.compile (pattern_of segs ++ "$") = Re.Compiled (nodes_of segs ++ [Re.Eol])%list.
Proof.
  intros H Hnd. unfold Re.compile.
  rewrite parse_segments by assumption.
  simpl. now rewrite app_nil_r, rev_involutive.
Qed.

(** Registering a rule of clean parts with distinct names adds the route
    compiled from the parts. *)
Lemma route_of_clean_rule {World Response Ctx : Type}
      (self : Router.t World Response Ctx) segs methods h :
  Forall (fun seg => clean seg = true) segs ->
  NoDup (param_names segs) ->
  Router._route self (render segs) methods h
  = Return (Router.with_routes self
              (Router.routes self
               ++ [Router.mkRoute (nodes_of segs ++ [Re.Eol])%list methods
                                  (casts_onto [] segs) h])%list).
Proof.
  intros H Hnd. unfold Router._route.
  rewrite rule_parse_ok.
  - now rewrite compile_rule.
  - eapply Forall_impl; [|exact H]. apply clean_ok.
Qed.
End CompileRule.

(** ** The matcher finds only what the pattern describes *)

Section MatcherSound.

Lemma node_induction (P : Re.node -> Prop) :
  (forall cs q, P (Re.Chars cs q)) ->
  P Re.Bol ->
  P Re.Eol ->
  (forall name body, Forall P body -> P (Re.Group name body)) ->
  forall n, P n.
Proof.
  intros HC HB HE HG. fix IH 1. intros [cs q| | |name body].
  - apply HC.
  - exact HB.
  - exact HE.
  - apply HG. induction body as [|n body IHb]; constructor.
    + apply IH.
    + exact IHb.
Qed.

Lemma substring_prefix t s : String.substring 0 (String.length t) (t ++ s) = t.
Proof.
  induction t as [|c t IH]; simpl.
  - now destruct s.
  - now rewrite IH.
Qed.

Lemma star_sound cs s : forall pos g k res,
  Re.star cs pos s g k = Some res ->
  exists t s',
    s = t ++ s' /\ Py.all_chars (Re.accepts cs) t = true /\
    k (pos + String.length t) s' g = Some res.
Proof.
  induction s as [|c s IH]; intros pos g k res; simpl.
  - intros H. exists EmptyString, EmptyString. now rewrite Nat.add_0_r.
  - destruct (Re.accepts cs c) eqn:Hc.
    + destruct (Re.star cs (S pos) s g k) as [r|] eqn:Hs.
      * intros H; inversion H; subst.
        destruct (IH _ _ _ _ Hs) as (t & s' & -> & Ht & Hk).
        exists (String c t), s'. simpl. rewrite Hc, Ht.
        now rewrite Nat.add_succ_r.
      * intros H. exists EmptyString, (String c s). now rewrite Nat.add_0_r.
    + intros H. exists EmptyString, (String c s). now rewrite Nat.add_0_r.
Qed.

Lemma seq_sound ns :
  Forall sound ns ->
  forall pos s g k res,
    Re.seq_with Re.m_node ns pos s g k = Some res ->
    exists t s' g',
      s = t ++ s' /\ Lang.seq_matches ns t g g' /\
      k (pos + String.length t) s' g' = Some res.
Proof.
  induction 1 as [|n ns Hn _ IH]; intros pos s g k res; simpl.
  - intros H. exists EmptyString, s, g. now rewrite Nat.add_0_r.
  - intros H. apply Hn in H as (t1 & s1 & g1 & -> & Hm1 & H).
    apply IH in H as (t2 & s2 & g2 & -> & Hm2 & H).
    exists (t1 ++ t2), s2, g2. split; [now rewrite append_assoc|]. split.
    + exists t1, t2, g1. auto.
    + now rewrite length_append, Nat.add_assoc.
Qed.

Lemma chars_sound cs q : sound (Re.Chars cs q).
Proof.
  intros pos s g k res. destruct q; simpl.
  - destruct s as [|c s]; try discriminate.
    destruct (Re.accepts cs c) eqn:Hc; try discriminate.
    intros H. exists (String c EmptyString), s, g. simpl.
    rewrite Nat.add_1_r. repeat split; eauto.
  - destruct s as [|c s]; try discriminate.
    destruct (Re.accepts cs c) eqn:Hc; try discriminate.
    intros H. apply star_sound in H as (t & s' & -> & Ht & H).
    exists (String c t), s', g. simpl. rewrite Hc, Ht.
    rewrite Nat.add_succ_r. repeat split; auto. discriminate.
  - intros H. apply star_sound in H as (t & s' & -> & Ht & H).
    exists t, s', g. repeat split; auto.
  - destruct s as [|c s].
    + intros H. exists EmptyString, EmptyString, g.
      rewrite Nat.add_0_r. repeat split; auto.
    + destruct (Re.accepts cs c) eqn:Hc.
      * destruct (k (S pos) s g) as [r|] eqn:Hk.
        -- intros H; inversion H; subst.
           exists (String c EmptyString), s, g. simpl.
           rewrite Nat.add_1_r. repeat split; auto; right; eauto.
        -- intros H. exists EmptyString, (String c s), g.
           rewrite Nat.add_0_r. repeat split; auto.
      * intros H. exists EmptyString, (String c s), g.
        rewrite Nat.add_0_r. repeat split; auto.
Qed.

Lemma node_sound n : sound n.
Proof.
  induction n as [cs q| | |name body IH] using node_induction.
  - apply chars_sound.
  - intros pos s g k res. simpl.
    destruct (pos =? 0)%nat; try discriminate.
    intros H. exists EmptyString, s, g. now rewrite Nat.add_0_r.
  - intros pos s g k res. simpl.
    destruct (Re.at_end s); try discriminate.
    intros H. exists EmptyString, s, g. now rewrite Nat.add_0_r.
  - intros pos s g k res. simpl. intros H.
    apply (seq_sound IH) in H as (t & s' & g1 & -> & Hm & H).
    exists t, s', (Py.set name t g1). repeat split; eauto.
    replace (pos + String.length t - pos) with (String.length t) in H by lia.
    now rewrite substring_prefix in H.
Qed.

Lemma match_sound r text g :
  Re.match_ r text = Some g ->
  exists t s', text = t ++ s' /\ Lang.seq_matches r t [] g.
Proof.
  unfold Re.match_, Re.m_seq. intros H.
  apply seq_sound in H as (t & s' & g' & -> & Hm & H).
  - inversion H; subst. eauto.
  - apply Forall_forall. intros n _. apply node_sound.
Qed.
End MatcherSound.

(** ** What the pattern of a rule matches *)

Section RuleLanguage.

Lemma seq_matches_app a b t g g' :
  Lang.seq_matches (a ++ b)%list t g g' ->
  exists t1 t2 g1,
    t = t1 ++ t2 /\ Lang.seq_matches a t1 g g1 /\ Lang.seq_matches b t2 g1 g'.
Proof.
  unfold Lang.seq_matches. revert t g.
  induction a as [|n a IH]; intros t g; simpl.
  - intros H. exists EmptyString, t, g. auto.
  - intros (t1 & t2 & g1 & -> & Hn & H).
    apply IH in H as (u1 & u2 & g2 & -> & Ha & Hb).
    exists (t1 ++ u1), u2, g2. split; [now rewrite append_assoc|].
    split; auto. exists t1, u1, g1. auto.
Qed.

Lemma literals_match p t g g' :
  Lang.seq_matches (literals p) t g g' -> t = p /\ g' = g.
Proof.
  unfold Lang.seq_matches. revert t g.
  induction p as [|c p IH]; intros t g; simpl; auto.
  intros (t1 & t2 & g1 & -> & ((c' & -> & Hc) & ->) & H).
  apply IH in H as [-> ->].
  apply Ascii.eqb_eq in Hc. now subst.
Qed.

(** The fragments of the registry hold no group: matching one leaves the
    captures as they are. *)
Lemma fragment_keeps_captures t frag text g g' :
  Py.get t PATTERNS = Some frag ->
  Lang.seq_matches (body_of frag) text g g' -> g' = g.
Proof.
  intros H.
  assert (Hk : known_tag t = true).
  { destruct (known_tag t) eqn:E; auto.
    rewrite (get_none_keys t PATTERNS E) in H. discriminate. }
  destruct (known_tag_cases _ Hk) as [->|[->|[->|[->| ->]]]];
    inversion H; subst; cbv [body_of]; simpl; intros Hm;
    repeat match goal with
           | Hx : exists _, _ |- _ => destruct Hx
           | Hx : _ /\ _ |- _ => destruct Hx
           end; congruence.
Qed.

(** The fragment of [str] takes two characters at least. *)
Lemma str_fragment_length text g g' :
  Lang.seq_matches (body_of "[^/].+") text g g' -> 2 <= String.length text.
Proof.
  cbv [body_of]; simpl.
  intros (t1 & t2 & g1 & -> & ((c & -> & _) & _) & (u1 & u2 & g2 & -> & ((Hne & _) & _) & _)).
  rewrite !length_append. simpl.
  destruct u1; [contradiction|simpl; lia].
Qed.

Lemma nodes_of_cons seg segs :
  nodes_of (seg :: segs) = (nodes_of_segment seg ++ nodes_of segs)%list.
Proof. reflexivity. Qed.

(** Through the pattern of a rule, every parameter captures a text its
    fragment matches, and the captures under other names stay. *)
Lemma nodes_of_captures segs :
  Forall (fun seg => clean seg = true) segs ->
  NoDup (param_names segs) ->
  forall t g g',
    Lang.seq_matches (nodes_of segs) t g g' ->
    (forall n, ~ In n (param_names segs) -> Py.get n g' = Py.get n g) /\
    (forall spec, In (Param spec) segs ->
                  exists frag tn ga gb,
                    Py.get (tag_of spec) PATTERNS = Some frag /\
                    Py.get (name_of spec) g' = Some tn /\
                    Lang.seq_matches (body_of frag) tn ga gb).
Proof.
  induction 1 as [|seg segs Hseg _ IH]; intros Hnd t g g' Hm.
  - destruct Hm as [_ ->]. split; auto. intros spec [].
  - rewrite nodes_of_cons in Hm.
    apply seq_matches_app in Hm as (t1 & t2 & g1 & -> & H1 & H2).
    destruct seg as [s|spec0].
    + apply literals_match in H1 as [-> ->].
      destruct (IH Hnd _ _ _ H2) as [Hframe Hcap]. split; auto.
      intros spec [Heq|Hin]; [discriminate|auto].
    + cbn [clean] in Hseg.
      apply andb_prop in Hseg as [Hseg _]. apply andb_prop in Hseg as [Hok _].
      destruct (spec_parse_ok _ Hok) as (frag & c & Hf & _ & _).
      cbn [nodes_of_segment] in H1. rewrite Hf in H1.
      destruct H1 as (u1 & u2 & g2 & -> & (g3 & Hbody & ->) & [-> ->]).
      cbn [param_names flat_map app] in Hnd. inversion Hnd as [|? ? Hnew Hnd']; subst.
      destruct (IH Hnd' _ _ _ H2) as [Hframe Hcap].
      assert (g3 = g) as -> by (eapply fragment_keeps_captures; eassumption).
      split.
      * intros n Hn. cbn [param_names flat_map app] in Hn.
        rewrite Hframe by (intros Hin; apply Hn; now right).
        apply get_set_other. intros ->. apply Hn. now left.
      * intros spec [Heq|Hin]; auto.
        inversion Heq; subst spec0.
        exists frag, u1, g, g. repeat split; auto.
        rewrite (Hframe _ Hnew). apply get_set_same.
Qed.

Lemma group_names_literals p : Re.group_names (literals p) = [].
Proof. induction p as [|c p IH]; simpl; auto. Qed.

Lemma group_names_app a b :
  Re.group_names (a ++ b)%list = (Re.group_names a ++ Re.group_names b)%list.
Proof. unfold Re.group_names. apply flat_map_app. Qed.

Lemma fragment_names t frag :
  Py.get t PATTERNS = Some frag -> Re.group_names (body_of frag) = [].
Proof.
  intros H.
  assert (Hk : known_tag t = true).
  { destruct (known_tag t) eqn:E; auto.
    rewrite (get_none_keys t PATTERNS E) in H. discriminate. }
  destruct (known_tag_cases _ Hk) as [->|[->|[->|[->| ->]]]];
    inversion H; subst; reflexivity.
Qed.

(** The groups of the pattern of a rule are its parameters, in order. *)
Lemma group_names_nodes_of segs :
  Forall (fun seg => clean seg = true) segs ->
  Re.group_names (nodes_of segs) = param_names segs.
Proof.
  induction 1 as [|seg segs Hseg _ IH]; auto.
  rewrite nodes_of_cons, group_names_app, IH.
  destruct seg as [s|spec]; cbn [nodes_of_segment param_names flat_map].
  - now rewrite group_names_literals.
  - cbn [clean] in Hseg.
    apply andb_prop in Hseg as [Hseg _]. apply andb_prop in Hseg as [Hok _].
    destruct (spec_parse_ok _ Hok) as (frag & c & Hf & _ & _).
    rewrite Hf. unfold Re.group_names at 1. cbn [flat_map Re.names_of].
    fold (Re.group_names (body_of frag)).
    erewrite fragment_names by eassumption. reflexivity.
Qed.

(** The cast table of a rule gives each parameter the cast of its tag. *)
Lemma casts_onto_other segs : forall casts n,
  ~ In n (param_names segs) ->
  Py.get n (casts_onto casts segs) = Py.get n casts.
Proof.
  induction segs as [|seg segs IH]; intros casts n Hn; auto.
  destruct seg as [s|spec]; cbn [casts_onto]; cbn [param_names flat_map app] in Hn.
  - now apply IH.
  - rewrite IH by (intros Hin; apply Hn; right; exact Hin).
    destruct (Py.get (tag_of spec) CASTS); auto.
    apply get_set_other. intros ->. apply Hn. now left.
Qed.

Lemma casts_onto_param segs : forall casts spec,
  NoDup (param_names segs) ->
  In (Param spec) segs ->
  known_tag (tag_of spec) = true ->
  Py.get (name_of spec) (casts_onto casts segs) = Py.get (tag_of spec) CASTS.
Proof.
  induction segs as [|seg segs IH]; intros casts spec Hnd Hin Hk; [destruct Hin|].
  destruct Hin as [Heq|Hin].
  - subst seg. cbn [casts_onto]. cbn [param_names flat_map app] in Hnd.
    inversion Hnd as [|? ? Hnew _]; subst.
    rewrite casts_onto_other by assumption.
    destruct (get_some_keys _ CASTS Hk) as [c Hc]. rewrite Hc.
    apply get_set_same.
  - destruct seg as [s|spec0]; cbn [casts_onto]; cbn [param_names flat_map app] in Hnd.
    + now apply IH.
    + inversion Hnd; subst. now apply IH.
Qed.
End RuleLanguage.

(** ** One parameter between two literal texts *)

Section OneParameter.

Lemma prefix_append p x : String.prefix p (p ++ x) = true.
Proof.
  induction p as [|c p IH]; simpl.
  - now destruct x.
  - destruct (ascii_dec c c); [exact IH|contradiction].
Qed.

Lemma drop_append p x : Py.drop (String.length p) (p ++ x) = x.
Proof. induction p as [|c p IH]; simpl; auto. Qed.

Lemma replace_first_prefix p x : Py.replace_first p (p ++ x) = x.
Proof.
  assert (E : forall old s,
             Py.replace_first old s
             = if String.prefix old s then Py.drop (String.length old) s
               else match s with
                    | EmptyString => EmptyString
                    | String c s' => String c (Py.replace_first old s')
                    end) by (intros old [|c s']; reflexivity).
  now rewrite E, prefix_append, drop_append.
Qed.

Lemma word_not_special c :
  Py.is_word c = true -> Ascii.eqb c ":" = false /\ Ascii.eqb c "}" = false.
Proof.
  intros H. split.
  - destruct (Ascii.eqb_spec c ":"); auto. subst; discriminate.
  - destruct (Ascii.eqb_spec c "}"); auto. subst; discriminate.
Qed.

(** A specification that is a bare identifier, and one that is an
    identifier with a tag. *)
Lemma words_bare s :
  Py.all_chars Py.is_word s = true ->
  count_char ":" s = 0 /\ count_char "}" s = 0 /\
  before_sep s = s /\ after_sep s = None.
Proof.
  induction s as [|c s IH]; simpl; auto.
  intros H. apply andb_prop in H as [Hc Hs].
  destruct (word_not_special _ Hc) as [-> ->].
  destruct (IH Hs) as (-> & -> & -> & ->). auto.
Qed.

Lemma words_tagged s t :
  Py.all_chars Py.is_word s = true ->
  count_char ":" (s ++ String ":" t) = S (count_char ":" t) /\
  count_char "}" (s ++ String ":" t) = count_char "}" t /\
  before_sep (s ++ String ":" t) = s /\ after_sep (s ++ String ":" t) = Some t.
Proof.
  induction s as [|c s IH]; simpl; auto.
  intros H. apply andb_prop in H as [Hc Hs].
  destruct (word_not_special _ Hc) as [-> ->].
  destruct (IH Hs) as (-> & -> & -> & ->). auto.
Qed.

Lemma clean_bare name : Py.isidentifier name = true -> clean (Param name) = true.
Proof.
  intros Hid. destruct (words_bare _ (identifier_words _ Hid)) as (H1 & H2 & H3 & H4).
  unfold clean, spec_ok, tag_of, name_of. now rewrite H1, H2, H3, H4, Hid.
Qed.

Lemma clean_word name :
  Py.isidentifier name = true -> clean (Param (name ++ ":word")) = true.
Proof.
  intros Hid.
  destruct (words_tagged name "word" (identifier_words _ Hid)) as (H1 & H2 & H3 & H4).
  unfold clean, spec_ok, tag_of, name_of. now rewrite H1, H2, H3, H4, Hid.
Qed.

(** Literal nodes match their own text and go on. *)
Lemma m_literals p rest pos s g k :
  Re.seq_with Re.m_node (literals p ++ rest)%list pos (p ++ s) g k
  = Re.seq_with Re.m_node rest (pos + String.length p) s g k.
Proof.
  revert pos. induction p as [|c p IH]; intros pos; simpl.
  - now rewrite Nat.add_0_r.
  - rewrite Ascii.eqb_refl, IH. now rewrite Nat.add_succ_r.
Qed.

Lemma star_none cs s : forall pos g k,
  (forall p t h, String.length t <= String.length s -> k p t h = None) ->
  Re.star cs pos s g k = None.
Proof.
  induction s as [|c s IH]; intros pos g k Hk; simpl.
  - now apply Hk.
  - rewrite IH by (intros; apply Hk; simpl; lia).
    rewrite Hk by auto. now destruct (Re.accepts cs c).
Qed.

(** When what follows cannot match anything shorter, the greedy run gives
    all of it back. *)
Lemma star_fallback cs s pos g k :
  (forall p t h, String.length t < String.length s -> k p t h = None) ->
  Re.star cs pos s g k = k pos s g.
Proof.
  intros Hk. destruct s as [|c s]; simpl; auto.
  rewrite star_none by (intros; apply Hk; simpl; lia).
  now destruct (Re.accepts cs c).
Qed.

Lemma tail_needs_length post pos t g k :
  String.length t < String.length post ->
  Re.seq_with Re.m_node (literals post ++ [Re.Eol])%list pos t g k = None.
Proof.
  intros Hlen.
  destruct (Re.seq_with Re.m_node _ pos t g k) as [res|] eqn:E; auto.
  apply seq_sound in E as (u & s' & g' & -> & Hm & _).
  - apply seq_matches_app in Hm as (u1 & u2 & g1 & -> & Hl & _).
    apply literals_match in Hl as [-> _].
    rewrite !length_append in Hlen. lia.
  - apply Forall_forall. intros n _. apply node_sound.
Qed.

(** [\w+] between two literal texts takes a single word character. *)
Lemma match_word_single pre name c post :
  Py.is_word c = true ->
  Re.match_ (literals pre ++ Re.Group name (body_of "\w+") :: literals post ++ [Re.Eol])%list
            (pre ++ String c post)
  = Some [(name, String c EmptyString)].
Proof.
  intros Hc. unfold Re.match_, Re.m_seq. rewrite m_literals.
  cbv [body_of]. simpl. rewrite Hc.
  rewrite star_fallback.
  - assert (L : forall pos g k,
               Re.seq_with Re.m_node (literals post ++ [Re.Eol])%list pos post g k
               = Re.seq_with Re.m_node [Re.Eol] (pos + String.length post) "" g k).
    { intros. rewrite <- (m_literals post [Re.Eol]). now rewrite append_nil_r. }
    rewrite L.
    replace (S (String.length pre) - String.length pre) with 1 by lia.
    destruct post; reflexivity.
  - intros p t h Hlen. now apply tail_needs_length.
Qed.

(** [[^/].+] between two literal texts does not fit a single character. *)
Lemma match_str_single pre name c post :
  Re.match_ (literals pre ++ Re.Group name (body_of "[^/].+") :: literals post ++ [Re.Eol])%list
            (pre ++ String c post)
  = None.
Proof.
  destruct (Re.match_ _ _) as [g|] eqn:E; auto.
  apply match_sound in E as (t & s' & Htext & Hm).
  apply seq_matches_app in Hm as (t1 & t2 & g1 & -> & Hl & Hm).
  apply literals_match in Hl as [-> _].
  destruct Hm as (u1 & u2 & g2 & -> & (g3 & Hbody & _) & Hm).
  apply seq_matches_app in Hm as (v1 & v2 & g4 & -> & Hl & _).
  apply literals_match in Hl as [-> _].
  apply str_fragment_length in Hbody.
  apply (f_equal String.length) in Htext.
  rewrite !length_append in Htext. simpl in Htext. lia.
Qed.
End OneParameter.

(** ** The default type and [word] on a single character *)

Section DefaultType.
Context {World Response Ctx : Type}.
Implicit Types (request : Request).

Lemma render_one pre spec post :
  render [Text pre; Param spec; Text post] = pre ++ "{" ++ spec ++ "}" ++ post.
Proof.
  cbn [render render_segment]. rewrite append_nil_r.
  f_equal. cbn [append]. f_equal. now rewrite append_assoc.
Qed.

Lemma in_param_names spec segs : In (Param spec) segs -> In (name_of spec) (param_names segs).
Proof.
  intros H. unfold param_names. apply in_flat_map.
  exists (Param spec). split; auto. now left.
Qed.

(** A default-typed parameter of a rule captures two characters or more,
    whenever the route matches. *)
Lemma default_type_capture (self : Router.t World Response Ctx) segs name methods h :
  Router.routes self = [] ->
  Forall (fun seg => clean seg = true) segs ->
  NoDup (param_names segs) ->
  In (Param name) segs ->
  count_char ":" name = 0 ->
  exists rt,
    Router._route self (render segs) methods h = Return rt /\
    forall request h' request',
      Router.match_ rt request = (Return (Some h'), request') ->
      exists a t,
        args request' = Some a /\
        Py.get name a = Some (VStr t) /\
        2 <= String.length t.
Proof.
  intros Hroutes Hclean Hnd Hin Hbare.
  eexists. split; [now apply route_of_clean_rule|].
  intros request h' request' Hm.
  apply match_parameters in Hm
    as (route & m & a & Hr & _ & Hre & _ & -> & Hcast & _).
  rewrite Hroutes in Hr. destruct Hr as [<-|[]]. cbn [Router.pattern Router.casts] in *.
  pose proof (before_sep_none _ Hbare) as Hname.
  pose proof (after_sep_none _ Hbare) as Htag.
  assert (Hn : name_of name = name) by exact Hname.
  assert (Ht : tag_of name = "str") by (unfold tag_of; now rewrite Htag).
  destruct (Hcast name) as (c & x & Hc & Hx & Ha).
  { rewrite group_names_app, group_names_nodes_of by assumption.
    apply in_or_app. left. rewrite <- Hn. now apply in_param_names. }
  rewrite <- Hn in Hc at 1.
  rewrite casts_onto_param in Hc by (auto; now rewrite Ht).
  rewrite Ht in Hc. inversion Hc; subst c.
  apply match_sound in Hre as (t & s' & _ & Hsem).
  apply seq_matches_app in Hsem as (t1 & t2 & g1 & -> & Hsem & Hend).
  destruct Hend as (u1 & u2 & g2 & -> & [_ ->] & [_ ->]).
  destruct (nodes_of_captures Hclean Hnd _ _ _ Hsem) as [_ Hcap].
  destruct (Hcap _ Hin) as (frag & tn & ga & gb & Hf & Hg & Hbody).
  rewrite Ht in Hf. inversion Hf; subst frag.
  rewrite Hn in Hg. rewrite Hg in Hx. inversion Hx; subst x.
  exists a, tn. repeat split; auto.
  eapply str_fragment_length; eassumption.
Qed.

Lemma nodes_one pre spec post frag :
  Py.get (tag_of spec) PATTERNS = Some frag ->
  (nodes_of [Text pre; Param spec; Text post] ++ [Re.Eol])%list
  = (literals pre ++ Re.Group (name_of spec) (body_of frag) :: literals post ++ [Re.Eol])%list.
Proof.
  intros Hf. unfold nodes_of. cbn [flat_map nodes_of_segment]. rewrite Hf.
  rewrite app_nil_r, <- !app_assoc. reflexivity.
Qed.

Lemma group_names_one pre name post t frag :
  Py.get t PATTERNS = Some frag ->
  Re.group_names (literals pre ++ Re.Group name (body_of frag)
                           :: literals post ++ [Re.Eol])%list
  = [name].
Proof.
  intros Hf.
  change (literals pre ++ Re.Group name (body_of frag) :: literals post ++ [Re.Eol])%list
    with (literals pre ++ [Re.Group name (body_of frag)] ++ literals post ++ [Re.Eol])%list.
  rewrite !group_names_app, !group_names_literals.
  unfold Re.group_names at 1. cbn [flat_map Re.names_of].
  fold (Re.group_names (body_of frag)).
  erewrite fragment_names by eassumption. reflexivity.
Qed.

(** The router with the one route of [pre{spec}post], on a request for
    [pre], one character and [post] behind the prefix of the router. *)
Lemma one_parameter_route (self : Router.t World Response Ctx)
      pre spec post frag cst c methods h request :
  Router.routes self = [] ->
  Router.domain self = None ->
  plain pre = true -> plain post = true ->
  clean (Param spec) = true ->
  Py.get (tag_of spec) PATTERNS = Some frag ->
  Py.get (tag_of spec) CASTS = Some cst ->
  Py.contains (method request) methods = true ->
  path request = Router.prefix self ++ pre ++ String c post ->
  exists rt,
    Router._route self (pre ++ "{" ++ spec ++ "}" ++ post) methods h = Return rt /\
    Router.match_ rt request
    = match Re.match_ (literals pre ++ Re.Group (name_of spec) (body_of frag)
                                :: literals post ++ [Re.Eol])%list
                      (pre ++ String c post) with
      | Some m =>
          match Router.cast_loop [(name_of spec, cst)]
                                 [(name_of spec, Py.get (name_of spec) m)]
                                 (with_args request []) [] with
          | (Return _, request') =>
              (Return (Some (Router._apply_filter rt h)), request')
          | (Raise e, request') => (Raise e, request')
          end
      | None => (Return None, request)
      end.
Proof.
  intros Hroutes Hdom Hpre Hpost Hspec Hf Hc Hmeth Hpath.
  rewrite <- render_one.
  eexists. split.
  - apply route_of_clean_rule.
    + repeat constructor; assumption.
    + cbn. repeat constructor. intros [].
  - unfold Router.match_, Router._domain_match, Router._prefix_match, Py.startswith.
    cbn [Router.domain Router.prefix Router.routes Router.with_routes].
    rewrite Hdom, Hpath, prefix_append, Hroutes.
    cbn [app Router.match_loop Router.methods Router.pattern Router.casts Router.handler
             Router.prefix Router.with_routes].
    rewrite Hmeth, Hpath, replace_first_prefix.
    erewrite nodes_one by eassumption.
    destruct (Re.match_ _ _) as [m|]; auto.
    unfold Re.groupdict. erewrite group_names_one by eassumption.
    cbn [map casts_onto].
    rewrite Hc. reflexivity.
Qed.

(** C1: on a router with no domain and no other route, for a rule whose
    literal text is plain (no character that [re] or the rule scan reads
    specially) and whose parameters are well formed with distinct identifier
    names: whenever the route matches, the text captured for a default-typed
    parameter [{name}] has two characters or more.  So with one such
    parameter between two plain literal texts and an allowed method, a path
    holding a single character in the place of the parameter does not match;
    the same path matches the rule with [{name:word}] when the character is
    a word character, and the parameter is then that character. *)
Theorem default_type_needs_two_characters (self : Router.t World Response Ctx) methods h :
  Router.routes self = [] ->
  Router.domain self = None ->
  (forall segs name,
      Forall (fun seg => clean seg = true) segs ->
      NoDup (param_names segs) ->
      In (Param name) segs ->
      count_char ":" name = 0 ->
      exists rt,
        Router._route self (render segs) methods h = Return rt /\
        forall request h' request',
          Router.match_ rt request = (Return (Some h'), request') ->
          exists a t,
            args request' = Some a /\
            Py.get name a = Some (VStr t) /\
            2 <= String.length t) /\
  (forall pre name post c request,
      plain pre = true -> plain post = true ->
      Py.isidentifier name = true ->
      Py.contains (method request) methods = true ->
      path request = Router.prefix self ++ pre ++ String c post ->
      (exists rt,
          Router._route self (pre ++ "{" ++ name ++ "}" ++ post) methods h = Return rt /\
          Router.match_ rt request = (Return None, request)) /\
      (Py.is_word c = true ->
       exists rt,
         Router._route self (pre ++ "{" ++ name ++ ":word}" ++ post) methods h = Return rt /\
         Router.match_ rt request
         = (Return (Some (Router._apply_filter rt h)),
            with_args request [(name, VStr (String c EmptyString))]))).
Proof.
  intros Hroutes Hdom. split.
  - intros segs name Hclean Hnd Hin Hbare. now apply default_type_capture.
  - intros pre name post c request Hpre Hpost Hid Hmeth Hpath.
    pose proof (identifier_words _ Hid) as Hw. split.
    + destruct (words_bare _ Hw) as (_ & _ & Hn & Ht).
      destruct (@one_parameter_route self pre name post "[^/].+" py_str c methods h request)
        as (rt & Hreg & Hm); auto using clean_bare;
        try (unfold tag_of; now rewrite Ht).
      exists rt. split; auto.
      rewrite Hm. now rewrite match_str_single.
    + intros Hc.
      destruct (words_tagged name "word" Hw) as (_ & _ & Hn & Ht).
      assert (E : pre ++ "{" ++ name ++ ":word}" ++ post
                  = pre ++ "{" ++ (name ++ ":word") ++ "}" ++ post).
      { f_equal. cbn [append]. f_equal. now rewrite append_assoc. }
      rewrite E.
      destruct (@one_parameter_route self pre (name ++ ":word") post "\w+" py_str c
                                      methods h request)
        as (rt & Hreg & Hm); auto using clean_word;
        try (unfold tag_of; now rewrite Ht).
      exists rt. split; auto.
      rewrite Hm. unfold name_of. rewrite Hn.
      rewrite match_word_single by assumption.
      cbn [Router.cast_loop Py.get]. rewrite String.eqb_refl.
      unfold subscript. cbn [Py.get]. rewrite String.eqb_refl. reflexivity.
Qed.
End DefaultType.

(** ** The default type across path separators *)

(** C6, on the code: the rule [/items/{name}] matches the path
    [/items/ab/cd], and the value captured for [name] is [ab/cd], which
    holds a separator. *)
Lemma default_type_spans_separator :
  exists rt,
    Router.route empty_router "/items/{name}" None (answering "h")
    = Return (rt, answering "h") /\
    Router.match_ rt (get_request "/items/ab/cd")
    = (Return (Some (Router._apply_filter rt (answering "h"))),
       with_args (get_request "/items/ab/cd") [("name", VStr "ab/cd")]) /\
    count_char "/" "ab/cd" = 1.
Proof. eexists. repeat split. Qed.

(** [word] on a character that is no word character: the rule
    [/items/{name:word}] does not match the path [/items/-], whose portion
    in the place of the parameter is the single character [-]. *)
Lemma word_refuses_other_characters :
  Py.is_word "-" = false /\
  exists rt,
    Router._route (@empty_router (list string) string unit) "/items/{name:word}"
                  Router.default_methods (answering "h") = Return rt /\
    Router.match_ rt (get_request "/items/-") = (Return None, get_request "/items/-").
Proof. split; [reflexivity|]. eexists. split; reflexivity. Qed.

(** ** The statements on concrete routers *)

Lemma match_absent_leaves_request_witness :
  Router.match_ items_router (get_request "/missing")
  = (Return None, get_request "/missing") /\
  (Return None = Return None :> outcome (option (Router.Handler (list string) string unit)) ->
   get_request "/missing" = get_request "/missing").
Proof.
  split; [reflexivity|].
  exact (proj1 (@match_absent_leaves_request _ _ _ items_router (get_request "/missing")
                  (Return None) (get_request "/missing") eq_refl)).
Defined.

Lemma first_match_wins_witness :
  Router.match_ items_router (get_request "/items/socks")
  = (Return (Some (Router._apply_filter items_router (answering "first"))),
     with_args (get_request "/items/socks") [("name", VStr "socks")]) /\
  Application.__call__ (Application.__init__ tt (Some [about_router; items_router]))
                       (get_request "/items/socks") []
  = (Return "first", ["first"]).
Proof.
  split.
  - refine (proj1 (proj1 (@first_match_wins (list string) string unit)
                     empty_router
                     (firstn 1 (Router.routes items_router))
                     (nth 1 (Router.routes items_router)
                          (Router.mkRoute [] [] [] (answering "none")))
                     (skipn 2 (Router.routes items_router))
                     (get_request "/items/socks") _ _ _ _)).
    + repeat constructor.
    + reflexivity.
  - rewrite (proj2 (@first_match_wins (list string) string unit)
               (Application.__init__ tt (Some [about_router; items_router]))
               [about_router] items_router [] (get_request "/items/socks")
               (Router._apply_filter items_router (answering "first"))
               (with_args (get_request "/items/socks") [("name", VStr "socks")])).
    + reflexivity.
    + reflexivity.
    + repeat constructor.
    + reflexivity.
Defined.

Lemma unmatched_request_not_found_witness :
  Application.__call__ (Application.__init__ tt (Some [about_router; items_router]))
                       (get_request "/missing") []
  = (Raise (HTTPNotFound "no handler match"), []).
Proof.
  refine (proj1 (@unmatched_request_not_found (list string) string unit
                   (Application.__init__ tt (Some [about_router; items_router]))
                   (get_request "/missing") [] (fun _ => "404") _)).
  repeat constructor.
Defined.

Lemma add_filter_unchecked_witness :
  Router.filters (Router.add_filter about_router not_a_filter) = [not_a_filter] /\
  Router.__init__ "" None (Some [not_a_filter])
  = Raise (Exception "<object> is not a Filter").
Proof.
  destruct (@add_filter_unchecked (list string) string unit about_router not_a_filter
              Filter.before_request Filter.after_request "" None)
    as (H1 & _ & _ & H4).
  split; [exact H1|exact (H4 eq_refl)].
Defined.

Lemma register_extension_protocol_witness :
  (exists app2,
      Application.register_extension
        mounting_initialize counting_extension (Application.__init__ tt None, 0)
      = (Return tt, (app2, 1)) /\
      Application.extensions app2 = [("Counter", counting_extension)] /\
      Application.routers app2 = [empty_router]) /\
  Application.register_extension
    mounting_initialize bare_object (Application.__init__ tt None, 0)
  = (Return tt, (Application.__init__ tt None, 0)).
Proof.
  split.
  - destruct (@register_extension_protocol nat string unit mounting_initialize
                counting_extension (Application.__init__ tt None) 0)
      as (app2 & Hrun & Hreg & _ & _ & _ & _ & Hrouters & _).
    exists app2. split; [exact Hrun|]. split; [exact Hreg|exact Hrouters].
  - exact (@register_extension_protocol nat string unit mounting_initialize
             bare_object (Application.__init__ tt None) 0).
Defined.

Lemma match_casts_parameters_witness :
  exists route m a,
    In route (Router.routes items_router) /\
    Re.match_ (Router.pattern route) "/items/socks" = Some m /\
    Py.get "name" a = Some (VStr "socks").
Proof.
  destruct (proj2 (@match_casts_parameters (list string) string unit)
              items_router (get_request "/items/socks") _ _ eq_refl)
    as (route & m & a & Hin & _ & Hm & _ & Ha & _).
  exists route, m, a. repeat split; auto.
  now inversion Ha.
Defined.

(** Literal text is pattern text: with [*] in the literal text, the rule
    [/x*{name}] matches the path [/x*a] and gives [name] the value [*a],
    and the rule [/x*{name:word}] does not match that path. *)
Lemma literal_text_is_pattern_text :
  (exists rt,
      Router._route (@empty_router (list string) string unit) "/x*{name}"
                    Router.default_methods (answering "h") = Return rt /\
      Router.match_ rt (get_request "/x*a")
      = (Return (Some (Router._apply_filter rt (answering "h"))),
         with_args (get_request "/x*a") [("name", VStr "*a")])) /\
  (exists rt,
      Router._route (@empty_router (list string) string unit) "/x*{name:word}"
                    Router.default_methods (answering "h") = Return rt /\
      Router.match_ rt (get_request "/x*a") = (Return None, get_request "/x*a")).
Proof. split; eexists; split; reflexivity. Qed.

Lemma default_type_needs_two_characters_witness :
  (exists rt,
      Router._route (@empty_router (list string) string unit) "/items/{name}"
                    Router.default_methods (answering "h") = Return rt /\
      Router.match_ rt (get_request "/items/a") = (Return None, get_request "/items/a")) /\
  (exists rt,
      Router._route (@empty_router (list string) string unit) "/items/{name:word}"
                    Router.default_methods (answering "h") = Return rt /\
      Router.match_ rt (get_request "/items/a")
      = (Return (Some (Router._apply_filter rt (answering "h"))),
         with_args (get_request "/items/a") [("name", VStr "a")])) /\
  (exists rt,
      Router._route (@empty_router (list string) string unit)
                    (render [Text "/items/"; Param "name"; Text "/"; Param "id:int"])
                    Router.default_methods (answering "h") = Return rt /\
      exists a t,
        args (snd (Router.match_ rt (get_request "/items/ab/7"))) = Some a /\
        Py.get "name" a = Some (VStr t) /\ 2 <= String.length t).
Proof.
  pose proof (@default_type_needs_two_characters (list string) string unit
                empty_router Router.default_methods (answering "h") eq_refl eq_refl)
    as [Hany Hone].
  destruct (Hone "/items/" "name" "" "a"%char (get_request "/items/a")
                 eq_refl eq_refl eq_refl eq_refl eq_refl) as [Hstr Hword].
  split; [exact Hstr|]. split; [exact (Hword eq_refl)|].
  destruct (Hany [Text "/items/"; Param "name"; Text "/"; Param "id:int"] "name")
    as (rt & Hreg & Hall).
  - repeat constructor.
  - repeat constructor; simpl; intuition discriminate.
  - right. left. reflexivity.
  - reflexivity.
  - exists rt. split; [exact Hreg|].
    vm_compute in Hreg. injection Hreg as <-.
    eapply (Hall (get_request "/items/ab/7")). reflexivity.
Defined.

(** * Further properties of the code *)

(** ** The constructor of a router *)

Section RouterConstructor.
Context {World Response Ctx : Type}.
Implicit Types (fls ok rest : list (Filter.object World Response Ctx)).
Implicit Types (bad : Filter.object World Response Ctx).

Lemma check_filters_all fls : forall acc,
  Forall (fun fl => Filter.isinstance_Filter fl = true) fls ->
  Router.check_filters fls acc = Return (acc ++ fls)%list.
Proof.
  induction fls as [|fl fls IH]; intros acc H; simpl.
  - now rewrite app_nil_r.
  - inversion H as [|? ? Hfl Hrest]; subst. rewrite Hfl, IH by assumption.
    now rewrite <- app_assoc.
Qed.

Lemma check_filters_first_bad ok bad rest : forall acc,
  Forall (fun fl => Filter.isinstance_Filter fl = true) ok ->
  Filter.isinstance_Filter bad = false ->
  Router.check_filters (ok ++ bad :: rest)%list acc
  = Raise (Exception (Filter.str_of bad ++ " is not a Filter")).
Proof.
  induction ok as [|fl ok IH]; intros acc H Hbad; simpl.
  - now rewrite Hbad.
  - inversion H as [|? ? Hfl Hrest]; subst. rewrite Hfl. now apply IH.
Qed.

(** X1: the constructor keeps a list of [Filter] instances as it is given,
    in its order, and starts with no route; a list that holds an object that
    is no [Filter] is refused with the text of the first such object, however
    many filters stand before it or objects after it. *)
Theorem router_init_validates_filters prefix domain ok bad rest :
  Forall (fun fl => Filter.isinstance_Filter fl = true) ok ->
  Filter.isinstance_Filter bad = false ->
  Router.__init__ prefix domain (Some ok)
  = Return (Router.mkRouter [] domain prefix ok) /\
  Router.__init__ prefix domain (Some (ok ++ bad :: rest)%list)
  = Raise (Exception (Filter.str_of bad ++ " is not a Filter")).
Proof.
  intros Hok Hbad. unfold Router.__init__. split.
  - now rewrite check_filters_all.
  - now rewrite check_filters_first_bad.
Qed.
End RouterConstructor.

Lemma router_init_validates_filters_witness :
  Router.__init__ "/x" None (Some [Filter.new; as_filter (logging "F")])
  = Return (Router.mkRouter [] None "/x" [Filter.new; as_filter (logging "F")]) /\
  Router.__init__ "/x" None
                  (Some ([Filter.new; as_filter (logging "F")]
                           ++ not_a_filter :: [Filter.new])%list)
  = Raise (Exception "<object> is not a Filter").
Proof.
  apply (@router_init_validates_filters (list string) string unit "/x" None
           [Filter.new; as_filter (logging "F")] not_a_filter [Filter.new]).
  - repeat constructor.
  - reflexivity.
Defined.

(** ** The prefix and the domain of a router *)

Section PrefixAndDomain.
Context {World Response Ctx : Type}.
Implicit Types (self : Router.t World Response Ctx) (request : Request).

Lemma prefix_split p s : String.prefix p s = true -> exists x, s = p ++ x.
Proof.
  revert s. induction p as [|c p IH]; intros s; simpl.
  - exists s. reflexivity.
  - destruct s as [|c' s]; simpl; try discriminate.
    destruct (ascii_dec c c'); try discriminate.
    intros H. apply IH in H as [x ->]. exists x. now subst.
Qed.

(** X2: when the prefix test passes, the text the routes are matched
    against is what stands behind the prefix at the start of the path: the
    prefix and that text make up the path again. *)
Theorem prefix_is_cut_at_the_start self request :
  Router._prefix_match self request = true ->
  Router.prefix self ++ Py.replace_first (Router.prefix self) (path request)
  = path request.
Proof.
  unfold Router._prefix_match, Py.startswith. intros H.
  apply prefix_split in H as [x Hx]. rewrite Hx.
  now rewrite replace_first_prefix.
Qed.

Lemma compile_plain d : plain d = true -> Re.compile d = Re.Compiled (literals d).
Proof.
  intros H. unfold Re.compile.
  rewrite <- (append_nil_r d) at 1. rewrite parse_plain by assumption.
  simpl. now rewrite app_nil_r, rev_involutive.
Qed.

Lemma match_literals_prefix d : forall text pos g,
  Re.seq_with Re.m_node (literals d) pos text g (fun _ _ h => Some h)
  = if String.prefix d text then Some g else None.
Proof.
  induction d as [|c d IH]; intros text pos g; simpl.
  - now destruct text.
  - destruct text as [|c' text]; auto.
    rewrite IH. cbn [String.prefix]. destruct (ascii_dec c c') as [->|Hne].
    + now rewrite Ascii.eqb_refl.
    + destruct (Ascii.eqb_spec c' c); auto. subst; contradiction.
Qed.

(** X3: a domain written in plain characters is tested against the start of
    the host only: the router takes every host that begins with it. *)
Theorem plain_domain_is_a_host_prefix self request d :
  Router.domain self = Some d ->
  plain d = true ->
  Router._domain_match self request = Return (String.prefix d (host request)).
Proof.
  intros Hd Hp. unfold Router._domain_match. rewrite Hd, compile_plain by assumption.
  unfold Re.match_, Re.m_seq. rewrite match_literals_prefix.
  now destruct (String.prefix d (host request)).
Qed.
End PrefixAndDomain.

Lemma prefix_is_cut_at_the_start_witness :
  Router.prefix api_router
  ++ Py.replace_first (Router.prefix api_router) (path (get_request "/api/api/users"))
  = "/api/api/users".
Proof.
  apply (@prefix_is_cut_at_the_start (list string) string unit api_router
           (get_request "/api/api/users")).
  reflexivity.
Defined.

Lemma plain_domain_is_a_host_prefix_witness :
  Router._domain_match api_router (request_for "example.com.evil.org" "/api/users")
  = Return true.
Proof.
  apply (@plain_domain_is_a_host_prefix (list string) string unit api_router
           (request_for "example.com.evil.org" "/api/users") "example");
    reflexivity.
Defined.

(** ** Rules the scan or [re.compile] treats specially *)

Section SpecialRules.
Context {World Response Ctx : Type}.
Implicit Types (self : Router.t World Response Ctx).

Lemma loop_unclosed tail : forall pattern acc casts,
  count_char "}" tail = 0 ->
  Router._rule_parse_loop tail pattern acc casts true
  = Return (Py.join pattern ++ "$", casts).
Proof.
  induction tail as [|c tail IH]; intros pattern acc casts; simpl; auto.
  rewrite andb_false_r.
  destruct (Ascii.eqb c "}"); simpl; try discriminate.
  intros H. now apply IH.
Qed.

(** X4: an opening brace that is never closed, and all the text behind it,
    leave no trace: the rule registers exactly as the rule cut off in front
    of that brace. *)
Theorem unclosed_brace_is_dropped self segs tail methods h :
  Forall (fun seg => segment_ok seg = true) segs ->
  count_char "}" tail = 0 ->
  Router._route self (render segs ++ "{" ++ tail) methods h
  = Router._route self (render segs) methods h.
Proof.
  intros Hsegs Htail. unfold Router._route.
  rewrite (rule_parse_ok Hsegs). unfold Router._rule_parse.
  destruct (loop_segments_ok ("{" ++ tail) [] [] Hsegs) as (p' & Hj & ->).
  simpl. rewrite loop_unclosed by assumption.
  now rewrite Hj.
Qed.

Lemma parse_name_any_char c rest acc stack cur names :
  Ascii.eqb c ">" = false ->
  Re.parse (String c rest) (Re.Name acc) stack cur names
  = Re.parse rest (Re.Name (acc ++ String c EmptyString)) stack cur names.
Proof.
  destruct c as [[] [] [] [] [] [] [] []]; intros H;
    solve [discriminate H | reflexivity].
Qed.

Lemma parse_name_any s rest : forall acc stack cur names,
  count_char ">" s = 0 ->
  Re.parse (s ++ rest) (Re.Name acc) stack cur names
  = Re.parse rest (Re.Name (acc ++ s)) stack cur names.
Proof.
  induction s as [|c s IH]; intros acc stack cur names; cbn [append count_char].
  - now rewrite append_nil_r.
  - destruct (Ascii.eqb c ">") eqn:Hc; try discriminate.
    intros H. rewrite parse_name_any_char, IH by assumption.
    now rewrite append_assoc.
Qed.

(** What [re.compile] does with the opening of a named group. *)
Lemma parse_group_open_any name rest stack cur names :
  count_char ">" name = 0 ->
  Re.is_ascii_text name = true ->
  Re.parse ("(?P<" ++ name ++ ">" ++ rest) Re.Normal stack cur names
  = match name with
    | EmptyString => Re.Invalid "missing group name"
    | _ =>
        if negb (Py.isidentifier name) then Re.Invalid "bad character in group name"
        else if Py.contains name names then Re.Invalid "redefinition of group name"
        else Re.parse rest Re.Normal ((name, cur) :: stack) [] (names ++ [name])%list
    end.
Proof.
  intros Hgt Hascii.
  change (Re.parse ("(?P<" ++ name ++ ">" ++ rest) Re.Normal stack cur names)
    with (Re.parse (name ++ ">" ++ rest) (Re.Name EmptyString) stack cur names).
  rewrite parse_name_any by assumption.
  cbn [append Re.parse]. rewrite Hascii. cbn [negb].
  destruct name; reflexivity.
Qed.

Lemma pattern_of_app a b : pattern_of (a ++ b)%list = pattern_of a ++ pattern_of b.
Proof.
  induction a as [|seg a IH]; simpl; auto.
  now rewrite IH, append_assoc.
Qed.

(** [re.compile] on the pattern of a rule, up to the group of one of its
    parameters. *)
Lemma compile_up_to good spec rest frag :
  Forall (fun seg => clean seg = true) good ->
  NoDup (param_names good) ->
  Py.get (tag_of spec) PATTERNS = Some frag ->
  Re.compile (pattern_of (good ++ Param spec :: rest)%list ++ "$")
  = Re.parse ("(?P<" ++ name_of spec ++ ">" ++ (frag ++ ")" ++ pattern_of rest ++ "$"))
             Re.Normal [] (rev (nodes_of good)) (param_names good).
Proof.
  intros Hgood Hnd Hf. unfold Re.compile.
  rewrite pattern_of_app, append_assoc, parse_segments by assumption.
  rewrite app_nil_r. cbn [app pattern_of fragment_of]. rewrite Hf.
  f_equal. cbn [append]. do 4 f_equal.
  rewrite !append_assoc. f_equal. cbn [append]. f_equal.
  now rewrite !append_assoc.
Qed.

Lemma contains_true x l : In x l -> Py.contains x l = true.
Proof.
  unfold Py.contains. intros H. apply existsb_exists.
  exists x. split; auto. apply String.eqb_refl.
Qed.

Lemma forall_ok_app good spec rest :
  Forall (fun seg => clean seg = true) good ->
  segment_ok (Param spec) = true ->
  Forall (fun seg => segment_ok seg = true) rest ->
  Forall (fun seg => segment_ok seg = true) (good ++ Param spec :: rest)%list.
Proof.
  intros Hgood Hspec Hrest. apply Forall_app. split.
  - eapply Forall_impl; [|exact Hgood]. apply clean_ok.
  - now constructor.
Qed.

Lemma ok_fragment spec :
  segment_ok (Param spec) = true ->
  exists frag, Py.get (tag_of spec) PATTERNS = Some frag.
Proof.
  unfold segment_ok. intros H. apply andb_prop in H as [_ Hok].
  destruct (spec_parse_ok _ Hok) as (frag & _ & Hf & _). eauto.
Qed.


(** X6: take a rule whose parts in front of a parameter are plain literal
    text and well-formed parameters with distinct identifier names, and whose
    parts behind it are literal text without an opening brace and
    specifications [_spec_parse] accepts.  If the parameter is well formed
    and its name is the name of a parameter in front of it, the rule is
    refused when it is registered: [re.compile] reports the redefinition of
    the group. *)
Theorem repeated_name_is_refused self good spec rest methods h :
  Forall (fun seg => clean seg = true) good ->
  NoDup (param_names good) ->
  clean (Param spec) = true ->
  Forall (fun seg => segment_ok seg = true) rest ->
  In (name_of spec) (param_names good) ->
  Router._route self (render (good ++ Param spec :: rest)%list) methods h
  = Raise (re_error "redefinition of group name").
Proof.
  intros Hgood Hnd Hspec Hrest Hin.
  pose proof (clean_ok _ Hspec) as Hok.
  destruct (ok_fragment _ Hok) as [frag Hf].
  cbn [clean] in Hspec. apply andb_prop in Hspec as [Hspec _].
  apply andb_prop in Hspec as [_ Hid].
  pose proof (identifier_words _ Hid) as Hw.
  unfold Router._route.
  rewrite (rule_parse_ok (@forall_ok_app good spec rest Hgood Hok Hrest)).
  rewrite (@compile_up_to good spec rest frag) by assumption.
  rewrite parse_group_open_any.
  - rewrite Hid, (contains_true _ _ Hin). cbn [negb].
    now destruct (name_of spec).
  - clear - Hw. induction (name_of spec) as [|c s IH]; simpl in *; auto.
    apply andb_prop in Hw as [Hc Hs]. rewrite (IH Hs).
    destruct (Ascii.eqb_spec c ">"); auto. subst; discriminate.
  - now apply words_ascii.
Qed.
End SpecialRules.

Lemma unclosed_brace_is_dropped_witness :
  Router._route (@empty_router (list string) string unit)
                (render [Text "/items/"; Param "id:int"] ++ "{" ++ "name/extra")
                Router.default_methods (answering "h")
  = Router._route empty_router "/items/{id:int}" Router.default_methods (answering "h").
Proof.
  apply (@unclosed_brace_is_dropped (list string) string unit empty_router
           [Text "/items/"; Param "id:int"] "name/extra").
  - repeat constructor.
  - reflexivity.
Defined.


Lemma repeated_name_is_refused_witness :
  Router._route (@empty_router (list string) string unit) "/{id:int}/to/{id:word}/x"
                Router.default_methods (answering "h")
  = Raise (re_error "redefinition of group name").
Proof.
  apply (@repeated_name_is_refused (list string) string unit empty_router
           [Text "/"; Param "id:int"; Text "/to/"] "id:word" [Text "/x"]);
    try reflexivity; try (left; reflexivity); repeat constructor; intros [].
Defined.

(** ** Patterns are anchored at the end *)

Section EndAnchor.

Lemma star_ext cs s : forall pos g k k',
  (forall p t h, k p t h = k' p t h) ->
  Re.star cs pos s g k = Re.star cs pos s g k'.
Proof.
  induction s as [|c s IH]; intros pos g k k' H; simpl; auto.
  rewrite (IH _ _ _ _ H), H. reflexivity.
Qed.

Lemma seq_with_ext ns :
  Forall (fun n => forall pos s g k k',
              (forall p t h, k p t h = k' p t h) ->
              Re.m_node n pos s g k = Re.m_node n pos s g k') ns ->
  forall pos s g k k',
    (forall p t h, k p t h = k' p t h) ->
    Re.seq_with Re.m_node ns pos s g k = Re.seq_with Re.m_node ns pos s g k'.
Proof.
  induction 1 as [|n ns Hn _ IH]; intros pos s g k k' H; simpl.
  - apply H.
  - apply Hn. intros p t h. now apply IH.
Qed.

(** The matcher looks at its continuation through its results only. *)
Lemma m_node_ext n : forall pos s g k k',
  (forall p t h, k p t h = k' p t h) ->
  Re.m_node n pos s g k = Re.m_node n pos s g k'.
Proof.
  induction n as [cs q| | |name body IH] using node_induction;
    intros pos s g k k' H; simpl.
  - destruct q; simpl.
    + destruct s as [|c s]; auto. now rewrite H.
    + destruct s as [|c s]; auto. now rewrite (star_ext _ _ _ _ _ _ H).
    + apply star_ext, H.
    + destruct s as [|c s]; auto. now rewrite !H.
  - now rewrite H.
  - now rewrite H.
  - apply (seq_with_ext IH). intros p t h. apply H.
Qed.

Lemma seq_with_app a b : forall pos s g k,
  Re.seq_with Re.m_node (a ++ b)%list pos s g k
  = Re.seq_with Re.m_node a pos s g
                (fun p t h => Re.seq_with Re.m_node b p t h k).
Proof.
  induction a as [|n a IH]; intros pos s g k; simpl; auto.
  apply m_node_ext. intros p t h. apply IH.
Qed.

Lemma at_end_cases s :
  Re.at_end s = true -> s = EmptyString \/ s = newline_text.
Proof.
  destruct s as [|c [|c' s]]; simpl; auto; try discriminate.
  intros H. apply Ascii.eqb_eq in H. subst. now right.
Qed.

(** A pattern that ends in [$] matches a text only up to its end, or up to
    one newline that ends it. *)
Lemma match_end_anchored ns text g :
  Re.match_ (ns ++ [Re.Eol])%list text = Some g ->
  exists t s',
    text = t ++ s' /\ (s' = EmptyString \/ s' = newline_text) /\
    Lang.seq_matches ns t [] g.
Proof.
  unfold Re.match_, Re.m_seq. rewrite seq_with_app. intros H.
  apply seq_sound in H as (t & s' & g' & -> & Hm & H).
  - simpl in H. destruct (Re.at_end s') eqn:E; try discriminate.
    inversion H; subst. exists t, s'. auto using at_end_cases.
  - apply Forall_forall. intros n _. apply node_sound.
Qed.

Lemma eqb_append_l p x y : String.eqb (p ++ x) (p ++ y) = String.eqb x y.
Proof.
  induction p as [|c p IH]; simpl; auto. now rewrite Ascii.eqb_refl.
Qed.

Lemma eqb_not_prefixed p s y : String.prefix p s = false -> String.eqb s (p ++ y) = false.
Proof.
  intros H. destruct (String.eqb_spec s (p ++ y)); auto.
  subst. now rewrite prefix_append in H.
Qed.

(** Literal nodes closed by [$]: the text itself, or the text and a newline. *)
Lemma match_literals_exact s : forall x pos g,
  Re.seq_with Re.m_node (literals s ++ [Re.Eol])%list pos x g (fun _ _ h => Some h)
  = if String.eqb x s || String.eqb x (s ++ newline_text) then Some g else None.
Proof.
  induction s as [|c s IH]; intros x pos g.
  - simpl. destruct x as [|c' [|c'' x]]; simpl; auto;
      destruct (Ascii.eqb c' Re.newline); reflexivity.
  - cbn [literals app Re.seq_with Re.m_node Re.m_chars Re.accepts append].
    destruct x as [|c' x]; auto.
    rewrite IH. simpl. destruct (Ascii.eqb c' c); reflexivity.
Qed.
End EndAnchor.

Section LiteralRules.
Context {World Response Ctx : Type}.
Implicit Types (self : Router.t World Response Ctx) (request : Request).

(** X7: a rule of plain text answers exactly the requests whose method is
    allowed and whose path is the prefix of the router followed by that text,
    or by that text and one final newline; it then sets an empty parameters
    map; every other request gets the absent result. *)
Theorem literal_rule_matches_exactly self s methods h request :
  Router.routes self = [] ->
  Router.domain self = None ->
  plain s = true ->
  exists rt,
    Router._route self s methods h = Return rt /\
    Router.match_ rt request
    = if Py.contains (method request) methods
         && (String.eqb (path request) (Router.prefix self ++ s)
             || String.eqb (path request) (Router.prefix self ++ s ++ newline_text))
      then (Return (Some (Router._apply_filter rt h)), with_args request [])
      else (Return None, request).
Proof.
  intros Hroutes Hdom Hs.
  assert (Hclean : Forall (fun seg => clean seg = true) [Text s])
    by (repeat constructor; assumption).
  assert (Hnd : NoDup (param_names [Text s])) by constructor.
  pose proof (@route_of_clean_rule _ _ _ self [Text s] methods h Hclean Hnd) as Hreg.
  cbn [render render_segment] in Hreg. rewrite append_nil_r in Hreg.
  eexists. split; [exact Hreg|].
  unfold Router.match_, Router._domain_match, Router._prefix_match, Py.startswith.
  cbn [Router.domain Router.prefix Router.routes Router.with_routes].
  rewrite Hdom, Hroutes.
  destruct (String.prefix (Router.prefix self) (path request)) eqn:Hp.
  - apply prefix_split in Hp as [x Hx].
    cbn [app Router.match_loop Router.methods Router.pattern Router.casts Router.handler
             Router.prefix Router.with_routes].
    rewrite Hx, replace_first_prefix, !eqb_append_l.
    destruct (Py.contains (method request) methods); auto.
    unfold nodes_of. cbn [flat_map nodes_of_segment]. rewrite !app_nil_r.
    unfold Re.match_, Re.m_seq. rewrite match_literals_exact.
    unfold Re.groupdict. rewrite group_names_app, group_names_literals.
    destruct (String.eqb x s || String.eqb x (s ++ newline_text)); reflexivity.
  - rewrite !eqb_not_prefixed by assumption. now rewrite andb_false_r.
Qed.
End LiteralRules.

Lemma literal_rule_matches_exactly_witness :
  exists rt,
    Router._route (Router.mkRouter [] None "/api" []) "/users"
                  Router.default_methods (answering "users") = Return rt /\
    Router.match_ rt (get_request "/api/users")
    = (Return (Some (Router._apply_filter rt (answering "users"))),
       with_args (get_request "/api/users") []) /\
    Router.match_ rt (get_request "/api/users/7")
    = (Return None, get_request "/api/users/7").
Proof.
  destruct (@literal_rule_matches_exactly (list string) string unit
              (Router.mkRouter [] None "/api" []) "/users" Router.default_methods
              (answering "users") (get_request "/api/users") eq_refl eq_refl eq_refl)
    as (rt & Hreg & Hm).
  exists rt. split; [exact Hreg|]. split; [exact Hm|].
  vm_compute in Hreg. injection Hreg as <-. reflexivity.
Defined.

(** ** The path of a matched request, from the rule and the parameters *)

Section FilledRule.
Context {World Response Ctx : Type}.
Implicit Types (self : Router.t World Response Ctx) (request : Request).

Lemma fill_captures_sound segs :
  Forall (fun seg => clean seg = true) segs ->
  NoDup (param_names segs) ->
  forall t g g',
    Lang.seq_matches (nodes_of segs) t g g' -> t = fill_captures g' segs.
Proof.
  induction 1 as [|seg segs Hseg Hsegs IH]; intros Hnd t g g' Hm.
  - now destruct Hm as [-> _].
  - rewrite nodes_of_cons in Hm.
    apply seq_matches_app in Hm as (t1 & t2 & g1 & -> & H1 & H2).
    destruct seg as [s|spec]; cbn [fill_captures].
    + apply literals_match in H1 as [-> ->]. f_equal. eapply IH; eassumption.
    + pose proof Hseg as Hclean. cbn [clean] in Hseg.
      apply andb_prop in Hseg as [Hseg _]. apply andb_prop in Hseg as [Hok _].
      destruct (spec_parse_ok _ Hok) as (frag & c & Hf & _ & _).
      cbn [nodes_of_segment] in H1. rewrite Hf in H1.
      destruct H1 as (u1 & u2 & g2 & -> & (g3 & Hbody & ->) & [-> ->]).
      cbn [param_names flat_map app] in Hnd. inversion Hnd as [|? ? Hnew Hnd']; subst.
      destruct (nodes_of_captures Hsegs Hnd' _ _ _ H2) as [Hframe _].
      rewrite (Hframe _ Hnew), get_set_same. cbn [capture_of].
      rewrite append_nil_r. f_equal. eapply IH; eassumption.
Qed.

Lemma match_found_tests self request h request' :
  Router.match_ self request = (Return (Some h), request') ->
  Router._prefix_match self request = true.
Proof.
  unfold Router.match_.
  destruct (Router._domain_match self request) as [[|]|e]; try discriminate.
  now destruct (Router._prefix_match self request).
Qed.

Lemma fill_by_parts (a : Py.dict value) (g : Re.captures) segs :
  (forall spec, In (Param spec) segs ->
                text_of (Py.get (name_of spec) a) = capture_of (Py.get (name_of spec) g)) ->
  fill a segs = fill_captures g segs.
Proof.
  induction segs as [|seg segs IH]; intros H; cbn [fill fill_captures]; auto.
  rewrite IH by (intros spec Hin; apply H; now right).
  destruct seg as [s|spec]; auto.
  rewrite (H spec) by now left. reflexivity.
Qed.

(** X8: on a router with no other route, for a rule whose literal text is
    plain (no character that [re] or the rule scan reads specially) and whose
    parameters are well formed, have distinct identifier names and all keep
    their text ([str], [word] or [any]), a match gives the path back: the
    prefix of the router, then the rule with each parameter replaced by its
    value in the parameters map, then at most one final newline. *)
Theorem path_is_the_rule_filled_in self segs methods h :
  Router.routes self = [] ->
  Forall (fun seg => clean seg = true) segs ->
  NoDup (param_names segs) ->
  Forall (fun seg => textual seg = true) segs ->
  exists rt,
    Router._route self (render segs) methods h = Return rt /\
    forall request h' request',
      Router.match_ rt request = (Return (Some h'), request') ->
      exists a,
        args request' = Some a /\
        (path request = Router.prefix self ++ fill a segs \/
         path request = Router.prefix self ++ fill a segs ++ newline_text).
Proof.
  intros Hroutes Hclean Hnd Htext.
  eexists. split; [now apply route_of_clean_rule|].
  intros request h' request' Hm.
  pose proof (match_found_tests _ _ Hm) as Hp.
  unfold Router._prefix_match, Py.startswith in Hp.
  cbn [Router.prefix Router.with_routes] in Hp.
  apply prefix_split in Hp as [x Hx].
  apply match_parameters in Hm
    as (route & m & a & Hr & _ & Hre & _ & -> & Hcast & _).
  rewrite Hroutes in Hr. destruct Hr as [<-|[]].
  cbn [Router.pattern Router.casts Router.prefix Router.with_routes] in *.
  rewrite Hx, replace_first_prefix in Hre.
  apply match_end_anchored in Hre as (t & s' & -> & Hend & Hsem).
  exists a. split; [reflexivity|].
  assert (E : fill a segs = t).
  { rewrite (fill_captures_sound Hclean Hnd _ _ _ Hsem).
    apply fill_by_parts. intros spec Hin.
    destruct (nodes_of_captures Hclean Hnd _ _ _ Hsem) as [_ Hcap].
    destruct (Hcap _ Hin) as (frag & tn & _ & _ & Hf & Hg & _).
    destruct (Hcast (name_of spec)) as (c & v & Hc & Hv & Ha).
    { rewrite group_names_app, group_names_nodes_of by assumption.
      apply in_or_app. left. now apply in_param_names. }
    rewrite Forall_forall in Htext, Hclean.
    pose proof (Htext _ Hin) as Ht. pose proof (Hclean _ Hin) as Hc'.
    cbn [textual clean] in Ht, Hc'.
    apply andb_prop in Hc' as [Hc' _]. apply andb_prop in Hc' as [Hok _].
    unfold spec_ok in Hok. apply andb_prop in Hok as [_ Hk].
    rewrite casts_onto_param in Hc by assumption.
    rewrite Hc in Ht. destruct c; try discriminate.
    rewrite Hg in Hv. inversion Hv; subst v.
    now rewrite Ha, Hg. }
  rewrite E, Hx. destruct Hend as [-> | ->].
  - left. now rewrite append_nil_r.
  - now right.
Qed.
End FilledRule.

Lemma path_is_the_rule_filled_in_witness :
  exists rt a,
    Router._route (Router.mkRouter [] None "/api" [])
                  (render [Text "/"; Param "kind:word"; Text "/"; Param "rest:any"])
                  Router.default_methods (answering "h") = Return rt /\
    args (snd (Router.match_ rt (get_request "/api/files/a/b.txt"))) = Some a /\
    (path (get_request "/api/files/a/b.txt")
     = "/api" ++ fill a [Text "/"; Param "kind:word"; Text "/"; Param "rest:any"] \/
     path (get_request "/api/files/a/b.txt")
     = "/api" ++ fill a [Text "/"; Param "kind:word"; Text "/"; Param "rest:any"]
             ++ newline_text).
Proof.
  destruct (@path_is_the_rule_filled_in (list string) string unit
              (Router.mkRouter [] None "/api" [])
              [Text "/"; Param "kind:word"; Text "/"; Param "rest:any"]
              Router.default_methods (answering "h"))
    as (rt & Hreg & Hall).
  - reflexivity.
  - repeat constructor.
  - repeat constructor; simpl; intuition discriminate.
  - repeat constructor.
  - destruct (Hall (get_request "/api/files/a/b.txt")
                   (Router._apply_filter rt (answering "h"))
                   (snd (Router.match_ rt (get_request "/api/files/a/b.txt"))))
      as (a & Ha & Hpath).
    + vm_compute in Hreg. injection Hreg as <-. reflexivity.
    + exists rt, a. auto.
Defined.

(** ** Casts never fail on what their fragments capture *)

Section CastSafety.

Lemma digits_value_some s : forall acc,
  Py.all_chars Py.is_digit s = true -> exists z, digits_value acc s = Some z.
Proof.
  induction s as [|c s IH]; intros acc; simpl; eauto.
  intros H. apply andb_prop in H as [Hc Hs]. rewrite Hc. now apply IH.
Qed.

Lemma split_sign_digit d r :
  Py.is_digit d = true -> split_sign (String d r) = (false, String d r).
Proof.
  destruct d as [[] [] [] [] [] [] [] []]; intros H;
    solve [discriminate H | reflexivity].
Qed.

Lemma sign_cases c :
  Re.accepts (Re.Class false ["+"; "-"]%char) c = true -> c = "+"%char \/ c = "-"%char.
Proof.
  simpl. destruct (Ascii.eqb_spec c "+"); auto.
  destruct (Ascii.eqb_spec c "-"); auto. discriminate.
Qed.

Lemma all_chars_app p a b :
  Py.all_chars p (a ++ b) = Py.all_chars p a && Py.all_chars p b.
Proof.
  induction a as [|c a IH]; simpl; auto. now rewrite IH, andb_assoc.
Qed.

Lemma digit_run_le s : digit_run s <= String.length s.
Proof.
  induction s as [|c s IH]; cbn [digit_run String.length]; auto.
  destruct (Py.is_digit c); lia.
Qed.

(** [int] takes a signed run of digits, unless the run is past the limit. *)
Lemma int_of_signed_digits sign ds :
  sign = EmptyString \/ sign = "+" \/ sign = "-" ->
  ds <> EmptyString ->
  Py.all_chars Py.is_digit ds = true ->
  (exists z, int_of_text (sign ++ ds) = Return (VInt z)) \/
  (int_of_text (sign ++ ds) = Raise (ValueError int_limit_message) /\
   int_max_str_digits < String.length (sign ++ ds)).
Proof.
  intros Hsign Hne Hd. destruct ds as [|d ds]; [contradiction|].
  pose proof Hd as Hd'. cbn [Py.all_chars] in Hd'. apply andb_prop in Hd' as [Hd1 _].
  destruct (digits_value_some (String d ds) 0%Z Hd) as [z Hz].
  assert (E : forall neg,
             (let (n, t) := (neg, String d ds) in
              match t with
              | EmptyString => Raise (ValueError "invalid literal for int()")
              | _ =>
                  if (digit_run t <=? int_max_str_digits)%nat then
                    match digits_value 0 t with
                    | Some z0 => Return (VInt (signed n z0))
                    | None => Raise (ValueError "invalid literal for int()")
                    end
                  else Raise (ValueError int_limit_message)
              end)
             = if (digit_run (String d ds) <=? int_max_str_digits)%nat
               then Return (VInt (signed neg z))
               else Raise (ValueError int_limit_message)).
  { intros neg. cbv iota beta. rewrite Hz. reflexivity. }
  pose proof (digit_run_le (String d ds)) as Hrun.
  assert (Hlen : String.length (String d ds) <= String.length (sign ++ String d ds))
    by (rewrite length_append; lia).
  unfold int_of_text.
  destruct Hsign as [->|[->| ->]]; cbn [append] in *.
  - rewrite split_sign_digit by assumption. rewrite E.
    destruct (Nat.leb_spec (digit_run (String d ds)) int_max_str_digits);
      [left; eauto|right; split; [reflexivity|lia]].
  - cbn [split_sign]. rewrite E.
    destruct (Nat.leb_spec (digit_run (String d ds)) int_max_str_digits);
      [left; eauto|right; split; [reflexivity|lia]].
  - cbn [split_sign]. rewrite E.
    destruct (Nat.leb_spec (digit_run (String d ds)) int_max_str_digits);
      [left; eauto|right; split; [reflexivity|lia]].
Qed.

Lemma digit_not_dot c : Py.is_digit c = true -> Ascii.eqb c "." = false.
Proof.
  intros H. destruct (Ascii.eqb_spec c "."); auto. subst; discriminate.
Qed.

Lemma split_digits ds :
  Py.all_chars Py.is_digit ds = true -> Py.split "." ds = [ds].
Proof.
  induction ds as [|c ds IH]; simpl; auto.
  intros H. apply andb_prop in H as [Hc Hs].
  now rewrite (digit_not_dot _ Hc), IH.
Qed.

Lemma split_digits_dot ds r :
  Py.all_chars Py.is_digit ds = true ->
  Py.split "." (ds ++ String "." r) = ds :: Py.split "." r.
Proof.
  induction ds as [|c ds IH]; simpl; auto.
  intros H. apply andb_prop in H as [Hc Hs].
  now rewrite (digit_not_dot _ Hc), IH.
Qed.

(** [float] takes signed digits, a point and digits. *)
Lemma float_of_signed_decimal sign ip fp :
  sign = EmptyString \/ sign = "+" \/ sign = "-" ->
  ip <> EmptyString -> fp <> EmptyString ->
  Py.all_chars Py.is_digit ip = true ->
  Py.all_chars Py.is_digit fp = true ->
  exists z n, float_of_text (sign ++ ip ++ String "." fp) = Return (VFloat z n).
Proof.
  intros Hsign Hi Hf Hdi Hdf.
  destruct ip as [|d ip]; [contradiction|]. destruct fp as [|e fp]; [contradiction|].
  pose proof Hdi as Hd'. simpl in Hd'. apply andb_prop in Hd' as [Hd1 _].
  assert (Hall : Py.all_chars Py.is_digit (String d ip ++ String e fp) = true)
    by (now rewrite all_chars_app, Hdi, Hdf).
  destruct (digits_value_some _ 0%Z Hall) as [z Hz].
  assert (E : forall neg,
             (let (n, ds) := (neg, String d ip ++ String "." (String e fp)) in
              match Py.split "." ds with
              | [ip0; fp0] =>
                  match ip0, fp0 with
                  | EmptyString, _ | _, EmptyString =>
                      Raise (ValueError "could not convert string to float")
                  | _, _ =>
                      match digits_value 0 (ip0 ++ fp0) with
                      | Some z0 => Return (VFloat (signed n z0) (String.length fp0))
                      | None => Raise (ValueError "could not convert string to float")
                      end
                  end
              | _ => Raise (ValueError "could not convert string to float")
              end)
             = Return (VFloat (signed neg z) (String.length (String e fp)))).
  { intros neg. rewrite split_digits_dot, split_digits by assumption.
    now rewrite Hz. }
  unfold float_of_text.
  destruct Hsign as [->|[->| ->]]; cbn [append].
  - rewrite split_sign_digit by assumption.
    change (String d (ip ++ String "." (String e fp)))
      with (String d ip ++ String "." (String e fp)).
    rewrite E. eauto.
  - cbn [split_sign].
    change (String d (ip ++ String "." (String e fp)))
      with (String d ip ++ String "." (String e fp)).
    rewrite E. eauto.
  - cbn [split_sign].
    change (String d (ip ++ String "." (String e fp)))
      with (String d ip ++ String "." (String e fp)).
    rewrite E. eauto.
Qed.

Lemma opt_sign t :
  Lang.chars_match (Re.Class false ["+"; "-"]%char) Re.Opt t ->
  t = EmptyString \/ t = "+" \/ t = "-".
Proof.
  intros [->|(c & -> & Hc)]; auto.
  destruct (sign_cases _ Hc) as [-> | ->]; auto.
Qed.

(** Whatever the fragment of a tag matches, the cast of the tag takes,
    unless it is [int] on a text past the limit on digits. *)
Lemma fragment_cast_ok t frag c text g g' :
  Py.get t PATTERNS = Some frag ->
  Py.get t CASTS = Some c ->
  Lang.seq_matches (body_of frag) text g g' ->
  (exists x, apply_cast c (Some text) = Return x) \/
  (apply_cast c (Some text) = Raise (ValueError int_limit_message) /\
   int_max_str_digits < String.length text).
Proof.
  intros Hf Hc Hm.
  assert (Hk : known_tag t = true).
  { destruct (known_tag t) eqn:E; auto.
    rewrite (get_none_keys t PATTERNS E) in Hf. discriminate. }
  destruct (known_tag_cases _ Hk) as [->|[->|[->|[->| ->]]]];
    inversion Hf; inversion Hc; subst; cbn [apply_cast]; eauto.
  - cbv [body_of] in Hm; simpl in Hm.
    destruct Hm as (t1 & t2 & g1 & -> & (Hsign & _)
                    & (u1 & u2 & g2 & -> & ((Hne & Hd) & _) & (-> & _))).
    rewrite append_nil_r.
    destruct (int_of_signed_digits (opt_sign Hsign) Hne Hd) as [[z Hz]|[Hz Hlen]];
      [left; eauto|right; auto].
  - cbv [body_of] in Hm; simpl in Hm.
    destruct Hm as (t1 & t2 & g1 & -> & (Hsign & _)
                    & (u1 & u2 & g2 & -> & ((Hne & Hd) & _)
                       & (v1 & v2 & g3 & -> & ((dot & -> & Hdot) & _)
                          & (w1 & w2 & g4 & -> & ((Hne' & Hd') & _) & (-> & _))))).
    rewrite append_nil_r. apply Ascii.eqb_eq in Hdot. subst dot. cbn [append].
    destruct (float_of_signed_decimal (opt_sign Hsign) Hne Hne' Hd Hd') as (z & n & Hz).
    left. eauto.
Qed.

(** A parameter captures a part of the text the pattern matched. *)
Lemma captures_within segs :
  Forall (fun seg => clean seg = true) segs ->
  NoDup (param_names segs) ->
  forall t g g',
    Lang.seq_matches (nodes_of segs) t g g' ->
    forall spec tn,
      In (Param spec) segs ->
      Py.get (name_of spec) g' = Some tn ->
      String.length tn <= String.length t.
Proof.
  induction 1 as [|seg segs Hseg Hsegs IH]; intros Hnd t g g' Hm spec tn Hin Hget.
  - destruct Hin.
  - rewrite nodes_of_cons in Hm.
    apply seq_matches_app in Hm as (t1 & t2 & g1 & -> & H1 & H2).
    rewrite length_append.
    destruct seg as [s|spec0].
    + destruct Hin as [Heq|Hin]; [discriminate|].
      pose proof (IH Hnd _ _ _ H2 _ _ Hin Hget). lia.
    + unfold param_names in Hnd. cbn [flat_map app] in Hnd.
      inversion Hnd as [|? ? Hnew Hnd']; subst.
      destruct Hin as [Heq|Hin].
      * inversion Heq; subst spec0.
        cbn [clean] in Hseg.
        apply andb_prop in Hseg as [Hseg _]. apply andb_prop in Hseg as [Hok _].
        destruct (spec_parse_ok _ Hok) as (frag & c & Hf & _ & _).
        cbn [nodes_of_segment] in H1. rewrite Hf in H1.
        destruct H1 as (u1 & u2 & g2 & -> & (g3 & Hbody & ->) & [-> ->]).
        destruct (nodes_of_captures Hsegs Hnd' _ _ _ H2) as [Hframe _].
        rewrite (Hframe _ Hnew), get_set_same in Hget.
        injection Hget as <-. rewrite append_nil_r. lia.
      * pose proof (IH Hnd' _ _ _ H2 _ _ Hin Hget). lia.
Qed.
End CastSafety.

(** ** Matching against registered routes *)

Section CleanRoutes.
Context {World Response Ctx : Type}.
Implicit Types (self : Router.t World Response Ctx) (request : Request).
Implicit Types (route : Router.Route World Response Ctx).

Lemma cast_loop_outcome (P : Prop) e casts (g : Re.captures) names : forall request a,
  (forall k, In k names ->
             exists c, Py.get k casts = Some c /\
                       ((exists x, apply_cast c (Py.get k g) = Return x) \/
                        (apply_cast c (Py.get k g) = Raise e /\ P))) ->
  (exists request',
      Router.cast_loop casts (map (fun name => (name, Py.get name g)) names) request a
      = (Return tt, request')) \/
  (P /\ exists request',
      Router.cast_loop casts (map (fun name => (name, Py.get name g)) names) request a
      = (Raise e, request')).
Proof.
  induction names as [|n names IH]; intros request a H; cbn [map Router.cast_loop]; eauto.
  destruct (H n) as (c & Hc & [[x Hx]|[Hx HP]]); [now left| |];
    unfold subscript; rewrite Hc, Hx.
  - apply IH. intros k Hk. apply H. now right.
  - right. eauto.
Qed.

Lemma in_param_names_inv k segs :
  In k (param_names segs) -> exists spec, In (Param spec) segs /\ name_of spec = k.
Proof.
  unfold param_names. intros H. apply in_flat_map in H as (seg & Hin & Hk).
  destruct seg as [s|spec]; [destruct Hk|].
  destruct Hk as [<-|[]]. eauto.
Qed.

Lemma clean_route_casts route text m :
  from_clean_rule route ->
  Re.match_ (Router.pattern route) text = Some m ->
  forall k, In k (Re.group_names (Router.pattern route)) ->
            exists c, Py.get k (Router.casts route) = Some c /\
                      ((exists x, apply_cast c (Py.get k m) = Return x) \/
                       (apply_cast c (Py.get k m) = Raise (ValueError int_limit_message) /\
                        int_max_str_digits < String.length text)).
Proof.
  intros (segs & Hclean & Hnd & Hp & Hc) Hm k Hk.
  rewrite Hp in Hm, Hk. rewrite Hc.
  rewrite group_names_app, group_names_nodes_of, app_nil_r in Hk by assumption.
  apply in_param_names_inv in Hk as (spec & Hin & <-).
  apply match_sound in Hm as (t & s' & -> & Hsem).
  apply seq_matches_app in Hsem as (t1 & t2 & g1 & -> & Hsem & Hend).
  destruct Hend as (u1 & u2 & g2 & -> & [_ ->] & [_ ->]).
  destruct (nodes_of_captures Hclean Hnd _ _ _ Hsem) as [_ Hcap].
  destruct (Hcap _ Hin) as (frag & tn & ga & gb & Hf & Hg & Hbody).
  pose proof (@captures_within segs Hclean Hnd _ _ _ Hsem spec tn Hin Hg) as Hlen.
  assert (Hk : known_tag (tag_of spec) = true).
  { destruct (known_tag (tag_of spec)) eqn:E; auto.
    rewrite (get_none_keys _ PATTERNS E) in Hf. discriminate. }
  destruct (get_some_keys _ CASTS Hk) as [c Hcast].
  rewrite casts_onto_param by assumption. rewrite Hg.
  exists c. split; [exact Hcast|].
  destruct (@fragment_cast_ok (tag_of spec) frag c tn ga gb Hf Hcast Hbody)
    as [Hx|[Hx Hbig]]; [left; exact Hx|right].
  split; [exact Hx|]. rewrite !length_append. lia.
Qed.

(** The loop over routes made from clean rules returns, unless [int]
    refuses a captured text for its length. *)
Lemma match_loop_outcome self rs request :
  Forall from_clean_rule rs ->
  (exists o request', Router.match_loop self rs request = (Return o, request')) \/
  (int_max_str_digits
   < String.length (Py.replace_first (Router.prefix self) (path request)) /\
   exists request',
     Router.match_loop self rs request = (Raise (ValueError int_limit_message), request')).
Proof.
  induction 1 as [|route rs Hroute _ IH]; cbn [Router.match_loop]; eauto.
  destruct (Py.contains (method request) (Router.methods route)); auto.
  destruct (Re.match_ _ _) as [m|] eqn:Hm; auto.
  unfold Re.groupdict.
  destruct (@cast_loop_outcome _ _ (Router.casts route) m
              (Re.group_names (Router.pattern route)) (with_args request []) []
              (@clean_route_casts route _ m Hroute Hm))
    as [[request' ->]|[Hbig [request' ->]]]; eauto.
Qed.

(** X9: on a router whose routes all come from rules of plain literal text
    and well-formed parameters with distinct identifier names, once the
    domain test returns, [Router.match] can raise in one way only: [int]
    refusing a captured text for its number of digits, with [ValueError],
    and only on a path of more than 4300 characters.  On a path of at most
    4300 characters it returns a handler or the absent result, since each
    cast takes every such text its fragment can capture.  Registering one
    more such rule succeeds and keeps the router of that kind. *)
Theorem registered_routes_never_raise self :
  Forall from_clean_rule (Router.routes self) ->
  (forall request b,
      Router._domain_match self request = Return b ->
      (String.length (path request) <= int_max_str_digits ->
       exists o request', Router.match_ self request = (Return o, request')) /\
      (forall e request',
          Router.match_ self request = (Raise e, request') ->
          e = ValueError int_limit_message /\
          int_max_str_digits < String.length (path request))) /\
  (forall segs methods h,
      Forall (fun seg => clean seg = true) segs ->
      NoDup (param_names segs) ->
      exists rt,
        Router._route self (render segs) methods h = Return rt /\
        Forall from_clean_rule (Router.routes rt)).
Proof.
  intros Hroutes. split.
  - intros request b Hd.
    assert (Hcases :
              (exists o request', Router.match_ self request = (Return o, request')) \/
              (int_max_str_digits < String.length (path request) /\
               exists request',
                 Router.match_ self request
                 = (Raise (ValueError int_limit_message), request'))).
    { unfold Router.match_. rewrite Hd.
      destruct b; eauto.
      destruct (Router._prefix_match self request) eqn:Hp; eauto.
      destruct (match_loop_outcome self request Hroutes) as [Hret|[Hbig Hraise]];
        [left; exact Hret|right].
      split; [|exact Hraise].
      apply prefix_split in Hp as [x Hx].
      rewrite Hx, replace_first_prefix in Hbig. rewrite Hx, length_append. lia. }
    split.
    + intros Hshort. destruct Hcases as [Hret|[Hbig _]]; [exact Hret|lia].
    + intros e request' Hraise.
      destruct Hcases as [(o & rq & Hret)|[Hbig (rq & Hr)]]; [congruence|].
      rewrite Hr in Hraise. injection Hraise as <- _. auto.
  - intros segs methods h Hclean Hnd.
    eexists. split; [now apply route_of_clean_rule|].
    cbn [Router.routes Router.with_routes]. apply Forall_app. split; auto.
    constructor; [|constructor]. exists segs. auto.
Qed.

Lemma get_none_not_in {V : Type} k (d : Py.dict V) :
  ~ In k (Py.keys d) -> Py.get k d = None.
Proof. intros H. apply get_none_keys. now apply contains_false. Qed.

Lemma cast_loop_keys casts (g : Re.captures) names : forall request a request',
  NoDup names ->
  (forall k, In k names -> ~ In k (Py.keys a)) ->
  Router.cast_loop casts (map (fun name => (name, Py.get name g)) names)
                   (with_args request a) a = (Return tt, request') ->
  exists a', request' = with_args request a' /\
             Py.keys a' = (Py.keys a ++ names)%list.
Proof.
  induction names as [|n names IH]; intros request a request' Hnd Hfresh; simpl.
  - intros H; inversion H; subst. exists a. now rewrite app_nil_r.
  - unfold subscript.
    destruct (Py.get n casts) as [c|]; try discriminate.
    destruct (apply_cast c (Py.get n g)) as [x|e]; try discriminate.
    intros H. inversion Hnd as [|? ? Hn Hnd']; subst.
    change (with_args (with_args request a) (Py.set n x a))
      with (with_args request (Py.set n x a)) in H.
    assert (Hkeys : Py.keys (Py.set n x a) = (Py.keys a ++ [n])%list).
    { apply keys_set_absent, get_none_not_in, Hfresh. now left. }
    apply IH in H as (a' & -> & Ha'); auto.
    + exists a'. split; auto. now rewrite Ha', Hkeys, <- app_assoc.
    + intros k Hk. rewrite Hkeys. intros Hin.
      apply in_app_or in Hin as [Hin|[<-|[]]]; auto.
      apply (Hfresh k); auto. now right.
Qed.

(** X10: after a match, the parameters map holds one entry for each
    parameter of the rule and no other, in the order the parameters stand in
    the rule. *)
Theorem parameters_follow_the_rule self segs methods h :
  Router.routes self = [] ->
  Forall (fun seg => clean seg = true) segs ->
  NoDup (param_names segs) ->
  exists rt,
    Router._route self (render segs) methods h = Return rt /\
    forall request h' request',
      Router.match_ rt request = (Return (Some h'), request') ->
      exists a, args request' = Some a /\ Py.keys a = param_names segs.
Proof.
  intros Hroutes Hclean Hnd.
  eexists. split; [now apply route_of_clean_rule|].
  intros request h' request'. unfold Router.match_.
  destruct (Router._domain_match _ request) as [[|]|e]; try discriminate.
  destruct (Router._prefix_match _ request); try discriminate.
  cbn [Router.routes Router.with_routes]. rewrite Hroutes.
  cbn [app Router.match_loop Router.methods Router.pattern Router.casts].
  destruct (Py.contains (method request) methods); try discriminate.
  destruct (Re.match_ _ _) as [m|]; try discriminate.
  destruct (Router.cast_loop _ _ _ _) as [[[]|e] rq] eqn:Hc; try discriminate.
  intros H; inversion H; subst.
  unfold Re.groupdict in Hc.
  rewrite group_names_app, group_names_nodes_of, app_nil_r in Hc by assumption.
  apply cast_loop_keys in Hc as (a & -> & Ha); auto.
  exists a. split; auto.
Qed.
End CleanRoutes.

Lemma registered_routes_never_raise_witness :
  (exists o request',
      Router.match_ items_router (get_request "/items/42") = (Return o, request')) /\
  (exists rt,
      Router._route items_router (render [Text "/n/"; Param "x:float"])
                    Router.default_methods (answering "n") = Return rt /\
      Forall from_clean_rule (Router.routes rt)).
Proof.
  assert (H : Forall from_clean_rule (Router.routes items_router)).
  { repeat constructor.
    - exists [Text "/about"]. repeat constructor.
    - exists [Text "/items/"; Param "name"]. repeat constructor. intros [].
    - exists [Text "/items/"; Param "rest:any"]. repeat constructor. intros []. }
  destruct (@registered_routes_never_raise _ _ _ items_router H) as [Hmatch Hreg].
  split.
  - apply (proj1 (Hmatch (get_request "/items/42") true eq_refl)).
    apply Nat.leb_le. reflexivity.
  - apply Hreg; repeat constructor. intros [].
Defined.

Lemma parameters_follow_the_rule_witness :
  exists rt a,
    Router._route (@empty_router (list string) string unit)
                  (render [Text "/"; Param "year:int"; Text "/"; Param "slug:word"])
                  Router.default_methods (answering "h") = Return rt /\
    args (snd (Router.match_ rt (get_request "/2024/hello"))) = Some a /\
    Py.keys a = ["year"; "slug"].
Proof.
  destruct (@parameters_follow_the_rule (list string) string unit empty_router
              [Text "/"; Param "year:int"; Text "/"; Param "slug:word"]
              Router.default_methods (answering "h"))
    as (rt & Hreg & Hall).
  - reflexivity.
  - repeat constructor.
  - repeat constructor; simpl; intuition discriminate.
  - destruct (Hall (get_request "/2024/hello")
                   (Router._apply_filter rt (answering "h"))
                   (snd (Router.match_ rt (get_request "/2024/hello"))))
      as (a & Ha & Hk).
    + vm_compute in Hreg. injection Hreg as <-. reflexivity.
    + exists rt, a. auto.
Defined.

(** ** Registration order and precedence *)

Section Precedence.
Context {World Response Ctx : Type}.
Implicit Types (self : Router.t World Response Ctx) (request : Request).
Implicit Types (app : Application.t World Response Ctx).

Lemma route_shape self rule methods h self' :
  Router._route self rule methods h = Return self' ->
  exists r,
    self' = Router.with_routes self (Router.routes self ++ [r])%list /\
    Router.handler r = h /\ Router.methods r = methods.
Proof.
  unfold Router._route.
  destruct (Router._rule_parse rule) as [[pattern casts]|e]; try discriminate.
  destruct (Re.compile pattern) as [r|msg|]; try discriminate.
  intros H; inversion H; subst. eexists. repeat split.
Qed.

Lemma match_loop_decided self rs more request :
  fst (Router.match_loop self rs request) <> Return None ->
  Router.match_loop self (rs ++ more)%list request = Router.match_loop self rs request.
Proof.
  induction rs as [|route rs IH]; simpl.
  - intros H. now contradiction H.
  - destruct (Py.contains (method request) (Router.methods route)); auto.
    destruct (Re.match_ _ _); auto.
Qed.

Lemma match_loop_undecided self rs more request :
  fst (Router.match_loop self rs request) = Return None ->
  Router.match_loop self (rs ++ more)%list request = Router.match_loop self more request.
Proof.
  induction rs as [|route rs IH]; simpl; auto.
  destruct (Py.contains (method request) (Router.methods route)); auto.
  destruct (Re.match_ _ _); auto.
  destruct (Router.cast_loop _ _ _ _) as [[u|e] rq]; discriminate.
Qed.

(** X11: registering a route puts it behind the routes already there: every
    request the router answered before, with a handler or an error, is
    answered the same way; the new route is tried only for the requests that
    got the absent result, and they get what the new route alone gives. *)
Theorem registration_keeps_earlier_answers self rule methods h self' request :
  Router._route self rule methods h = Return self' ->
  exists r,
    Router.routes self' = (Router.routes self ++ [r])%list /\
    Router.handler r = h /\ Router.methods r = methods /\
    (fst (Router.match_ self request) <> Return None ->
     Router.match_ self' request = Router.match_ self request) /\
    (fst (Router.match_ self request) = Return None ->
     Router.match_ self' request = Router.match_ (alone self r) request).
Proof.
  intros H. apply route_shape in H as (r & -> & Hh & Hm).
  exists r. repeat split; auto.
  - unfold Router.match_ at 1 2 3.
    change (Router._domain_match (Router.with_routes self _) request)
      with (Router._domain_match self request).
    change (Router._prefix_match (Router.with_routes self _) request)
      with (Router._prefix_match self request).
    destruct (Router._domain_match self request) as [[|]|e]; auto.
    destruct (Router._prefix_match self request); auto.
    cbn [Router.routes Router.with_routes]. intros Hne.
    rewrite match_loop_with_routes. now apply match_loop_decided.
  - unfold alone, Router.match_ at 1 2 3.
    change (Router._domain_match (Router.with_routes self (Router.routes self ++ [r])%list)
                                 request)
      with (Router._domain_match self request).
    change (Router._domain_match (Router.with_routes self [r]) request)
      with (Router._domain_match self request).
    change (Router._prefix_match (Router.with_routes self (Router.routes self ++ [r])%list)
                                 request)
      with (Router._prefix_match self request).
    change (Router._prefix_match (Router.with_routes self [r]) request)
      with (Router._prefix_match self request).
    destruct (Router._domain_match self request) as [[|]|e]; auto.
    destruct (Router._prefix_match self request); auto.
    cbn [Router.routes Router.with_routes]. intros Hnone.
    rewrite !match_loop_with_routes. now apply match_loop_undecided.
Qed.

Lemma call_loop_add_router app r rs request :
  Application.call_loop (Application.add_router app r) rs request
  = Application.call_loop app rs request.
Proof.
  revert request. induction rs as [|x rs IH]; intros request; simpl; auto.
  destruct (Router.match_ x request) as [[[hd|]|e] rq]; auto.
Qed.

Lemma call_loop_decided app rs more request :
  Exists (fun x => fst (Router.match_ x request) <> Return None) rs ->
  Application.call_loop app (rs ++ more)%list request
  = Application.call_loop app rs request.
Proof.
  induction rs as [|x rs IH]; intros H; [inversion H|]. simpl.
  destruct (Router.match_ x request) as [[[hd|]|e] rq] eqn:E; auto.
  pose proof (match_absent _ _ E); subst rq.
  apply IH. inversion H as [? ? Hx|]; subst; auto.
  rewrite E in Hx. now contradiction Hx.
Qed.

(** X12: a router added to the application stands behind the routers
    already there: a request that one of them answers, with a handler or an
    error, is served as before, and the new router is asked only when every
    earlier one yields nothing. *)
Theorem added_router_comes_last app r request :
  (Exists (fun x => fst (Router.match_ x request) <> Return None)
          (Application.routers app) ->
   Application.__call__ (Application.add_router app r) request
   = Application.__call__ app request) /\
  (Forall (fun x => fst (Router.match_ x request) = Return None)
          (Application.routers app) ->
   Application.__call__ (Application.add_router app r) request
   = Application.call_loop app [r] request).
Proof.
  unfold Application.__call__. cbn [Application.routers Application.add_router].
  rewrite call_loop_add_router. split; intros H.
  - now apply call_loop_decided.
  - now apply call_loop_skip.
Qed.
End Precedence.

Lemma registration_keeps_earlier_answers_witness :
  Router.match_ items_router (get_request "/items/socks")
  = Router.match_ (register (register empty_router "/about" (answering "about"))
                            "/items/{name}" (answering "first"))
                  (get_request "/items/socks").
Proof.
  destruct (@registration_keeps_earlier_answers (list string) string unit
              (register (register empty_router "/about" (answering "about"))
                        "/items/{name}" (answering "first"))
              "/items/{rest:any}" Router.default_methods (answering "second")
              items_router (get_request "/items/socks") eq_refl)
    as (r & _ & _ & _ & Hkeep & _).
  apply Hkeep. discriminate.
Defined.

Lemma added_router_comes_last_witness :
  Application.__call__
    (Application.add_router (Application.__init__ tt (Some [about_router])) items_router)
    (get_request "/about")
  = Application.__call__ (Application.__init__ tt (Some [about_router]))
                         (get_request "/about").
Proof.
  apply (proj1 (@added_router_comes_last (list string) string unit
                  (Application.__init__ tt (Some [about_router])) items_router
                  (get_request "/about"))).
  constructor. discriminate.
Defined.

(** ** The two filter chains together *)

Section TwoChains.
Context {World Response Ctx : Type}.
Implicit Types (self : Router.t World Response Ctx) (request : Request).
Implicit Types (app : Application.t World Response Ctx).
Local Open Scope m_scope.




(** X14: the functions registered with [before_request] and [after_request]
    run around the handler in their places, and the hook each of the two
    filters got by default changes nothing. *)
Theorem hook_registrations_compose self fb fa H ctx request w :
  Router._apply_filter
    (fst (Router.after_request
            (fst (Router.before_request (Router.with_filters self []) fb)) fa))
    H ctx request w
  = (request' <- fb ctx request ;;
     response <- H ctx request' ;;
     fa ctx request' response) w.
Proof.
  unfold Router._apply_filter. simpl.
  unfold Filter.call_before, Filter.call_after. simpl.
  unfold Filter.before_request, Filter.after_request, bind, ret.
  destruct (fb ctx request w) as [[rq|e] w1]; simpl; auto.
  destruct (H ctx rq w1) as [[resp|e] w2]; simpl; auto.
  destruct (fa ctx rq resp w2) as [[resp'|e] w3]; simpl; auto.
Qed.

Lemma before_loop_app (l1 l2 : list (Filter.object World Response Ctx)) ctx request w :
  Filter.before_loop (l1 ++ l2)%list ctx request w
  = bind (Filter.before_loop l1 ctx request)
         (fun rq => Filter.before_loop l2 ctx rq) w.
Proof.
  revert request w. induction l1 as [|fl l1 IH]; intros request w; simpl.
  - reflexivity.
  - rewrite bind_assoc. apply bind_ext. intros; apply IH.
Qed.

(** X15: an object that [add_filter] took although it has no
    [before_request] makes the wrapped handler raise [AttributeError] when a
    request reaches it: the hooks registered before it have run, the handler
    and everything after it have not. *)
Theorem unchecked_object_fails_at_request_time self good obj rest H ctx request
        request1 (w w1 : World) :
  Router.filters self = (good ++ obj :: rest)%list ->
  Filter.attr_before_request obj = None ->
  Filter.before_loop good ctx request w = (Return request1, w1) ->
  Router._apply_filter self H ctx request w
  = (Raise (AttributeError "before_request"), w1).
Proof.
  intros Hf Hobj Hgood. unfold Router._apply_filter. rewrite Hf.
  unfold bind at 1. rewrite before_loop_app. unfold bind at 1. rewrite Hgood.
  simpl. unfold Filter.call_before. rewrite Hobj. reflexivity.
Qed.

(** X16: an error raised by the handler comes out of the invocation as it
    is, in the world the handler left: no [after_request] hook runs, and the
    [wsgify] boundary lets it through unless it is an HTTP error. *)
Theorem handler_errors_pass_through app A B C h request request' request1
        (w w1 w2 : World) e (as_response : exn -> Response) :
  Application.routers app = (A ++ B :: C)%list ->
  Forall (fun r => fst (Router.match_ r request) = Return None) A ->
  Router.match_ B request = (Return (Some h), request') ->
  Filter.before_loop (Application.filters app) (Application.self_ app) request' w
  = (Return request1, w1) ->
  h (Application.self_ app) request1 w1 = (Raise e, w2) ->
  Application.__call__ app request w = (Raise e, w2) /\
  (http_status e = None ->
   Application.wsgify as_response (Application.__call__ app) request w = (Raise e, w2)).
Proof.
  intros Happ HA HB Hbefore Hh.
  assert (E : Application.__call__ app request w = (Raise e, w2)).
  { unfold Application.__call__. rewrite Happ, call_loop_skip by assumption.
    simpl. rewrite HB. unfold bind. now rewrite Hbefore, Hh. }
  split; auto. intros Hs. unfold Application.wsgify. now rewrite E, Hs.
Qed.
End TwoChains.

(** ** The extension registry *)

Section Registry.
Context {World Response Ctx : Type}.
Implicit Types (app : Application.t World Response Ctx).

Lemma get_none_fresh {V : Type} k (d : Py.dict V) :
  Py.get k d = None -> ~ In k (Py.keys d).
Proof.
  intros H Hin. apply contains_true in Hin.
  destruct (get_some_keys _ d Hin) as [v Hv]. congruence.
Qed.

Lemma set_keeps_keys_distinct {V : Type} k (v : V) d :
  NoDup (Py.keys d) -> NoDup (Py.keys (Py.set k v d)).
Proof.
  intros H. destruct (Py.get k d) as [old|] eqn:E.
  - now rewrite (keys_set_present _ v _ E).
  - rewrite (keys_set_absent _ v _ E).
    apply NoDup_app; auto.
    + constructor; [intros []|constructor].
    + intros x Hx [<-|[]]. now apply (get_none_fresh _ _ E).
Qed.

(** X17: the registry never holds two entries under one class name: it
    starts empty, and a registration, whether it returns or raises, leaves
    the names distinct when they were distinct before and [initialize], which
    receives the live application, leaves them distinct as every dict
    does. *)
Theorem extension_names_stay_distinct :
  (forall (ctx : Ctx) routers,
      Application.extensions (@Application.__init__ World Response Ctx ctx routers) = []) /\
  (forall (initialize : Application.initializer World Response Ctx) inst app
          (w : World) o app' w',
      NoDup (Py.keys (Application.extensions app)) ->
      NoDup (Py.keys (Application.extensions (fst (snd (initialize inst (app, w)))))) ->
      Application.register_extension initialize inst (app, w) = (o, (app', w')) ->
      NoDup (Py.keys (Application.extensions app'))).
Proof.
  split; [reflexivity|].
  intros initialize inst app w o app' w' Hnd Hinit.
  unfold Application.register_extension.
  destruct (Extension.isinstance_Extension inst).
  - unfold bind.
    destruct (initialize inst (app, w)) as [[[]|e] [app1 w1]];
      cbn [fst snd] in Hinit; intros H; inversion H; subst; auto.
    cbn [Application.extensions Application.with_extensions fst].
    now apply set_keeps_keys_distinct.
  - intros H; inversion H; subst. assumption.
Qed.
End Registry.


Lemma unchecked_object_fails_at_request_time_witness :
  Router._apply_filter
    (Router.add_filter (add_filters about_router [as_filter (logging "F")]) no_hooks)
    (answering "about") tt (get_request "/about") []
  = (Raise (AttributeError "before_request"), ["F.before"]).
Proof.
  apply (@unchecked_object_fails_at_request_time (list string) string unit
           (Router.add_filter (add_filters about_router [as_filter (logging "F")]) no_hooks)
           [as_filter (logging "F")] no_hooks [] (answering "about") tt
           (get_request "/about") (get_request "/about") [] ["F.before"]);
    reflexivity.
Defined.

Lemma handler_errors_pass_through_witness :
  Application.__call__
    (Application.__init__ tt
       (Some [about_router; register empty_router "/x" failing_handler]))
    (get_request "/x") []
  = (Raise (UserError "boom"), ["H"]).
Proof.
  destruct (@handler_errors_pass_through (list string) string unit
           (Application.__init__ tt
              (Some [about_router; register empty_router "/x" failing_handler]))
           [about_router] (register empty_router "/x" failing_handler) []
           (Router._apply_filter (register empty_router "/x" failing_handler)
                                 failing_handler)
           (get_request "/x") (with_args (get_request "/x") [])
           (with_args (get_request "/x") []) [] [] ["H"] (UserError "boom")
           (fun _ => "error")) as [E _].
  - reflexivity.
  - repeat constructor.
  - reflexivity.
  - reflexivity.
  - reflexivity.
  - exact E.
Defined.

Lemma extension_names_stay_distinct_witness :
  exists app' w',
    Application.register_extension
      mounting_initialize (named_extension "Db" 2)
      (Application.with_extensions (Application.__init__ tt None)
                                   [("Db", named_extension "Db" 1)], 0)
    = (Return tt, (app', w')) /\
    NoDup (Py.keys (Application.extensions app')).
Proof.
  eexists. eexists. split; [reflexivity|].
  eapply (proj2 (@extension_names_stay_distinct nat string unit)
                mounting_initialize (named_extension "Db" 2)
                (Application.with_extensions (Application.__init__ tt None)
                                             [("Db", named_extension "Db" 1)])
                0 _ _ _).
  - repeat constructor. intros [].
  - repeat constructor. intros [].
  - reflexivity.
Defined.

(** ** Two parameters that can both take a separator *)

Section GreedySplit.

Lemma star_none_suffix cs s : forall pos g k,
  (forall p t h v, s = v ++ t -> k p t h = None) ->
  Re.star cs pos s g k = None.
Proof.
  induction s as [|c s IH]; intros pos g k Hk; simpl.
  - now apply (Hk _ _ _ EmptyString).
  - rewrite IH.
    + rewrite (Hk _ _ _ EmptyString) by reflexivity. now destruct (Re.accepts cs c).
    + intros p t h v ->. now apply (Hk _ _ _ (String c v)).
Qed.

(** A greedy run stops where what follows first succeeds, coming from the
    far end: here at [v], when no text behind the start of [v] will do. *)
Lemma star_stops cs u v pos g k r :
  Py.all_chars (Re.accepts cs) u = true ->
  (forall p t h c v1, v = String c v1 ++ t -> k p t h = None) ->
  k (pos + String.length u) v g = Some r ->
  Re.star cs pos (u ++ v) g k = Some r.
Proof.
  revert pos. induction u as [|c u IH]; intros pos Hu Hfail Hk.
  - simpl in *. rewrite Nat.add_0_r in Hk.
    destruct v as [|c v]; simpl; auto.
    rewrite star_none_suffix.
    + rewrite Hk. now destruct (Re.accepts cs c).
    + intros p t h v1 ->. now apply (Hfail _ _ _ c v1).
  - simpl in Hu. apply andb_prop in Hu as [Hc Hu].
    cbn [append Re.star]. rewrite Hc, IH; auto.
    simpl in Hk. now rewrite Nat.add_succ_r in Hk.
Qed.

Lemma no_char_in_suffix c v t : count_char c (v ++ t) = 0 -> count_char c t = 0.
Proof.
  induction v as [|d v IH]; simpl; auto. intros H. apply IH. lia.
Qed.

(** Two groups of [.+] around one separator: the first takes the text up to
    the last separator. *)
Lemma match_two_any pre a b x y :
  String.eqb b a = false ->
  x <> EmptyString -> y <> EmptyString ->
  Py.all_chars (Re.accepts Re.Dot) x = true ->
  Py.all_chars (Re.accepts Re.Dot) y = true ->
  count_char "/" y = 0 ->
  Re.match_ (literals pre
             ++ [Re.Group a [Re.Chars Re.Dot Re.Plus];
                 Re.Chars (Re.Lit "/") Re.One;
                 Re.Group b [Re.Chars Re.Dot Re.Plus];
                 Re.Eol])%list
            (pre ++ x ++ String "/" y)
  = Some [(a, x); (b, y)].
Proof.
  intros Hab Hx Hy Hdx Hdy Hsl.
  unfold Re.match_, Re.m_seq. rewrite m_literals.
  destruct x as [|c x]; [contradiction|]. destruct y as [|d y]; [contradiction|].
  cbn [Py.all_chars] in Hdx, Hdy.
  apply andb_prop in Hdx as [Hc Hdx]. apply andb_prop in Hdy as [Hd Hdy].
  cbn [append Re.seq_with Re.m_node Re.m_chars]. rewrite Hc.
  apply star_stops; auto.
  - intros p t h e v1 Hv. cbn [append] in Hv. injection Hv as _ Hv.
    rewrite Hv in Hsl. apply no_char_in_suffix in Hsl.
    destruct t as [|f t]; auto.
    cbn [Re.accepts]. simpl in Hsl.
    destruct (Ascii.eqb f "/"); [discriminate|reflexivity].
  - rewrite Hd.
    replace (Re.accepts (Re.Lit "/") "/"%char) with true by reflexivity.
    rewrite <- (append_nil_r y) at 1.
    apply star_stops; auto.
    + intros p t h e v1 Hv. destruct v1; discriminate.
    + cbn [Re.at_end].
      replace (S (0 + String.length pre) + String.length x - (0 + String.length pre))
        with (String.length (String c x)) by (cbn [String.length]; lia).
      replace (S (S (S (0 + String.length pre) + String.length x)) + String.length y
               - S (S (0 + String.length pre) + String.length x))
        with (String.length (String d y)) by (cbn [String.length]; lia).
      change (String c (x ++ String "/" (String d y)))
        with (String c x ++ String "/" (String d y)).
      rewrite substring_prefix.
      rewrite <- (append_nil_r (String d y)) at 2.
      rewrite substring_prefix.
      cbn [Py.set]. now rewrite Hab.
Qed.
End GreedySplit.

Section GreedyRoute.
Context {World Response Ctx : Type}.
Implicit Types (self : Router.t World Response Ctx) (request : Request).

(** The router with one route of clean parts, on a request for an allowed
    method and a path behind the prefix. *)
Lemma match_single_clean_route self segs methods h request x :
  Router.routes self = [] ->
  Router.domain self = None ->
  Forall (fun seg => clean seg = true) segs ->
  NoDup (param_names segs) ->
  Py.contains (method request) methods = true ->
  path request = Router.prefix self ++ x ->
  exists rt,
    Router._route self (render segs) methods h = Return rt /\
    Router.match_ rt request
    = match Re.match_ (nodes_of segs ++ [Re.Eol])%list x with
      | Some m =>
          match Router.cast_loop (casts_onto [] segs)
                                 (map (fun name => (name, Py.get name m))
                                      (param_names segs))
                                 (with_args request []) [] with
          | (Return _, request') =>
              (Return (Some (Router._apply_filter rt h)), request')
          | (Raise e, request') => (Raise e, request')
          end
      | None => (Return None, request)
      end.
Proof.
  intros Hroutes Hdom Hclean Hnd Hmeth Hpath.
  eexists. split; [now apply route_of_clean_rule|].
  unfold Router.match_, Router._domain_match, Router._prefix_match, Py.startswith.
  cbn [Router.domain Router.prefix Router.routes Router.with_routes].
  rewrite Hdom, Hpath, prefix_append, Hroutes.
  cbn [app Router.match_loop Router.methods Router.pattern Router.casts Router.handler
           Router.prefix Router.with_routes].
  rewrite Hmeth, Hpath, replace_first_prefix.
  unfold Re.groupdict.
  rewrite group_names_app, group_names_nodes_of, app_nil_r by assumption.
  reflexivity.
Qed.

Lemma clean_tagged name tag :
  Py.isidentifier name = true ->
  known_tag tag = true ->
  count_char ":" tag = 0 -> count_char "}" tag = 0 ->
  clean (Param (name ++ String ":" tag)) = true /\
  name_of (name ++ String ":" tag) = name /\
  tag_of (name ++ String ":" tag) = tag.
Proof.
  intros Hid Hk Hc Hb.
  destruct (words_tagged name tag (identifier_words _ Hid)) as (H1 & H2 & H3 & H4).
  unfold clean, spec_ok, tag_of, name_of.
  now rewrite H1, H2, H3, H4, Hid, Hk, Hc, Hb.
Qed.

(** X18: on a router with no domain and no other route, take the rule made of
    a plain literal text (no character that [re] or the rule scan reads
    specially), an [any] parameter, a separator and a second [any] parameter,
    the two names being different identifiers.  For a request with an allowed
    method whose path is the prefix, that literal text, a text, a separator
    and a last part, both non-empty and without a newline and the last part
    without a separator, the first parameter takes as much as it can: it is
    everything in front of the last separator, and the second is the last
    part. *)
Theorem first_parameter_takes_all_but_the_last_part
        self pre a b x y methods h request :
  Router.routes self = [] ->
  Router.domain self = None ->
  plain pre = true ->
  Py.isidentifier a = true -> Py.isidentifier b = true -> a <> b ->
  x <> EmptyString -> y <> EmptyString ->
  count_char Re.newline x = 0 -> count_char Re.newline y = 0 ->
  count_char "/" y = 0 ->
  Py.contains (method request) methods = true ->
  path request = Router.prefix self ++ pre ++ x ++ String "/" y ->
  exists rt,
    Router._route self
                  (render [Text pre; Param (a ++ ":any"); Text "/"; Param (b ++ ":any")])
                  methods h = Return rt /\
    Router.match_ rt request
    = (Return (Some (Router._apply_filter rt h)),
       with_args request [(a, VStr x); (b, VStr y)]).
Proof.
  intros Hroutes Hdom Hpre Ha Hb Hab Hx Hy Hnx Hny Hsl Hmeth Hpath.
  destruct (clean_tagged a "any" Ha eq_refl eq_refl eq_refl) as (Hca & Hna & Hta).
  destruct (clean_tagged b "any" Hb eq_refl eq_refl eq_refl) as (Hcb & Hnb & Htb).
  assert (Hdot : forall s, count_char Re.newline s = 0 ->
                           Py.all_chars (Re.accepts Re.Dot) s = true).
  { induction s as [|c s IH]; simpl; auto.
    destruct (Ascii.eqb c Re.newline); simpl; [discriminate|auto]. }
  assert (Hba : String.eqb b a = false).
  { apply String.eqb_neq. congruence. }
  destruct (@match_single_clean_route self
              [Text pre; Param (a ++ ":any"); Text "/"; Param (b ++ ":any")]
              methods h request (pre ++ x ++ String "/" y))
    as (rt & Hreg & Hm); auto.
  - unfold param_names. cbn [flat_map app].
    change (a ++ ":any") with (a ++ String ":" "any").
    change (b ++ ":any") with (b ++ String ":" "any").
    rewrite Hna, Hnb. repeat constructor.
    + intros [E|[]]. congruence.
    + intros [].
  - exists rt. split; [exact Hreg|]. rewrite Hm.
    unfold nodes_of, param_names.
    cbn [flat_map nodes_of_segment casts_onto app map].
    change (a ++ ":any") with (a ++ String ":" "any").
    change (b ++ ":any") with (b ++ String ":" "any").
    rewrite Hna, Hnb, Hta, Htb.
    change (Py.get "any" PATTERNS) with (Some ".+").
    change (Py.get "any" CASTS) with (Some py_str).
    change (body_of ".+") with [Re.Chars Re.Dot Re.Plus].
    change (literals "/") with [Re.Chars (Re.Lit "/") Re.One].
    rewrite app_nil_r.
    change ((literals pre
             ++ [Re.Group a [Re.Chars Re.Dot Re.Plus]]
             ++ [Re.Chars (Re.Lit "/") Re.One]
             ++ [Re.Group b [Re.Chars Re.Dot Re.Plus]]) ++ [Re.Eol])%list
      with ((literals pre
             ++ [Re.Group a [Re.Chars Re.Dot Re.Plus];
                 Re.Chars (Re.Lit "/") Re.One;
                 Re.Group b [Re.Chars Re.Dot Re.Plus]]) ++ [Re.Eol])%list.
    rewrite <- app_assoc. cbn [app].
    rewrite match_two_any by auto.
    cbn [Router.cast_loop Py.get Py.set]. unfold subscript.
    cbn [Py.get Py.set]. rewrite !String.eqb_refl, Hba.
    cbn [apply_cast Py.set Py.get]. rewrite ?String.eqb_refl, ?Hba.
    reflexivity.
Qed.
End GreedyRoute.

Lemma first_parameter_takes_all_but_the_last_part_witness :
  exists rt,
    Router._route (@empty_router (list string) string unit)
                  (render [Text "/files/"; Param "dir:any"; Text "/"; Param "name:any"])
                  Router.default_methods (answering "h") = Return rt /\
    Router.match_ rt (get_request "/files/a/b/c.txt")
    = (Return (Some (Router._apply_filter rt (answering "h"))),
       with_args (get_request "/files/a/b/c.txt")
                 [("dir", VStr "a/b"); ("name", VStr "c.txt")]).
Proof.
  apply (@first_parameter_takes_all_but_the_last_part (list string) string unit
           empty_router "/files/" "dir" "name" "a/b" "c.txt" Router.default_methods
           (answering "h") (get_request "/files/a/b/c.txt"));
    try reflexivity; discriminate.
Defined.

Section DefaultMethods.
Context {World Response Ctx : Type}.
Implicit Types (self : Router.t World Response Ctx) (request : Request).

Lemma match_loop_other_method self rs request :
  Forall (fun r => Py.contains (method request) (Router.methods r) = false) rs ->
  Router.match_loop self rs request = (Return None, request).
Proof.
  induction 1 as [|r rs Hr _ IH]; cbn [Router.match_loop]; auto.
  now rewrite Hr.
Qed.

(** X19: [route] without methods registers for GET, POST, PUT, PATCH, DELETE
    and OPTION, and hands the function back.  A router all of whose routes
    were registered so finds nothing for a request with another method (HEAD
    or OPTIONS, say) and leaves the request as it was, whatever the path. *)
Theorem default_methods_are_the_only_ones self rule fn rt fn' request b :
  Forall (fun r => Router.methods r = Router.default_methods) (Router.routes self) ->
  Router.route self rule None fn = Return (rt, fn') ->
  Py.contains (method request) Router.default_methods = false ->
  Router._domain_match rt request = Return b ->
  fn' = fn /\
  Forall (fun r => Router.methods r = Router.default_methods) (Router.routes rt) /\
  Router.match_ rt request = (Return None, request).
Proof.
  intros Hall Hreg Hother Hdom. unfold Router.route in Hreg.
  destruct (Router._route self rule Router.default_methods fn) as [self'|e] eqn:Hr;
    [|discriminate].
  injection Hreg as -> ->.
  destruct (route_shape _ _ _ _ Hr) as (r & -> & _ & Hm).
  assert (Hall' : Forall (fun r => Router.methods r = Router.default_methods)
                         (Router.routes self ++ [r])%list).
  { apply Forall_app. split; [exact Hall|]. repeat constructor. exact Hm. }
  split; [reflexivity|]. split; [exact Hall'|].
  unfold Router.match_. rewrite Hdom.
  destruct b; [|reflexivity].
  destruct (Router._prefix_match _ request); [|reflexivity].
  apply match_loop_other_method.
  cbn [Router.routes Router.with_routes].
  eapply Forall_impl; [|exact Hall'].
  intros r0 Hr0. cbn beta in Hr0. now rewrite Hr0.
Qed.
End DefaultMethods.

Lemma default_methods_are_the_only_ones_witness :
  answering "h" = answering "h" /\
  Forall (fun r => Router.methods r = Router.default_methods)
         (Router.routes (register (@empty_router (list string) string unit)
                                  "/items/{id:int}" (answering "h"))) /\
  Router.match_ (register empty_router "/items/{id:int}" (answering "h"))
                (mkRequest "OPTIONS" "/items/7" "example.com" EmptyString None)
  = (Return None, mkRequest "OPTIONS" "/items/7" "example.com" EmptyString None).
Proof.
  apply (@default_methods_are_the_only_ones (list string) string unit
           empty_router "/items/{id:int}" (answering "h")
           (register empty_router "/items/{id:int}" (answering "h")) (answering "h")
           (mkRequest "OPTIONS" "/items/7" "example.com" EmptyString None) true);
    try reflexivity.
  constructor.
Defined.
